(** * moredoc/util/converter: a shallow embedding of converter.go

    The converter is a glue layer around external tools.  Its Go functions
    are embedded as Rocq functions over
    - Go values: [string] for Go strings and byte slices (a Rocq [string]
      is a sequence of 8-bit characters, as a Go string is a sequence of
      bytes), [Z] with the 64-bit wrap-around written out for [int],
      [option string] for [error] ([None] is [nil]);
    - the parts of the Go standard library the file calls, written after
      their Go sources (packages [strings], [strconv], [path/filepath],
      [bytes], [compress/gzip]);
    - a host interface for everything that leaves the process (external
      commands, the file system, the clock, the UUID generator and the PDF
      reader library), threaded as explicit state together with the trace
      of the calls made.

    Logging through zap has no effect on results and is left out, and so
    are the probes for the tools ([ExistMupdf] and the like) and the two
    free-standing helpers [ConvertByImageMagick] and [ConvertByInkscape],
    which only hand their arguments to one host call. *)

From Stdlib Require Import ZArith List Bool Lia String Ascii DecimalString
  DecimalPos.
Import ListNotations.

Local Open Scope string_scope.
Local Open Scope list_scope.
Local Open Scope Z_scope.

(** ** Go values *)

(** Go's [error]: [None] is [nil], [Some msg] an error with that message. *)
Definition error := option string.

Definition isNil (e : error) : bool :=
  match e with None => true | Some _ => false end.

(** Go's [int] on the 64-bit platforms the server runs on. *)
Definition MaxInt64 : Z := 2 ^ 63 - 1.
Definition MinInt64 : Z := - 2 ^ 63.

Definition wrap64 (z : Z) : Z := (z + 2 ^ 63) mod 2 ^ 64 - 2 ^ 63.

Definition int_add (a b : Z) : Z := wrap64 (a + b).
Definition int_sub (a b : Z) : Z := wrap64 (a - b).
Definition int_mul (a b : Z) : Z := wrap64 (a * b).

Definition inInt64 (z : Z) : Prop := MinInt64 <= z <= MaxInt64.

(** [[]byte] and [string] convert into each other without change. *)
Definition bytes := string.

Definition byteOf (n : nat) : ascii := ascii_of_nat n.

(** Characters as numbers, for the range tests of the Go sources. *)
Definition code (c : ascii) : nat := nat_of_ascii c.

Fixpoint drop (n : nat) (s : string) : string :=
  match n, s with
  | O, _ => s
  | S n', String _ s' => drop n' s'
  | S _, EmptyString => EmptyString
  end.

Fixpoint take (n : nat) (s : string) : string :=
  match n, s with
  | S n', String c s' => String c (take n' s')
  | _, _ => EmptyString
  end.

Fixpoint srev_onto (s acc : string) : string :=
  match s with
  | EmptyString => acc
  | String c s' => srev_onto s' (String c acc)
  end.

(** The bytes of [s] from the last to the first. *)
Definition srev (s : string) : string := srev_onto s EmptyString.

Definition slen (s : string) : nat := String.length s.

(** ** Package [strings] *)

Module strings.

(** [strings.HasPrefix(s, prefix)]. *)
Definition HasPrefix (s pre : string) : bool := String.prefix pre s.

(** [strings.HasSuffix(s, suffix)]. *)
Definition HasSuffix (s suf : string) : bool :=
  String.prefix (srev suf) (srev s).

(** [strings.TrimSuffix(s, suffix)]: [s] without the suffix when it ends
    with it, [s] itself otherwise. *)
Definition TrimSuffix (s suf : string) : string :=
  if HasSuffix s suf then take (slen s - slen suf) s else s.

(** [strings.Index(s, substr)]: the first position at which [substr]
    starts in [s]; [None] is Go's [-1]. *)
Fixpoint Index (s sub : string) : option nat :=
  if String.prefix sub s then Some O
  else match s with
       | EmptyString => None
       | String _ s' => option_map S (Index s' sub)
       end.

(** The loop of [strings.Count] for a non-empty [substr]: find, count,
    cut after the match, repeat.  Every round removes at least one byte,
    so [slen s] rounds are enough. *)
Fixpoint countLoop (rounds : nat) (s sub : string) : nat :=
  match rounds with
  | O => O
  | S r =>
      match Index s sub with
      | None => O
      | Some i => S (countLoop r (drop (i + slen sub) s) sub)
      end
  end.

(** [strings.Count(s, substr)], [substr] not empty: the number of
    non-overlapping instances. *)
Definition Count (s sub : string) : nat := countLoop (slen s) s sub.

(** The loop of [genSplit(s, sep, 0, n)]: at most [cuts] cuts at the
    first instance of [sep], then the rest as the last element. *)
Fixpoint splitLoop (cuts : nat) (s sep : string) : list string :=
  match cuts with
  | O => [s]
  | S k =>
      match Index s sep with
      | None => [s]
      | Some m => take m s :: splitLoop k (drop (m + slen sep) s) sep
      end
  end.

(** [strings.Split(s, sep)] for a non-empty [sep]: [genSplit] with
    [n = Count(s, sep) + 1] elements. *)
Definition Split (s sep : string) : list string :=
  splitLoop (Count s sep) s sep.

Fixpoint memByte (c : ascii) (set : string) : bool :=
  match set with
  | EmptyString => false
  | String d set' => if Ascii.eqb c d then true else memByte c set'
  end.

(** [strings.TrimLeft(s, cutset)] for a cutset of ASCII bytes (the two
    cutsets of this file are "." and "page"): the leading bytes that
    belong to the cutset are removed. *)
Fixpoint TrimLeft (s cutset : string) : string :=
  match s with
  | EmptyString => EmptyString
  | String c s' => if memByte c cutset then TrimLeft s' cutset else s
  end.

Definition isASCIIByte (c : ascii) : bool := (code c <? 128)%nat.

Fixpoint isASCII (s : string) : bool :=
  match s with
  | EmptyString => true
  | String c s' => isASCIIByte c && isASCII s'
  end.

Definition lowerByte (c : ascii) : ascii :=
  if ((65 <=? code c) && (code c <=? 90))%nat
  then byteOf (code c + 32) else c.

Fixpoint mapBytes (f : ascii -> ascii) (s : string) : string :=
  match s with
  | EmptyString => EmptyString
  | String c s' => String (f c) (mapBytes f s')
  end.

(** The table [asciiSpace] of the Go source: tab, line feed, vertical
    tab, form feed, carriage return, space. *)
Definition asciiSpace (c : ascii) : bool :=
  let n := code c in
  ((n =? 9) || (n =? 10) || (n =? 11) || (n =? 12) || (n =? 13) || (n =? 32))%nat.

Section Unicode.

(** What Go does with strings that hold bytes outside ASCII depends on
    the Unicode tables.  These three functions stand for the slow paths
    of the Go sources; the ASCII fast paths are written out. *)
Variable mapUnicodeToLower : string -> string.
Variable trimFuncIsSpace : string -> string.
Variable trimRightFuncIsSpace : string -> string.

(** [strings.ToLower(s)]. *)
Definition ToLower (s : string) : string :=
  if isASCII s then mapBytes lowerByte s else mapUnicodeToLower s.

(** Second loop of [strings.TrimSpace], over the bytes from the end:
    [r] is what is left of the string, reversed. *)
Fixpoint trimSpaceStop (r : string) : string :=
  match r with
  | EmptyString => EmptyString
  | String c r' =>
      if negb (isASCIIByte c) then trimRightFuncIsSpace (srev r)
      else if asciiSpace c then trimSpaceStop r'
      else srev r
  end.

(** [strings.TrimSpace(s)]: first loop, over the bytes from the start. *)
Fixpoint TrimSpace (s : string) : string :=
  match s with
  | EmptyString => EmptyString
  | String c s' =>
      if negb (isASCIIByte c) then trimFuncIsSpace s
      else if asciiSpace c then TrimSpace s'
      else trimSpaceStop (srev s)
  end.

End Unicode.

End strings.

(** ** Package [strconv] *)

Module strconv.

Definition isDigit (c : ascii) : bool :=
  ((48 <=? code c) && (code c <=? 57))%nat.

(** The digits of [s] as a number, [None] when a byte is not a digit. *)
Fixpoint digits (acc : Z) (s : string) : option Z :=
  match s with
  | EmptyString => Some acc
  | String c s' =>
      if isDigit c then digits (acc * 10 + Z.of_nat (code c - 48)) s'
      else None
  end.

(** [strconv.Atoi(s)] on a 64-bit platform, value and error.  A syntax
    error gives 0; a number out of range gives the nearest bound
    together with a range error, as [ParseInt] does. *)
Definition Atoi (s : string) : Z * error :=
  let syntaxErr := Some ("strconv.Atoi: parsing: invalid syntax") in
  let rangeErr := Some ("strconv.Atoi: parsing: value out of range") in
  match s with
  | EmptyString => (0, syntaxErr)
  | String c rest =>
      let neg := Ascii.eqb c "-" in
      let body := if neg || Ascii.eqb c "+" then rest else s in
      match body with
      | EmptyString => (0, syntaxErr)
      | _ =>
          match digits 0 body with
          | None => (0, syntaxErr)
          | Some un =>
              if negb neg && (2 ^ 63 <=? un) then (MaxInt64, rangeErr)
              else if neg && (2 ^ 63 <? un) then (MinInt64, rangeErr)
              else (if neg then - un else un, None)
          end
      end
  end.

(** [strconv.Itoa], which is also what the verb [%d] of package [fmt]
    prints for an [int]. *)
Definition Itoa (n : Z) : string := NilZero.string_of_int (Z.to_int n).

End strconv.

(** ** Package [bytes] *)

Module bytes_.

(** The loop of [bytes.Replace(s, old, new, n)] for a non-empty [old]:
    copy up to the next instance of [old], write [new], go on behind the
    instance. *)
Fixpoint replaceLoop (n : nat) (s old new : bytes) : bytes :=
  match n with
  | O => s
  | S k =>
      match strings.Index s old with
      | None => s
      | Some j =>
          (take j s ++ new ++ replaceLoop k (drop (j + slen old) s) old new)%string
      end
  end.

(** [bytes.ReplaceAll(s, old, new)], [old] not empty: all
    non-overlapping instances of [old], from the left, become [new]. *)
Definition ReplaceAll (s old new : bytes) : bytes :=
  replaceLoop (strings.Count s old) s old new.

End bytes_.

(** ** Package [path/filepath], on a Unix host

    The separator is the slash, there are no volume names, and
    [filepath.ToSlash] changes nothing. *)

Module filepath.

Definition isSep (c : ascii) : bool := Ascii.eqb c "/".

(** The loop of [filepath.Ext], from the last byte backwards: [r] is the
    path reversed, [acc] the bytes passed so far. *)
Fixpoint extScan (r acc : string) : string :=
  match r with
  | EmptyString => EmptyString
  | String c r' =>
      if isSep c then EmptyString
      else if Ascii.eqb c "." then String c acc
      else extScan r' (String c acc)
  end.

(** [filepath.Ext(path)]: the suffix of the last element that starts at
    its last dot, empty when that element has no dot. *)
Definition Ext (path : string) : string := extScan (srev path) EmptyString.

Fixpoint stripSeps (r : string) : string :=
  match r with
  | String c r' => if isSep c then stripSeps r' else r
  | EmptyString => EmptyString
  end.

(** The bytes of [r] before its first separator, reversed onto [acc]. *)
Fixpoint lastElem (r acc : string) : string :=
  match r with
  | EmptyString => acc
  | String c r' => if isSep c then acc else lastElem r' (String c acc)
  end.

(** [filepath.Base(path)]. *)
Definition Base (path : string) : string :=
  match path with
  | EmptyString => "."
  | _ =>
      match lastElem (stripSeps (srev path)) EmptyString with
      | EmptyString => "/"
      | e => e
      end
  end.

(** The elements of a path: what stands between its separators. *)
Fixpoint elements (s : string) : list string :=
  match s with
  | EmptyString => [EmptyString]
  | String c s' =>
      if isSep c then EmptyString :: elements s'
      else match elements s' with
           | e :: es => String c e :: es
           | [] => [String c EmptyString]
           end
  end.

(** One element in the loop of [filepath.Clean].  [st] holds the
    elements written so far, the last one first.  An empty element or a
    dot is dropped; a double dot removes the last element written when
    there is one that is not itself a double dot, is dropped at the top of
    a rooted path, and is kept otherwise; any other element is written. *)
Definition cleanStep (rooted : bool) (st : list string) (e : string)
  : list string :=
  if String.eqb e "" || String.eqb e "." then st
  else if String.eqb e ".." then
    match st with
    | top :: st' => if String.eqb top ".." then e :: st else st'
    | [] => if rooted then [] else [e]
    end
  else e :: st.

Definition isRooted (path : string) : bool :=
  match path with
  | String c _ => isSep c
  | EmptyString => false
  end.

Definition render (rooted : bool) (elems : list string) : string :=
  if rooted then ("/" ++ String.concat "/" elems)%string
  else match elems with
       | [] => "."
       | _ => String.concat "/" elems
       end.

(** [filepath.Clean(path)]. *)
Definition Clean (path : string) : string :=
  match path with
  | EmptyString => "."
  | _ =>
      let rooted := isRooted path in
      render rooted (rev (fold_left (cleanStep rooted) (elements path) []))
  end.

(** [filepath.Join(elem...)]: the elements from the first non-empty one
    on, joined by the separator and cleaned. *)
Fixpoint Join (elem : list string) : string :=
  match elem with
  | [] => EmptyString
  | e :: rest =>
      if String.eqb e "" then Join rest
      else Clean (String.concat "/" elem)
  end.

Definition ToSlash (path : string) : string := path.

(** The path reversed, cut back to its last separator. *)
Fixpoint dirScan (r : string) : string :=
  match r with
  | EmptyString => EmptyString
  | String c r' => if isSep c then r else dirScan r'
  end.

(** [filepath.Dir(path)]. *)
Definition Dir (path : string) : string :=
  Clean (srev (dirScan (srev path))).

End filepath.

(** ** Package [compress/gzip]

    A gzip stream is kept in symbolic form, as the sequence of the parts a
    [gzip.Writer] hands to the underlying buffer: the member header, the
    deflate blocks that carry data, the empty block [Flush] ends with, and
    what [Close] adds (the final block and the trailer with the length of
    the data; the checksum of the trailer is left out). *)

Module gzip.

Definition HuffmanOnly : Z := -2.
Definition BestCompression : Z := 9.

Inductive Part : Type :=
| Header
| Deflated (data : bytes)
| SyncMarker
| Finish (isize : Z).

Definition Stream := list Part.

Record Writer : Type := mkWriter {
  w_level : Z;
  w_buf : Stream;          (* the [bytes.Buffer] behind the writer *)
  w_wroteHeader : bool;
  w_pending : bytes;       (* taken by the compressor, not yet written *)
  w_size : Z;
  w_closed : bool
}.

(** [gzip.NewWriterLevel(&buf, level)] on an empty buffer. *)
Definition NewWriterLevel (level : Z) : Writer * error :=
  if (level <? HuffmanOnly) || (BestCompression <? level)
  then (mkWriter level [] false "" 0 false,
        Some ("gzip: invalid compression level: " ++ strconv.Itoa level)%string)
  else (mkWriter level [] false "" 0 false, None).

(** [z.Write(p)]: the header goes out before the first data; the data is
    handed to the compressor. *)
Definition Write (z : Writer) (p : bytes) : Writer :=
  mkWriter (w_level z)
           (if w_wroteHeader z then w_buf z else w_buf z ++ [Header])
           true
           (w_pending z ++ p)%string
           ((w_size z + Z.of_nat (slen p)) mod 2 ^ 32)
           (w_closed z).

(** [z.Flush()]: everything the compressor holds is written, followed by
    the sync marker. *)
Definition Flush (z : Writer) : Writer :=
  if w_closed z then z
  else
    let z := if w_wroteHeader z then z else Write z "" in
    mkWriter (w_level z)
             (w_buf z ++ [Deflated (w_pending z); SyncMarker])
             true "" (w_size z) (w_closed z).

(** [z.Close()]: what is pending, the final block and the trailer. *)
Definition Close (z : Writer) : Writer :=
  if w_closed z then z
  else
    let z := if w_wroteHeader z then z else Write z "" in
    mkWriter (w_level z)
             (w_buf z ++ [Deflated (w_pending z); Finish (w_size z)])
             true "" (w_size z) true.

(** Reading the blocks of a member: the data read, and how the reading
    ends ([None] at the end of a complete member). *)
Fixpoint inflate (n : Z) (s : Stream) : bytes * error :=
  match s with
  | [] => ("", Some "unexpected EOF")
  | Header :: _ => ("", Some "flate: corrupt input")
  | Deflated d :: s' =>
      let r := inflate (n + Z.of_nat (slen d)) s' in
      ((d ++ fst r)%string, snd r)
  | SyncMarker :: s' => inflate n s'
  | Finish isize :: _ =>
      if isize =? n mod 2 ^ 32 then ("", None)
      else ("", Some "gzip: invalid checksum")
  end.

(** What [io.ReadAll(gzip.NewReader(r))] returns for the stream [s]. *)
Definition ReadAll (s : Stream) : bytes * error :=
  match s with
  | Header :: s' => inflate 0 s'
  | [] => ("", Some "EOF")
  | _ => ("", Some "gzip: invalid header")
  end.

End gzip.

(** ** Package [time] *)

Module time.

(** The calendar date of a [time.Time]. *)
Record Time : Type := mkTime { Year : Z; Month : Z; Day : Z }.

Definition Hour : Z := 3600 * 1000000000.

Fixpoint zeros (n : nat) : string :=
  match n with
  | O => EmptyString
  | S n' => String "0" (zeros n')
  end.

(** [appendInt(b, x, width)]: the sign, then the digits of [x], padded to
    [width] with zeros. *)
Definition appendInt (x : Z) (width : nat) : string :=
  let d := NilZero.string_of_uint (N.to_uint (Z.abs_N x)) in
  ((if Z.ltb x 0 then "-" else "") ++ zeros (width - slen d) ++ d)%string.

(** [t.Format("2006/01/02")]. *)
Definition Format_dirDteFmt (t : Time) : string :=
  (appendInt (Year t) 4 ++ "/" ++ appendInt (Month t) 2 ++ "/"
     ++ appendInt (Day t) 2)%string.

End time.

(** ** The host

    Everything outside the process.  [W] is the state of the world: the
    file system, the installed tools, the clock, the generators.  Calls
    that only look at the world are functions of [W]; the others return
    the world they leave behind. *)

(** What [pdf.Open(file)] followed by [reader.NumPage()] does. *)
Inductive PdfRead : Type :=
| PdfPanic (r : string)        (* the library panics with value [r] *)
| PdfOpenError (e : string)    (* [pdf.Open] returns the error [e] *)
| PdfNumPage (n : Z).          (* the file opens, [NumPage] returns [n] *)

Record Host (W : Type) : Type := mkHost {
  (** [command.ExecCommand(name, args, timeout...)]: combined output and
      error. *)
  h_ExecCommand : string -> list string -> list Z -> W -> (string * error) * W;
  h_Stat : string -> W -> error;
  h_ReadFile : string -> W -> bytes * error;
  h_WriteFile : string -> gzip.Stream -> W -> error * W;
  h_Remove : string -> W -> error * W;
  h_RemoveAll : string -> W -> error * W;
  h_MkdirAll : string -> W -> error * W;
  (** [util.CopyFile(src, dst)]. *)
  h_CopyFile : string -> string -> W -> error * W;
  h_pdfRead : string -> W -> PdfRead;
  (** [uuid.NewV1()], the UUID in its canonical text form. *)
  h_NewV1 : W -> (string * error) * W;
  h_Now : W -> time.Time;
  (** The order in which [range] visits a map of two entries: [true] for
      the order in which the literal lists them. *)
  h_rangeOrder : W -> bool * W
}.

Arguments h_ExecCommand {W}.
Arguments h_Stat {W}.
Arguments h_ReadFile {W}.
Arguments h_WriteFile {W}.
Arguments h_Remove {W}.
Arguments h_RemoveAll {W}.
Arguments h_MkdirAll {W}.
Arguments h_CopyFile {W}.
Arguments h_pdfRead {W}.
Arguments h_NewV1 {W}.
Arguments h_Now {W}.
Arguments h_rangeOrder {W}.

(** The calls made to the host, with what they returned. *)
Inductive Event : Type :=
| EvExec (name : string) (args : list string) (timeout : list Z)
         (out : string) (err : error)
| EvStat (path : string) (err : error)
| EvReadFile (path : string) (err : error)
| EvWriteFile (path : string) (data : gzip.Stream) (err : error)
| EvRemove (path : string)
| EvRemoveAll (path : string) (err : error)
| EvMkdirAll (path : string)
| EvCopyFile (src dst : string) (err : error)
| EvPdfRead (file : string) (r : PdfRead)
| EvNewV1 (uuid : string) (err : error).

(** ** Computations: world in, result, world and trace out *)

Definition M (W A : Type) : Type := W -> A * W * list Event.

Definition ret {W A} (a : A) : M W A := fun w => (a, w, []).

Definition bind {W A B} (m : M W A) (k : A -> M W B) : M W B :=
  fun w =>
    let '(a, w1, t1) := m w in
    let '(b, w2, t2) := k a w1 in
    (b, w2, t1 ++ t2).

Notation "x <- m ;; k" := (bind m (fun x => k))
  (at level 61, m at next level, right associativity).
Notation "' p <- m ;; k" := (bind m (fun x => let 'p := x in k))
  (at level 61, p pattern, m at next level, right associativity).

Definition result {W A} (r : A * W * list Event) : A := fst (fst r).
Definition world {W A} (r : A * W * list Event) : W := snd (fst r).
Definition trace {W A} (r : A * W * list Event) : list Event := snd r.

(** A Go call either returns or panics. *)
Inductive Outcome (A : Type) : Type :=
| Returned (a : A)
| Panicked (msg : string).

Arguments Returned {A} a.
Arguments Panicked {A} msg.

(** ** The converter *)

Definition soffice : string := "soffice".
Definition ebookConvert : string := "ebook-convert".
Definition svgo : string := "svgo".
Definition mutool : string := "mutool".
Definition inkscape : string := "inkscape".
Definition imageMagick : string := "convert".

(** The double quote and the line feed, which a string literal does not
    spell out. *)
Definition dquote : string := String "034"%char EmptyString.
Definition newline : string := String "010"%char EmptyString.

Record Converter : Type := mkConverter {
  cachePath : string;
  timeout : Z;
  workspace : string
}.

Record Page : Type := mkPage {
  PageNum : Z;
  PagePath : string
}.

Record OptionConvertPages : Type := mkOption {
  EnableSVGO : bool;
  EnableGZIP : bool;
  Extension : string
}.

(** The keys and values of the map [replaces] of [CompressSVGByGZIP]. *)
Definition patLt : string := ("data-text=" ++ dquote ++ "<" ++ dquote)%string.
Definition repLt : string := ("data-text=" ++ dquote ++ "&lt;" ++ dquote)%string.
Definition patGt : string := ("data-text=" ++ dquote ++ ">" ++ dquote)%string.
Definition repGt : string := ("data-text=" ++ dquote ++ "&gt;" ++ dquote)%string.

(** The entries of the map, in the order of the literal. *)
Definition replaces : list (string * string) :=
  [ (patLt, repLt); (patGt, repGt) ].

Section Converter.

Context {W : Type} (host : Host W).

(** The slow paths of [strings.ToLower] and [strings.TrimSpace]. *)
Variable mapUnicodeToLower : string -> string.
Variable trimFuncIsSpace : string -> string.
Variable trimRightFuncIsSpace : string -> string.

(** [fmt.Sprintf(format, n)] for one [int] operand and a format that is
    put together at run time. *)
Variable Sprintf : string -> Z -> string.

Local Abbreviation ToLower := (strings.ToLower mapUnicodeToLower).
Local Abbreviation TrimSpace :=
  (strings.TrimSpace trimFuncIsSpace trimRightFuncIsSpace).

(** *** Calls to the host, logged *)

Definition ExecCommand (name : string) (args : list string) (tmo : list Z)
  : M W (string * error) :=
  fun w =>
    let '(r, w') := h_ExecCommand host name args tmo w in
    (r, w', [EvExec name args tmo (fst r) (snd r)]).

Definition Stat (path : string) : M W error :=
  fun w => let e := h_Stat host path w in (e, w, [EvStat path e]).

Definition ReadFile (path : string) : M W (bytes * error) :=
  fun w => let r := h_ReadFile host path w in (r, w, [EvReadFile path (snd r)]).

Definition WriteFile (path : string) (data : gzip.Stream) : M W error :=
  fun w =>
    let '(e, w') := h_WriteFile host path data w in
    (e, w', [EvWriteFile path data e]).

Definition Remove (path : string) : M W error :=
  fun w => let '(e, w') := h_Remove host path w in (e, w', [EvRemove path]).

Definition RemoveAll (path : string) : M W error :=
  fun w =>
    let '(e, w') := h_RemoveAll host path w in (e, w', [EvRemoveAll path e]).

Definition MkdirAll (path : string) : M W error :=
  fun w => let '(e, w') := h_MkdirAll host path w in (e, w', [EvMkdirAll path]).

Definition CopyFile (src dst : string) : M W error :=
  fun w =>
    let '(e, w') := h_CopyFile host src dst w in (e, w', [EvCopyFile src dst e]).

Definition pdfRead (file : string) : M W PdfRead :=
  fun w => let r := h_pdfRead host file w in (r, w, [EvPdfRead file r]).

Definition NewV1 : M W (string * error) :=
  fun w =>
    let '(r, w') := h_NewV1 host w in (r, w', [EvNewV1 (fst r) (snd r)]).

Definition Now : M W time.Time := fun w => (h_Now host w, w, []).

Definition rangeOrder : M W bool :=
  fun w => let '(b, w') := h_rangeOrder host w in (b, w', []).

(** *** Workspace *)

Definition makeWorkspace (c : Converter)
  : M W (Outcome (string * Converter)) :=
  if negb (String.eqb (workspace c) "") then
    ret (Returned (workspace c, c))
  else
    '(uid, e) <- NewV1 ;;
    match e with
    | Some msg => ret (Panicked msg)          (* [uuid.Must] *)
    | None =>
        now <- Now ;;
        let ws := filepath.ToSlash
                    (filepath.Join [cachePath c; time.Format_dirDteFmt now; uid]) in
        ret (Returned (ws, mkConverter (cachePath c) (timeout c) ws))
    end.

Definition NewConverter (tmo : list Z) : M W (Outcome Converter) :=
  let expire := match tmo with t :: _ => t | [] => int_mul 1 time.Hour end in
  let defaultCachePath := "cache/convert" in
  let cvt := mkConverter defaultCachePath expire "" in
  r <- makeWorkspace cvt ;;
  match r with
  | Panicked msg => ret (Panicked msg)
  | Returned (ws, cvt) =>
      let cvt := mkConverter (cachePath cvt) (timeout cvt) ws in
      _ <- MkdirAll defaultCachePath ;;
      _ <- MkdirAll (workspace cvt) ;;
      ret (Returned cvt)
  end.

Definition SetCachePath (c : Converter) (path : string) : M W Converter :=
  _ <- MkdirAll path ;;
  ret (mkConverter path (timeout c) (workspace c)).

Definition Clean (c : Converter) : M W (error * Converter) :=
  if negb (String.eqb (workspace c) "") then
    err <- RemoveAll (workspace c) ;;
    ret (err, mkConverter (cachePath c) (timeout c) "")
  else ret (None, c).

(** *** To PDF *)

Definition convertToPDFBySoffice (c : Converter) (src : string)
  : M W (string * error) :=
  let dst := (workspace c ++ "/"
              ++ strings.TrimSuffix (filepath.Base src) (filepath.Ext src)
              ++ ".pdf")%string in
  let args := ["--headless"; "--convert-to"; "pdf"; "--outdir"; workspace c]
                ++ [src] in
  '(_, err) <- ExecCommand soffice args [timeout c] ;;
  ret (dst, err).

Definition convertToPDFByCalibre (c : Converter) (src : string)
  : M W (string * error) :=
  let dst := (workspace c ++ "/dst.pdf")%string in
  let args := [src; dst; "--paper-size"; "a4";
               "--pdf-page-margin-bottom"; "36";
               "--pdf-page-margin-left"; "36";
               "--pdf-page-margin-right"; "36";
               "--pdf-page-margin-top"; "36"] in
  _ <- MkdirAll (filepath.Dir dst) ;;
  '(_, err) <- ExecCommand ebookConvert args [timeout c] ;;
  ret (dst, err).

Definition PDFToPDF (c : Converter) (src : string) : M W (string * error) :=
  let dst := (workspace c ++ "/dst.pdf")%string in
  err <- CopyFile src dst ;;
  ret (dst, err).

Definition ConvertOfficeToPDF := convertToPDFBySoffice.
Definition ConvertEPUBToPDF := convertToPDFByCalibre.
Definition ConvertUMDToPDF := convertToPDFBySoffice.
Definition ConvertTXTToPDF := convertToPDFBySoffice.
Definition ConvertMOBIToPDF := convertToPDFByCalibre.
Definition ConvertAZWToPDF := convertToPDFByCalibre.
Definition ConvertCHMToPDF := convertToPDFByCalibre.

Definition ConvertToPDF (c : Converter) (src : string) : M W (string * error) :=
  let ext := ToLower (filepath.Ext src) in
  if String.eqb ext ".epub" then ConvertEPUBToPDF c src
  else if String.eqb ext ".umd" then ConvertUMDToPDF c src
  else if String.eqb ext ".txt" then ConvertTXTToPDF c src
  else if String.eqb ext ".mobi" then ConvertMOBIToPDF c src
  else if String.eqb ext ".azw" || String.eqb ext ".azw3"
          || String.eqb ext ".azw4" then ConvertAZWToPDF c src
  else if String.eqb ext ".chm" then ConvertCHMToPDF c src
  else if String.eqb ext ".pdf" then PDFToPDF c src
  else ConvertOfficeToPDF c src.

(** *** PDF to pages

    The two page loops run [for i := 0; i <= toPage-fromPage; i++].  When
    the difference is the largest [int] the condition never fails, so the
    loops are given fuel: [None] stands for a call that has not returned
    when the fuel is used up. *)

Definition pagePathOf (cacheFileFormat : string) (i : Z) : string :=
  Sprintf cacheFileFormat (int_add i 1).

Definition inkscapeArgs (flag pagePath : string) (n : Z) (src : string)
  : list string :=
  ["-o"; pagePath; flag; strconv.Itoa n; "--pdf-poppler"] ++ [src].

Fixpoint inkscapeLoop (fuel : nat) (c : Converter) (src : string)
    (fromPage toPage : Z) (cacheFileFormat : string)
    (i : Z) (pages : list Page) : M W (option (list Page * error)) :=
  match fuel with
  | O => ret None
  | S fuel' =>
      if i <=? int_sub toPage fromPage then
        let pagePath := pagePathOf cacheFileFormat i in
        let n := int_add fromPage i in
        '(_, err) <- ExecCommand inkscape
                       (inkscapeArgs "--pdf-page" pagePath n src) [timeout c] ;;
        '(_, err) <-
           (if isNil err then ret (EmptyString, err)
            else ExecCommand inkscape
                   (inkscapeArgs "--pages" pagePath n src) [timeout c]) ;;
        if isNil err then
          err <- Stat pagePath ;;
          if isNil err then
            inkscapeLoop fuel' c src fromPage toPage cacheFileFormat
              (int_add i 1) (pages ++ [mkPage n pagePath])
          else ret (Some (pages, err))                      (* break *)
        else ret (Some (pages, err))                        (* return *)
      else ret (Some (pages, None))
  end.

Definition convertPDFToPageByInkscape (fuel : nat) (c : Converter)
    (src : string) (fromPage toPage : Z) (ext : string)
  : M W (option (list Page * error)) :=
  let cacheFileFormat := (workspace c ++ "/%d" ++ ext)%string in
  inkscapeLoop fuel c src fromPage toPage cacheFileFormat 0 [].

Fixpoint mutoolLoop (fuel : nat) (fromPage toPage : Z)
    (cacheFileFormat : string) (i : Z) (pages : list Page)
  : M W (option (list Page * error)) :=
  match fuel with
  | O => ret None
  | S fuel' =>
      if i <=? int_sub toPage fromPage then
        let pagePath := pagePathOf cacheFileFormat i in
        err <- Stat pagePath ;;
        if isNil err then
          mutoolLoop fuel' fromPage toPage cacheFileFormat
            (int_add i 1) (pages ++ [mkPage (int_add fromPage i) pagePath])
        else ret (Some (pages, err))                        (* break *)
      else ret (Some (pages, None))
  end.

Definition mutoolArgs (c : Converter) (src : string) (fromPage toPage : Z)
    (ext : string) : list string :=
  let pageRange := (strconv.Itoa fromPage ++ "-" ++ strconv.Itoa toPage)%string in
  let cacheFileFormat := (workspace c ++ "/%d" ++ ext)%string in
  ["convert"; "-o"; cacheFileFormat; src; pageRange].

(** The body of [convertPDFToPage], before the deferred function runs. *)
Definition convertPDFToPage_body (fuel : nat) (c : Converter)
    (src : string) (fromPage toPage : Z) (ext : string)
  : M W (option (list Page * error)) :=
  let cacheFileFormat := (workspace c ++ "/%d" ++ ext)%string in
  '(_, err) <- ExecCommand mutool (mutoolArgs c src fromPage toPage ext)
                 [timeout c] ;;
  if isNil err then mutoolLoop fuel fromPage toPage cacheFileFormat 0 []
  else ret (Some ([], err)).

(** [convertPDFToPage]: the body, then the deferred function, which sees
    the values the body is about to return and replaces them with those
    of the Inkscape path when the error is not nil. *)
Definition convertPDFToPage (fuel : nat) (c : Converter)
    (src : string) (fromPage toPage : Z) (ext : string)
  : M W (option (list Page * error)) :=
  r <- convertPDFToPage_body fuel c src fromPage toPage ext ;;
  match r with
  | None => ret None
  | Some (pages, err) =>
      if isNil err then ret (Some (pages, err))
      else convertPDFToPageByInkscape fuel c src fromPage toPage ext
  end.

Definition ConvertPDFToPNG (fuel : nat) (c : Converter) (src : string)
    (fromPage toPage : Z) : M W (option (list Page * error)) :=
  convertPDFToPage fuel c src fromPage toPage ".png".

(** *** Images *)

Definition ConvertPNGToJPG (c : Converter) (src : string)
  : M W (string * error) :=
  let dst := (strings.TrimSuffix src (filepath.Ext src) ++ ".jpg")%string in
  '(_, err) <- ExecCommand imageMagick [src; dst] [timeout c] ;;
  ret (dst, err).

Definition ConvertPNGToWEBP (c : Converter) (src : string)
  : M W (string * error) :=
  let dst := (strings.TrimSuffix src (filepath.Ext src) ++ ".webp")%string in
  '(_, err) <- ExecCommand imageMagick [src; dst] [timeout c] ;;
  ret (dst, err).

(** The loop [for idx, page := range pages] of the branch for jpg and
    webp of [ConvertPDFToPages]; the result is the slice after the
    assignments [pages[idx] = page]. *)
Fixpoint convertEachPage (c : Converter) (ext : string) (pages : list Page)
  : M W (list Page) :=
  match pages with
  | [] => ret []
  | page :: rest =>
      '(dst, errConvert) <-
         (if negb (String.eqb ext "webp")
          then ConvertPNGToJPG c (PagePath page)
          else ConvertPNGToWEBP c (PagePath page)) ;;
      page' <- (if isNil errConvert
                then _ <- Remove (PagePath page) ;;
                     ret (mkPage (PageNum page) dst)
                else ret page) ;;
      rest' <- convertEachPage c ext rest ;;
      ret (page' :: rest')
  end.

(** *** SVG *)

Definition CompressSVGBySVGO (c : Converter) (svgFolder : string)
  : M W error :=
  '(_, err) <- ExecCommand svgo ["-f"; svgFolder] [int_mul (timeout c) 10] ;;
  ret err.

(** The loop over the map [replaces], in the order [range] picks. *)
Definition applyReplaces (inOrder : bool) (svgBytes : bytes) : bytes :=
  fold_left (fun b kv => bytes_.ReplaceAll b (fst kv) (snd kv))
            (if inOrder then replaces else rev replaces) svgBytes.

(** The writer after [gzw.Write(svgBytes)] and [gzw.Flush()]; its buffer
    is what [CompressSVGByGZIP] hands to [os.WriteFile]. *)
Definition gzipFlushed (gzw : gzip.Writer) (svgBytes : bytes) : gzip.Writer :=
  gzip.Flush (gzip.Write gzw svgBytes).

Definition CompressSVGByGZIP (c : Converter) (svgFile : string)
  : M W (string * error) :=
  let dst := (strings.TrimSuffix svgFile (filepath.Ext svgFile)
              ++ ".gzip.svg")%string in
  '(svgBytes, err) <- ReadFile svgFile ;;
  if isNil err then
    inOrder <- rangeOrder ;;
    let svgBytes := applyReplaces inOrder svgBytes in
    let '(gzw, err) := gzip.NewWriterLevel gzip.BestCompression in
    if isNil err then
      let gzw := gzipFlushed gzw svgBytes in
      err <- WriteFile dst (gzip.w_buf gzw) ;;
      (* the deferred [gzw.Close()] runs here, on the buffer in memory *)
      ret (dst, err)
    else ret (EmptyString, err)
  else ret (dst, err).

Fixpoint gzipEachPage (c : Converter) (pages : list Page) : M W (list Page) :=
  match pages with
  | [] => ret []
  | page :: rest =>
      '(dst, errCompress) <- CompressSVGByGZIP c (PagePath page) ;;
      page' <- (if isNil errCompress
                then _ <- Remove (PagePath page) ;;
                     ret (mkPage (PageNum page) dst)
                else ret page) ;;
      rest' <- gzipEachPage c rest ;;
      ret (page' :: rest')
  end.

Definition ConvertPDFToSVG (fuel : nat) (c : Converter) (src : string)
    (fromPage toPage : Z) (enableSVGO enableGZIP : bool)
  : M W (option (list Page * error)) :=
  r <- convertPDFToPage fuel c src fromPage toPage ".svg" ;;
  match r with
  | None => ret None
  | Some (pages, err) =>
      if negb (isNil err) then ret (Some (pages, err))
      else
        match pages with
        | [] => ret (Some (pages, err))
        | page0 :: _ =>
            _ <- (if enableSVGO
                  then CompressSVGBySVGO c (filepath.Dir (PagePath page0))
                  else ret None) ;;
            pages <- (if enableGZIP then gzipEachPage c pages else ret pages) ;;
            ret (Some (pages, err))
        end
  end.

Definition ConvertPDFToPages (fuel : nat) (c : Converter) (src : string)
    (fromPage toPage : Z) (opt : OptionConvertPages)
  : M W (option (list Page * error)) :=
  let ext := strings.TrimLeft (Extension opt) "." in
  if String.eqb ext "png" then ConvertPDFToPNG fuel c src fromPage toPage
  else if String.eqb ext "jpg" || String.eqb ext "webp" then
    r <- ConvertPDFToPNG fuel c src fromPage toPage ;;
    match r with
    | None => ret None
    | Some (pages, err) =>
        pages <- convertEachPage c ext pages ;;
        ret (Some (pages, err))
    end
  else ConvertPDFToSVG fuel c src fromPage toPage
         (EnableSVGO opt) (EnableGZIP opt).

(** *** Counting pages *)

(** [getPdfPages].  The [err] that [pdf.Open] returns is a variable of
    the [if] statement, so the function's own [err] is only set by the
    deferred [recover]. *)
Definition getPdfPages (file : string) : M W (Z * error) :=
  r <- pdfRead file ;;
  match r with
  | PdfPanic msg => ret (0, Some msg)
  | PdfOpenError _ => ret (0, None)
  | PdfNumPage n => ret (n, None)
  end.

(** The raw-byte stage of [countPDFPagesV2], on the content read. *)
Definition countByPattern (file : string) (content : string) : Z * error :=
  let arr := strings.Split content "/Pages" in
  let l := List.length arr in
  if (0 <? l)%nat then
    let arr := strings.Split (nth (l - 1) arr EmptyString) "endobj" in
    let l := List.length arr in
    if (0 <? l)%nat then
      (int_sub
         (Z.of_nat (List.length (strings.Split (nth 0 arr EmptyString) "0 R"))) 1,
       None)
    else (0, Some (file ++ ":" ++ dquote ++ "endobj" ++ dquote
                     ++ "分割时失败")%string)
  else (0, Some (file ++ ":" ++ dquote ++ "/Pages" ++ dquote
                   ++ "分割时失败")%string).

Definition countPDFPagesV2 (file : string) : M W (Z * error) :=
  '(pages, err) <- getPdfPages file ;;
  if isNil err then ret (pages, err)
  else
    '(p, err) <- ReadFile file ;;
    if negb (isNil err) then ret (pages, err)
    else ret (countByPattern file p).

(** The number a line of [mutool show file pages] carries. *)
Definition parsePageLine (line : string) : Z :=
  fst (strconv.Atoi
         (TrimSpace
            (strings.TrimLeft (hd EmptyString (strings.Split line "=")) "page"))).

(** The loop over the lines from the last to the first; [pages] is the
    named result. *)
Fixpoint scanLines (linesFromEnd : list string) (pages : Z) : Z :=
  match linesFromEnd with
  | [] => pages
  | l :: rest =>
      let line := TrimSpace (ToLower l) in
      if strings.HasPrefix line "page" then
        let pages := parsePageLine line in
        if 0 <? pages then pages else scanLines rest pages
      else scanLines rest pages
  end.

Definition CountPDFPages (c : Converter) (file : string) : M W (Z * error) :=
  '(out, err) <- ExecCommand mutool ["show"; file; "pages"] [timeout c] ;;
  if isNil err then
    ret (scanLines (rev (strings.Split out newline)) 0, err)
  else countPDFPagesV2 file.                (* the deferred function *)

(** *** PDF to text, and to JPG by mutool alone *)

(** [dst] is a named result: it is set before the command runs and is
    returned with the error as well. *)
Definition ConvertPDFToTxt (c : Converter) (src : string)
  : M W (string * error) :=
  let dst := (workspace c ++ "/dst.txt")%string in
  '(_, err) <- ExecCommand mutool ["convert"; "-o"; dst; src] [timeout c] ;;
  if negb (isNil err) then ret (dst, err)
  else ret (dst, None).

Definition ConvertPDFToJPG (fuel : nat) (c : Converter) (src : string)
    (fromPage toPage : Z) : M W (option (list Page * error)) :=
  convertPDFToPage fuel c src fromPage toPage ".jpg".

End Converter.

(** ** A small host to run the converter on

    A world with a table of files, tools that fail or work by a fixed
    rule, a reader library with a fixed behaviour, a queue of UUIDs and a
    fixed date.  Working tools print [sim_stdout] and leave the files
    alone. *)

Record Sim : Type := mkSim {
  sim_files : list (string * bytes);
  sim_fails : string -> list string -> bool;
  sim_stdout : string;
  sim_pdf : PdfRead;
  sim_uuids : list string;
  sim_today : time.Time;
  sim_inOrder : bool
}.

Definition simLookup (path : string) (w : Sim) : option bytes :=
  option_map snd
    (find (fun f => String.eqb (fst f) path) (sim_files w)).

Definition simSetFiles (files : list (string * bytes)) (w : Sim) : Sim :=
  mkSim files (sim_fails w) (sim_stdout w) (sim_pdf w) (sim_uuids w)
        (sim_today w) (sim_inOrder w).

Definition simHost : Host Sim :=
  mkHost Sim
    (fun name args _ w =>
       if sim_fails w name args then ((EmptyString, Some "exit status 1"), w)
       else ((sim_stdout w, None), w))
    (fun path w =>
       match simLookup path w with
       | Some _ => None
       | None => Some ("stat " ++ path ++ ": no such file or directory")%string
       end)
    (fun path w =>
       match simLookup path w with
       | Some content => (content, None)
       | None => (EmptyString,
                  Some ("open " ++ path ++ ": no such file or directory")%string)
       end)
    (fun path data w =>
       (None, simSetFiles ((path, fst (gzip.ReadAll data)) :: sim_files w) w))
    (fun path w =>
       (None,
        simSetFiles
          (filter (fun f => negb (String.eqb (fst f) path)) (sim_files w)) w))
    (fun path w =>
       (None,
        simSetFiles
          (filter (fun f => negb (String.prefix path (fst f))) (sim_files w)) w))
    (fun _ w => (None, w))
    (fun src dst w =>
       match simLookup src w with
       | Some content => (None, simSetFiles ((dst, content) :: sim_files w) w)
       | None => (Some ("open " ++ src ++ ": no such file or directory")%string, w)
       end)
    (fun _ w => sim_pdf w)
    (fun w =>
       match sim_uuids w with
       | u :: rest =>
           ((u, None),
            mkSim (sim_files w) (sim_fails w) (sim_stdout w) (sim_pdf w) rest
                  (sim_today w) (sim_inOrder w))
       | [] => ((EmptyString, Some "uuid: no hardware address"), w)
       end)
    (fun w => sim_today w)
    (fun w => (sim_inOrder w, w)).

(** [fmt.Sprintf] on the formats the examples use: text around one verb
    [%d]. *)
Definition simSprintf (format : string) (n : Z) : string :=
  bytes_.replaceLoop 1 format "%d" (strconv.Itoa n).

(** The slow paths are not reached on the ASCII inputs of the examples. *)
Definition simSlow (s : string) : string := s.

Definition simWorld (files : list (string * bytes))
    (fails : string -> list string -> bool) (stdout : string) (pdf : PdfRead)
  : Sim :=
  mkSim files fails stdout pdf [] (time.mkTime 2024 2 29) true.

Definition simConverter : Converter := mkConverter "cache/convert" time.Hour "ws".

Definition allWork (name : string) (args : list string) : bool := false.
Definition allFail (name : string) (args : list string) : bool := true.

(** A three-page PDF on which mutool runs but prints no page line. *)
Definition worldNoPageLine : Sim :=
  simWorld [("in.pdf", "%PDF-1.4")] allWork "warning: cannot load page tree"
           (PdfNumPage 3).

(** A converter before its first allocation, and a world whose generator
    hands out two UUIDs. *)
Definition freshConverter : Converter :=
  mkConverter "cache/convert" time.Hour EmptyString.

Definition uuidA : string := "6ba7b810-9dad-11d1-80b4-00c04fd430c8".
Definition uuidB : string := "6ba7b811-9dad-11d1-80b4-00c04fd430c8".

Definition worldTwoUUIDs : Sim :=
  mkSim [] allWork EmptyString (PdfNumPage 1) [uuidA; uuidB]
        (time.mkTime 2024 2 29) true.

(** mutool has run and left both pages in the workspace. *)
Definition worldBothPages : Sim :=
  simWorld [("ws/1.png", "PNG1"); ("ws/2.png", "PNG2")] allWork EmptyString
           (PdfNumPage 2).

(** mutool has run but left only the first page; Inkscape is not
    installed. *)
Definition worldPageTwoMissing : Sim :=
  simWorld [("ws/1.png", "PNG1")]
           (fun name _ => String.eqb name inkscape) EmptyString (PdfNumPage 2).

(** mutool fails, and the Inkscape installed does not know [--pdf-page]. *)
Definition worldOldInkscape : Sim :=
  simWorld [("ws/1.png", "PNG1"); ("ws/2.png", "PNG2")]
           (fun name args =>
              String.eqb name mutool
              || (String.eqb name inkscape
                  && existsb (String.eqb "--pdf-page") args))
           EmptyString (PdfNumPage 2).


(** A damaged scan: mutool fails, the reader library panics, and the
    bytes hold neither "/Pages" nor "endobj". *)
Definition worldDamagedPdf : Sim :=
  simWorld [("scan.pdf", "trailer << /Root 1 0 R /Info 2 0 R >>")] allFail
           EmptyString (PdfPanic "malformed PDF: reading at offset 0").

(** An SVG page with both kinds of text to escape. *)
Definition svgSample : string :=
  ("<tspan data-text=" ++ dquote ++ "<" ++ dquote ++ "/><tspan data-text="
     ++ dquote ++ ">" ++ dquote ++ "/>")%string.

Definition worldSvg : Sim :=
  mkSim [("ws/1.svg", svgSample)] allWork EmptyString (PdfNumPage 1) []
        (time.mkTime 2024 2 29) false.

(** A file that is not a PDF: mutool fails on it and [pdf.Open] returns an
    error. *)
Definition worldNotAPdf : Sim :=
  simWorld [("notes.pdf", "/Type /Pages /Kids [1 0 R 2 0 R] endobj")] allFail ""
           (PdfOpenError "not a PDF file: invalid header").

(** mutool lists the two pages of the document. *)
Definition worldListing : Sim :=
  simWorld [("in.pdf", "%PDF-1.4")] allWork
           ("page 1 = 4 0 R" ++ newline ++ "page 2 = 7 0 R" ++ newline)
           (PdfNumPage 2).

(** mutool answers, but its only page line carries a negative number. *)
Definition worldNegativeLine : Sim :=
  simWorld [("in.pdf", "%PDF-1.4")] allWork
           ("page -5 = 4 0 R" ++ newline ++ "warning: broken page tree")
           (PdfNumPage 3).

(** Every file there is asked for exists, and every tool works. *)
Definition everythingThere : Host unit :=
  mkHost unit
    (fun _ _ _ w => ((EmptyString, None), w))
    (fun _ _ => None)
    (fun _ _ => (EmptyString, None))
    (fun _ _ w => (None, w))
    (fun _ w => (None, w))
    (fun _ w => (None, w))
    (fun _ w => (None, w))
    (fun _ _ w => (None, w))
    (fun _ _ => PdfNumPage 1)
    (fun w => ((uuidA, None), w))
    (fun _ => time.mkTime 2024 2 29)
    (fun w => (true, w)).

(** ** Vocabulary of the statements *)

(** [countPDFPagesV2] starts with the reader library, so it has been
    called on [file] when the trace shows that call. *)
Definition fallbackInvoked (file : string) (t : list Event) : bool :=
  existsb (fun e => match e with
                    | EvPdfRead f _ => String.eqb f file
                    | _ => false
                    end) t.

Fixpoint allBytes (P : ascii -> bool) (s : string) : bool :=
  match s with
  | EmptyString => true
  | String c s' => P c && allBytes P s'
  end.

Definition notSep (c : ascii) : bool := negb (filepath.isSep c).

(** A byte that is neither the separator nor the dot. *)
Definition nameByte (c : ascii) : bool :=
  negb (filepath.isSep c) && negb (Ascii.eqb c ".").

(** A path element [filepath.Clean] keeps as it is: not empty, not "."
    and not "..", without a separator. *)
Definition plainElem (e : string) : bool :=
  negb (String.eqb e "") && negb (String.eqb e ".")
  && negb (String.eqb e "..") && allBytes notSep e.

Definition hexOrDash (c : ascii) : bool :=
  strconv.isDigit c
  || ((97 <=? code c) && (code c <=? 102))%nat
  || Ascii.eqb c "-".

(** The text form of a UUID: 36 bytes, hexadecimal digits and dashes. *)
Definition isCanonicalUUID (u : string) : bool :=
  (slen u =? 36)%nat && allBytes hexOrDash u.

(** The directory a cleaned cache root puts in front of what is joined
    to it: the cleaned root and a separator, nothing for an empty root or
    the current directory, the separator alone for the root directory. *)
Definition dirPrefix (cacheRoot : string) : string :=
  if String.eqb cacheRoot "" then EmptyString
  else
    let cleaned := filepath.Clean cacheRoot in
    if String.eqb cleaned "." then EmptyString
    else if String.eqb cleaned "/" then "/"
    else (cleaned ++ "/")%string.

(** [YYYY/MM/DD/uuid] for a date and a UUID. *)
Definition datedName (t : time.Time) (uid : string) : string :=
  (time.appendInt (time.Year t) 4 ++ "/" ++ time.appendInt (time.Month t) 2
     ++ "/" ++ time.appendInt (time.Day t) 2 ++ "/" ++ uid)%string.

(** What [filepath.Clean] holds on its stack: names, or double dots. *)
Definition kept (e : string) : Prop :=
  e <> EmptyString /\ e <> "." /\ allBytes notSep e = true.

(** [n] consecutive numbers from [i] on. *)
Fixpoint zrange (i : Z) (n : nat) : list Z :=
  match n with
  | O => []
  | S n' => i :: zrange (i + 1) n'
  end.

Section PageVocabulary.

Variable Sprintf : string -> Z -> string.
Variable c : Converter.
Variable src : string.
Variables fromPage toPage : Z.
Variable cacheFileFormat : string.

(** The page with index [i] in the range: number [fromPage + i], file
    number [i + 1]. *)
Definition pageAt (i : Z) : Page :=
  mkPage (fromPage + i) (Sprintf cacheFileFormat (i + 1)).

Definition pagesOf (i : Z) (n : nat) : list Page := map pageAt (zrange i n).

Definition statsOk (i : Z) (n : nat) : list Event :=
  map (fun j => EvStat (Sprintf cacheFileFormat (j + 1)) None) (zrange i n).

(** The invocations of Inkscape for the page with index [i], in the words
    of the spec: the form with [--pdf-page] first, the form with [--pages]
    only after the first has failed.  Both command lines are written out:
    the output file with the file number [i + 1], the flag, the page
    number [fromPage + i], the option for the poppler import, the source.
    The error is the one the page ends with. *)
Inductive PageAttempt (i : Z) : list Event -> error -> Prop :=
| attempt_first : forall out,
    PageAttempt i
      [EvExec "inkscape"
         ["-o"; Sprintf cacheFileFormat (int_add i 1);
          "--pdf-page"; strconv.Itoa (int_add fromPage i);
          "--pdf-poppler"; src]
         [timeout c] out None]
      None
| attempt_second : forall out1 msg out2 err2,
    PageAttempt i
      [EvExec "inkscape"
         ["-o"; Sprintf cacheFileFormat (int_add i 1);
          "--pdf-page"; strconv.Itoa (int_add fromPage i);
          "--pdf-poppler"; src]
         [timeout c] out1 (Some msg);
       EvExec "inkscape"
         ["-o"; Sprintf cacheFileFormat (int_add i 1);
          "--pages"; strconv.Itoa (int_add fromPage i);
          "--pdf-poppler"; src]
         [timeout c] out2 err2]
      err2.

(** The fallback from the page with index [i] on, with [pages] collected
    so far: page by page, one attempt each, then the check that the file is
    there; the pages after a page that fails are abandoned, and the pages
    collected are returned with the error. *)
Inductive FallbackRun : Z -> list Page -> list Event -> list Page * error -> Prop :=
| run_end : forall i pages,
    int_sub toPage fromPage < i ->
    FallbackRun i pages [] (pages, None)
| run_page : forall i pages ta t r,
    i <= int_sub toPage fromPage ->
    PageAttempt i ta None ->
    FallbackRun (int_add i 1)
      (pages ++ [mkPage (int_add fromPage i)
                   (Sprintf cacheFileFormat (int_add i 1))])
      t r ->
    FallbackRun i pages
      (ta ++ EvStat (Sprintf cacheFileFormat (int_add i 1)) None :: t) r
| run_missing : forall i pages ta msg,
    i <= int_sub toPage fromPage ->
    PageAttempt i ta None ->
    FallbackRun i pages
      (ta ++ [EvStat (Sprintf cacheFileFormat (int_add i 1)) (Some msg)])
      (pages, Some msg)
| run_abandon : forall i pages ta msg,
    i <= int_sub toPage fromPage ->
    PageAttempt i ta (Some msg) ->
    FallbackRun i pages ta (pages, Some msg).

End PageVocabulary.


(** One pass over [s] that replaces every occurrence of [pa] by [na] and
    every occurrence of [pb] by [nb]; [skip] bytes of an occurrence just
    replaced are still to be passed over. *)
Fixpoint substituteBoth (pa na pb nb : string) (skip : nat) (s : string)
  : string :=
  match s with
  | EmptyString => EmptyString
  | String ch s' =>
      match skip with
      | S k => substituteBoth pa na pb nb k s'
      | O =>
          if String.prefix pa s
          then (na ++ substituteBoth pa na pb nb (slen pa - 1) s')%string
          else if String.prefix pb s
          then (nb ++ substituteBoth pa na pb nb (slen pb - 1) s')%string
          else String ch (substituteBoth pa na pb nb 0 s')
      end
  end.

(** The input with the two substitutions of the spec applied. *)
Definition escapeDataText (s : string) : string :=
  substituteBoth patLt repLt patGt repGt 0 s.

(** Two strings differ at a position both have. *)
Fixpoint clash (a b : string) : bool :=
  match a, b with
  | String x a', String y b' => if Ascii.eqb x y then clash a' b' else true
  | _, _ => false
  end.

(** [old] starts at no position of [pre], whatever follows [pre]. *)
Fixpoint inert (old pre : string) : bool :=
  match pre with
  | EmptyString => true
  | String _ pre' => clash old pre && inert old pre'
  end.

(** A line of the output of mutool counts when, lower-cased and trimmed,
    it starts with "page" and carries a positive number. *)
Definition positivePageLine
    (mapUnicodeToLower trimFuncIsSpace trimRightFuncIsSpace : string -> string)
    (l : string) : Prop :=
  let line := strings.TrimSpace trimFuncIsSpace trimRightFuncIsSpace
                (strings.ToLower mapUnicodeToLower l) in
  strings.HasPrefix line "page" = true
  /\ 0 < parsePageLine trimFuncIsSpace trimRightFuncIsSpace line.

(** The extensions the spec sends to the ebook converter. *)
Definition ebookExtensions : list string :=
  [".epub"; ".mobi"; ".azw"; ".azw3"; ".azw4"; ".chm"].

(** The number of positions of [s] at which [tok] starts. *)
Fixpoint occurrences (tok s : string) : nat :=
  match s with
  | EmptyString => if String.prefix tok s then 1%nat else 0%nat
  | String _ s' =>
      ((if String.prefix tok s then 1 else 0) + occurrences tok s')%nat
  end.

(** The name [CompressSVGByGZIP] gives the compressed copy of [p]. *)
Definition gzipName (p : string) : string :=
  (strings.TrimSuffix p (filepath.Ext p) ++ ".gzip.svg")%string.



(** [n] dots, as in front of an extension. *)
Fixpoint dots (n : nat) : string :=
  match n with
  | O => EmptyString
  | S n' => String "." (dots n')
  end.

(** A byte other than [ch]. *)
Definition notByte (ch c : ascii) : bool := negb (Ascii.eqb c ch).

(** The line for page [n] in the listing of [mutool show file pages]:
    the page number, then what mutool says about the page. *)
Definition pageLine (n : Z) (rest : string) : string :=
  ("page " ++ strconv.Itoa n ++ " = " ++ rest)%string.

(** A command of the tools that render pages, run with the timeout [tmo],
    or a look at a file. *)
Definition pageToolEvent (tmo : Z) (e : Event) : bool :=
  match e with
  | EvExec name _ [t] _ _ =>
      (String.eqb name mutool || String.eqb name inkscape) && (t =? tmo)
  | EvStat _ _ => true
  | _ => false
  end.

(** * Properties *)

(** ** Splitting and counting *)

Lemma splitLoop_length_pos : forall n s sep,
  (1 <= List.length (strings.splitLoop n s sep))%nat.
Proof.
  intros [|n] s sep; simpl; [lia|].
  destruct (strings.Index s sep); simpl; lia.
Qed.

Lemma Split_length_pos : forall s sep,
  (1 <= List.length (strings.Split s sep))%nat.
Proof. intros; apply splitLoop_length_pos. Qed.

(** Running a computation: unfold the monad and the logged host calls,
    and reduce what has become a constructor. *)
Ltac run :=
  cbv beta iota zeta
      delta [fst snd isNil bind ret result world trace
             ExecCommand Stat ReadFile WriteFile Remove RemoveAll MkdirAll
             CopyFile pdfRead NewV1 Now rangeOrder].

Ltac run_in H :=
  cbv beta iota zeta
      delta [fst snd isNil bind ret result world trace
             ExecCommand Stat ReadFile WriteFile Remove RemoveAll MkdirAll
             CopyFile pdfRead NewV1 Now rangeOrder] in H.

(** ** Integers *)

Lemma wrap64_small : forall z, MinInt64 <= z <= MaxInt64 -> wrap64 z = z.
Proof.
  intros z H. unfold wrap64, MinInt64, MaxInt64 in *.
  rewrite Z.mod_small; lia.
Qed.

(** ** Strings *)

Lemma sapp_nil_r : forall s : string, (s ++ "")%string = s.
Proof. induction s as [|c s IH]; simpl; [reflexivity | now rewrite IH]. Qed.

Lemma sapp_assoc : forall a b c : string,
  ((a ++ b) ++ c)%string = (a ++ (b ++ c))%string.
Proof. induction a as [|x a IH]; intros; simpl; [reflexivity | now rewrite IH]. Qed.

Lemma slen_app : forall a b : string,
  slen (a ++ b) = (slen a + slen b)%nat.
Proof.
  unfold slen. induction a as [|x a IH]; intros; simpl;
    [reflexivity | now rewrite IH].
Qed.

Lemma prefix_app : forall p t : string, String.prefix p (p ++ t) = true.
Proof.
  induction p as [|x p IH]; intros t; simpl.
  - destruct t; reflexivity.
  - destruct (ascii_dec x x) as [_|N]; [apply IH | now elim N].
Qed.

Lemma prefix_split : forall p s : string,
  String.prefix p s = true -> s = (p ++ drop (slen p) s)%string.
Proof.
  induction p as [|x p IH]; intros s H.
  - reflexivity.
  - destruct s as [|y s]; simpl in H; [discriminate|].
    destruct (ascii_dec x y) as [->|_]; [|discriminate].
    simpl. f_equal. apply IH. exact H.
Qed.

Lemma drop_app : forall p t : string, drop (slen p) (p ++ t) = t.
Proof. induction p as [|x p IH]; intros; simpl; [reflexivity | apply IH]. Qed.

Lemma allBytes_app : forall P a b,
  allBytes P (a ++ b) = allBytes P a && allBytes P b.
Proof.
  induction a as [|x a IH]; intros; simpl; [reflexivity|].
  rewrite IH. now rewrite andb_assoc.
Qed.

Lemma allBytes_impl : forall (P Q : ascii -> bool) s,
  (forall c, P c = true -> Q c = true) ->
  allBytes P s = true -> allBytes Q s = true.
Proof.
  intros P Q s HPQ. induction s as [|c s IH]; simpl; [reflexivity|].
  intros H. apply andb_true_iff in H. destruct H as [H1 H2].
  rewrite (HPQ c H1). simpl. apply IH, H2.
Qed.

(** Two strings that end in different strings of the same length are
    different. *)
Lemma app_suffix_neq : forall a b x y : string,
  slen x = slen y -> x <> y -> (a ++ x)%string <> (b ++ y)%string.
Proof.
  intros a b x y Hlen Hxy Heq. apply Hxy.
  assert (Hab : slen a = slen b).
  { apply (f_equal slen) in Heq. rewrite !slen_app in Heq. lia. }
  clear Hlen Hxy. revert b Heq Hab.
  induction a as [|c a IH]; intros [|d b] Heq Hab; simpl in *;
    try discriminate.
  - exact Heq.
  - inversion Heq. inversion Hab. eapply IH; eassumption.
Qed.

Lemma prefix_nil : forall s, String.prefix EmptyString s = true.
Proof. destruct s; reflexivity. Qed.

Lemma prefix_cons : forall a p c s,
  String.prefix (String a p) (String c s) = true <->
  a = c /\ String.prefix p s = true.
Proof.
  intros a p c s. simpl. destruct (ascii_dec a c) as [->|N].
  - tauto.
  - split; [discriminate | intros [E _]; contradiction].
Qed.

Lemma slen_drop : forall k s, slen (drop k s) = (slen s - k)%nat.
Proof.
  unfold slen. induction k as [|k IH]; intros [|c s]; simpl; try reflexivity.
  apply IH.
Qed.

Lemma srev_onto_spec : forall s acc,
  srev_onto s acc = (srev s ++ acc)%string.
Proof.
  unfold srev. induction s as [|c s IH]; intros acc; simpl; [reflexivity|].
  rewrite IH, (IH (String c EmptyString)), sapp_assoc. reflexivity.
Qed.

Lemma srev_app : forall a b, srev (a ++ b) = (srev b ++ srev a)%string.
Proof.
  intros a b. unfold srev at 1. revert b.
  assert (H : forall a acc b,
             srev_onto (a ++ b) acc = srev_onto b (srev_onto a acc)).
  { induction a0 as [|c a0 IH]; intros acc b; simpl; [reflexivity | apply IH]. }
  intros b. rewrite H, srev_onto_spec. reflexivity.
Qed.

Lemma HasSuffix_app : forall s suf, strings.HasSuffix (s ++ suf) suf = true.
Proof.
  intros. unfold strings.HasSuffix. rewrite srev_app. apply prefix_app.
Qed.

Lemma clash_prefix : forall old suf x,
  clash old suf = true -> String.prefix old (suf ++ x) = false.
Proof.
  induction old as [|a old IH]; intros [|b suf] x H; simpl in H;
    try discriminate.
  simpl. destruct (Ascii.eqb_spec a b) as [->|N].
  - destruct (ascii_dec b b) as [_|N]; [apply IH, H | contradiction].
  - destruct (ascii_dec a b) as [E|_]; [contradiction | reflexivity].
Qed.

Lemma clash_exclusive : forall pa pb s,
  clash pa pb = true -> String.prefix pa s = true -> String.prefix pb s = false.
Proof.
  induction pa as [|a pa IH]; intros [|b pb] s H Hpa; simpl in H;
    try discriminate.
  destruct s as [|c s]; [reflexivity|].
  apply prefix_cons in Hpa. destruct Hpa as [-> Hpa].
  simpl. destruct (ascii_dec b c) as [->|_]; [|reflexivity].
  rewrite Ascii.eqb_refl in H. eapply IH; eassumption.
Qed.

(** ** Replacing and counting *)

Section ReplaceProps.

Variables old new : string.
Hypothesis old_nonempty : old <> EmptyString.

Local Abbreviation R s := (bytes_.ReplaceAll s old new).

Lemma old_length : (1 <= slen old)%nat.
Proof. destruct old; [congruence | unfold slen; simpl; lia]. Qed.

Lemma Index_prefix : forall s,
  String.prefix old s = true -> strings.Index s old = Some O.
Proof. intros [|c s] H; simpl; simpl in H; rewrite H; reflexivity. Qed.

Lemma Index_cons : forall c s,
  String.prefix old (String c s) = false ->
  strings.Index (String c s) old = option_map S (strings.Index s old).
Proof.
  intros c s H. cbn [strings.Index]. rewrite H. reflexivity.
Qed.

Lemma Index_nil : strings.Index EmptyString old = None.
Proof.
  cbn [strings.Index]. destruct old; [congruence | reflexivity].
Qed.

Lemma Index_bound : forall s i,
  strings.Index s old = Some i -> (i + slen old <= slen s)%nat.
Proof.
  induction s as [|c s IH]; intros i H.
  - rewrite Index_nil in H. discriminate.
  - destruct (String.prefix old (String c s)) eqn:Hp.
    + rewrite (Index_prefix _ Hp) in H. inversion H; subst.
      rewrite (prefix_split _ _ Hp), slen_app. lia.
    + rewrite (Index_cons _ _ Hp) in H.
      destruct (strings.Index s old) as [j|]; [|discriminate].
      inversion H; subst. specialize (IH j eq_refl).
      unfold slen in *. simpl. lia.
Qed.

Lemma countLoop_fuel : forall n m s,
  (slen s <= n)%nat -> (slen s <= m)%nat ->
  strings.countLoop n s old = strings.countLoop m s old.
Proof.
  induction n as [|n IH]; intros m s Hn Hm.
  - destruct s; [|unfold slen in Hn; simpl in Hn; lia].
    destruct m; cbn [strings.countLoop]; [reflexivity|]. now rewrite Index_nil.
  - destruct m as [|m].
    + destruct s; [|unfold slen in Hm; simpl in Hm; lia].
      cbn [strings.countLoop]. now rewrite Index_nil.
    + cbn [strings.countLoop].
      destruct (strings.Index s old) as [i|] eqn:E; [|reflexivity].
      pose proof (Index_bound s i E). pose proof old_length.
      f_equal. apply IH; rewrite slen_drop; lia.
Qed.

Lemma replaceLoop_fuel : forall n m s,
  (slen s <= n)%nat -> (slen s <= m)%nat ->
  bytes_.replaceLoop n s old new = bytes_.replaceLoop m s old new.
Proof.
  induction n as [|n IH]; intros m s Hn Hm.
  - destruct s; [|unfold slen in Hn; simpl in Hn; lia].
    destruct m; cbn [bytes_.replaceLoop]; [reflexivity|]. now rewrite Index_nil.
  - destruct m as [|m].
    + destruct s; [|unfold slen in Hm; simpl in Hm; lia].
      cbn [bytes_.replaceLoop]. now rewrite Index_nil.
    + cbn [bytes_.replaceLoop].
      destruct (strings.Index s old) as [i|] eqn:E; [|reflexivity].
      pose proof (Index_bound s i E). pose proof old_length.
      do 2 f_equal. apply IH; rewrite slen_drop; lia.
Qed.

Lemma replaceLoop_count : forall n s,
  (slen s <= n)%nat ->
  bytes_.replaceLoop (strings.countLoop n s old) s old new
  = bytes_.replaceLoop n s old new.
Proof.
  induction n as [|n IH]; intros s Hn; [reflexivity|].
  cbn [strings.countLoop bytes_.replaceLoop].
  destruct (strings.Index s old) as [i|] eqn:E.
  - cbn [bytes_.replaceLoop]. rewrite E.
    pose proof (Index_bound s i E). pose proof old_length.
    do 2 f_equal. apply IH. rewrite slen_drop. lia.
  - reflexivity.
Qed.

Lemma ReplaceAll_by_length : forall s,
  bytes_.ReplaceAll s old new = bytes_.replaceLoop (slen s) s old new.
Proof.
  intros s. unfold bytes_.ReplaceAll, strings.Count.
  apply replaceLoop_count. lia.
Qed.

Lemma ReplaceAll_nil : R EmptyString = EmptyString.
Proof. reflexivity. Qed.

Lemma ReplaceAll_match : forall s,
  String.prefix old s = true ->
  R s = (new ++ R (drop (slen old) s))%string.
Proof.
  intros s H. rewrite !ReplaceAll_by_length.
  pose proof old_length as Hl.
  assert (Hs : (slen old <= slen s)%nat).
  { rewrite (prefix_split _ _ H), slen_app. lia. }
  destruct (slen s) as [|n] eqn:En; [lia|].
  cbn [bytes_.replaceLoop]. rewrite (Index_prefix _ H).
  cbn [take Nat.add]. destruct s; cbn [take append]; f_equal;
    apply replaceLoop_fuel; rewrite ?slen_drop; lia.
Qed.

Lemma ReplaceAll_step : forall c s,
  String.prefix old (String c s) = false ->
  R (String c s) = String c (R s).
Proof.
  intros c s H. rewrite !ReplaceAll_by_length.
  change (slen (String c s)) with (S (slen s)).
  rewrite (replaceLoop_fuel (slen s) (S (slen s)) s) by lia.
  cbn [bytes_.replaceLoop]. rewrite (Index_cons _ _ H).
  destruct (strings.Index s old) as [j|] eqn:E;
    cbn [option_map take drop Nat.add append]; reflexivity.
Qed.

(** [ReplaceAll] passes over text in which [old] cannot start. *)
Lemma ReplaceAll_inert : forall pre x,
  inert old pre = true -> R (pre ++ x)%string = (pre ++ R x)%string.
Proof.
  induction pre as [|c pre IH]; intros x H; [reflexivity|].
  simpl in H. apply andb_true_iff in H. destruct H as [Hc Hi].
  change (String c pre ++ x)%string with (String c (pre ++ x)).
  rewrite ReplaceAll_step.
  - simpl. f_equal. apply IH, Hi.
  - apply (clash_prefix old (String c pre) x Hc).
Qed.

(** A string in which the first byte of [new] does not occur starts the
    result only if it starts the input. *)
Lemma ReplaceAll_survives : forall h tl suf,
  new = String h tl ->
  allBytes (fun c => negb (Ascii.eqb c h)) suf = true ->
  forall v, String.prefix suf (R v) = true -> String.prefix suf v = true.
Proof.
  intros h tl suf Hnew. induction suf as [|a suf IH]; intros Hall v H.
  - apply prefix_nil.
  - simpl in Hall. apply andb_true_iff in Hall. destruct Hall as [Ha Hall].
    apply negb_true_iff, Ascii.eqb_neq in Ha.
    destruct (String.prefix old v) eqn:Hp.
    + rewrite (ReplaceAll_match v Hp), Hnew in H.
      apply prefix_cons in H. destruct H as [E _]. contradiction.
    + destruct v as [|c v].
      * rewrite ReplaceAll_nil in H. discriminate H.
      * rewrite (ReplaceAll_step c v Hp) in H.
        apply prefix_cons in H. destruct H as [-> H].
        apply prefix_cons. split; [reflexivity | apply IH; assumption].
Qed.

Lemma Count_match : forall s,
  String.prefix old s = true ->
  strings.Count s old = S (strings.Count (drop (slen old) s) old).
Proof.
  intros s H. unfold strings.Count.
  pose proof old_length as Hl.
  assert (Hs : (slen old <= slen s)%nat).
  { rewrite (prefix_split _ _ H), slen_app. lia. }
  destruct (slen s) as [|n] eqn:En; [lia|].
  cbn [strings.countLoop]. rewrite (Index_prefix _ H). cbn [Nat.add].
  f_equal. apply countLoop_fuel; rewrite ?slen_drop; lia.
Qed.

Lemma Count_step : forall c s,
  String.prefix old (String c s) = false ->
  strings.Count (String c s) old = strings.Count s old.
Proof.
  intros c s H. unfold strings.Count.
  change (slen (String c s)) with (S (slen s)).
  rewrite (countLoop_fuel (slen s) (S (slen s)) s) by lia.
  cbn [strings.countLoop]. rewrite (Index_cons _ _ H).
  destruct (strings.Index s old) as [j|] eqn:E;
    cbn [option_map drop Nat.add]; reflexivity.
Qed.

Lemma Split_length : forall s,
  List.length (strings.Split s old) = S (strings.Count s old).
Proof.
  intros s. unfold strings.Split, strings.Count.
  generalize (slen s) as n. intros n. revert s.
  induction n as [|n IH]; intros s; [reflexivity|].
  cbn [strings.countLoop].
  destruct (strings.Index s old) as [i|] eqn:E; [|reflexivity].
  cbn [strings.splitLoop]. rewrite E. cbn [List.length]. now rewrite IH.
Qed.

Lemma countLoop_le : forall n s, (strings.countLoop n s old <= n)%nat.
Proof.
  induction n as [|n IH]; intros s; cbn [strings.countLoop]; [lia|].
  destruct (strings.Index s old); [|lia]. specialize (IH (drop (n0 + slen old) s)).
  lia.
Qed.

Lemma slen_take : forall n s, (slen (take n s) <= slen s)%nat.
Proof.
  unfold slen. induction n as [|n IH]; intros [|c s]; simpl; try lia.
  specialize (IH s). lia.
Qed.

Lemma splitLoop_elements_short : forall n s,
  Forall (fun e => (slen e <= slen s)%nat) (strings.splitLoop n s old).
Proof.
  induction n as [|n IH]; intros s; cbn [strings.splitLoop].
  - repeat constructor.
  - destruct (strings.Index s old) as [i|]; [|repeat constructor].
    constructor; [apply slen_take|].
    eapply Forall_impl; [|apply IH]. cbn beta. intros e He.
    rewrite slen_drop in He. lia.
Qed.

End ReplaceProps.

Lemma nth_pred_length_last : forall (A : Type) (l : list A) (d : A),
  nth (List.length l - 1) l d = last l d.
Proof.
  induction l as [|a l IH]; intros d; [reflexivity|].
  destruct l as [|b l]; [reflexivity|].
  specialize (IH d). cbn [List.length Nat.sub] in IH |- *.
  rewrite Nat.sub_0_r in IH. exact IH.
Qed.

Lemma Split_elements_short : forall s sep e,
  sep <> EmptyString -> In e (strings.Split s sep) -> (slen e <= slen s)%nat.
Proof.
  intros s sep e Hsep Hin. unfold strings.Split in Hin.
  pose proof (splitLoop_elements_short sep (strings.Count s sep) s) as H.
  rewrite Forall_forall in H. apply H, Hin.
Qed.

(** The token "0 R" cannot overlap itself, so the instances
    [strings.Count] counts are all its occurrences. *)
Lemma Count_occurrences_0R : forall s,
  strings.Count s "0 R" = occurrences "0 R" s.
Proof.
  assert (Hne : "0 R" <> EmptyString) by discriminate.
  assert (H : forall n s, (slen s <= n)%nat ->
                          strings.Count s "0 R" = occurrences "0 R" s).
  { induction n as [|n IH]; intros s Hn.
    - destruct s; [reflexivity | unfold slen in Hn; simpl in Hn; lia].
    - destruct s as [|c s]; [reflexivity|].
      assert (Hlen : (slen s <= n)%nat) by (unfold slen in *; simpl in Hn; lia).
      destruct (String.prefix "0 R" (String c s)) eqn:Hp.
      + rewrite (Count_match _ Hne _ Hp).
        rewrite (prefix_split _ _ Hp) at 2.
        rewrite IH
          by (rewrite slen_drop; unfold slen in *; simpl in Hn |- *; lia).
        generalize (drop (slen "0 R") (String c s)) as t. intros t.
        change ("0 R" ++ t)%string with (String "0" (String " " (String "R" t))).
        cbn [occurrences].
        rewrite (prefix_app "0 R" t
                 : String.prefix "0 R" (String "0" (String " " (String "R" t)))
                   = true).
        reflexivity.
      + rewrite (Count_step _ Hne c s Hp).
        cbn [occurrences]. rewrite Hp. now apply IH. }
  intros s. apply (H (slen s)). lia.
Qed.

(** ** Two replacements, one after the other *)

Section TwoPatterns.

Variables pa na pb nb : string.
Variables (d h : ascii) (qb tl : string).

Hypothesis pa_nonempty : pa <> EmptyString.
Hypothesis pb_shape : pb = String d qb.
Hypothesis na_shape : na = String h tl.
Hypothesis na_inert : inert pb na = true.
Hypothesis pb_inert : inert pa pb = true.
Hypothesis exclusive : clash pa pb = true.
Hypothesis qb_free : allBytes (fun c => negb (Ascii.eqb c h)) qb = true.

Local Abbreviation Ra s := (bytes_.ReplaceAll s pa na).
Local Abbreviation Rb s := (bytes_.ReplaceAll s pb nb).
Local Abbreviation Sub := (substituteBoth pa na pb nb).

Lemma pb_nonempty : pb <> EmptyString.
Proof. rewrite pb_shape. discriminate. Qed.

Lemma substituteBoth_skip : forall s k, Sub k s = Sub 0 (drop k s).
Proof.
  induction s as [|c s IH]; intros [|k]; try reflexivity.
  cbn [substituteBoth drop]. apply IH.
Qed.

Lemma substituteBoth_first : forall s,
  String.prefix pa s = true ->
  Sub 0 s = (na ++ Sub 0 (drop (slen pa) s))%string.
Proof.
  intros [|c s] H.
  - destruct pa; [congruence | discriminate H].
  - cbn [substituteBoth]. rewrite H, substituteBoth_skip.
    pose proof (old_length pa pa_nonempty).
    destruct (slen pa) as [|m]; [lia|].
    cbn [drop Nat.sub]. now rewrite Nat.sub_0_r.
Qed.

Lemma substituteBoth_second : forall s,
  String.prefix pa s = false -> String.prefix pb s = true ->
  Sub 0 s = (nb ++ Sub 0 (drop (slen pb) s))%string.
Proof.
  intros [|c s] Ha Hb.
  - rewrite pb_shape in Hb. discriminate Hb.
  - cbn [substituteBoth]. rewrite Ha, Hb, substituteBoth_skip.
    pose proof (old_length pb pb_nonempty).
    destruct (slen pb) as [|m]; [lia|].
    cbn [drop Nat.sub]. now rewrite Nat.sub_0_r.
Qed.

Lemma substituteBoth_other : forall c s,
  String.prefix pa (String c s) = false ->
  String.prefix pb (String c s) = false ->
  Sub 0 (String c s) = String c (Sub 0 s).
Proof. intros c s Ha Hb. cbn [substituteBoth]. now rewrite Ha, Hb. Qed.

(** The first replacement creates no occurrence of the second key. *)
Lemma no_new_occurrence : forall c s,
  String.prefix pb (String c s) = false ->
  String.prefix pb (String c (Ra s)) = false.
Proof.
  intros c s H. destruct (String.prefix pb (String c (Ra s))) eqn:E;
    [|reflexivity].
  rewrite <- H. symmetry. rewrite pb_shape in E |- *.
  apply prefix_cons in E. destruct E as [-> E].
  apply prefix_cons. split; [reflexivity|].
  eapply (ReplaceAll_survives pa na pa_nonempty h tl qb); eassumption.
Qed.

Lemma replace_both_bounded : forall n s,
  (slen s <= n)%nat -> Rb (Ra s) = Sub 0 s.
Proof.
  induction n as [|n IH]; intros s Hn.
  - destruct s; [reflexivity | unfold slen in Hn; simpl in Hn; lia].
  - destruct s as [|c s]; [reflexivity|].
    assert (Hlen : (slen s <= n)%nat) by (unfold slen in *; simpl in Hn; lia).
    destruct (String.prefix pa (String c s)) eqn:Ha.
    + rewrite (ReplaceAll_match pa na pa_nonempty _ Ha).
      rewrite (ReplaceAll_inert pb nb pb_nonempty na _ na_inert).
      rewrite (substituteBoth_first _ Ha). f_equal.
      apply IH. rewrite slen_drop.
      pose proof (old_length pa pa_nonempty).
      change (slen (String c s)) with (S (slen s)). lia.
    + destruct (String.prefix pb (String c s)) eqn:Hb.
      * rewrite (substituteBoth_second _ Ha Hb).
        rewrite (prefix_split _ _ Hb) at 1.
        rewrite (ReplaceAll_inert pa na pa_nonempty pb _ pb_inert).
        rewrite (ReplaceAll_match pb nb pb_nonempty _ (prefix_app pb _)).
        rewrite drop_app. f_equal.
        apply IH. rewrite slen_drop.
        pose proof (old_length pb pb_nonempty).
        change (slen (String c s)) with (S (slen s)). lia.
      * rewrite (ReplaceAll_step pa na pa_nonempty c s Ha).
        rewrite (ReplaceAll_step pb nb pb_nonempty c _
                   (no_new_occurrence c s Hb)).
        rewrite (substituteBoth_other c s Ha Hb). f_equal.
        apply IH, Hlen.
Qed.

Lemma replace_both : forall s, Rb (Ra s) = Sub 0 s.
Proof. intros s. apply (replace_both_bounded (slen s)). lia. Qed.

Lemma substituteBoth_comm : forall s k,
  substituteBoth pa na pb nb k s = substituteBoth pb nb pa na k s.
Proof.
  induction s as [|c s IH]; intros k; [reflexivity|].
  cbn [substituteBoth]. destruct k as [|k]; [|apply IH].
  destruct (String.prefix pa (String c s)) eqn:Ha.
  - rewrite (clash_exclusive pa pb _ exclusive Ha). now rewrite IH.
  - destruct (String.prefix pb (String c s)); now rewrite IH.
Qed.

End TwoPatterns.

(** The loop over the map [replaces] gives the same bytes for both orders
    in which [range] can visit the two entries: the input with every
    occurrence of each key replaced. *)
Lemma applyReplaces_spec : forall inOrder s,
  applyReplaces inOrder s = escapeDataText s.
Proof.
  intros [|] s; unfold applyReplaces, escapeDataText, replaces;
    cbn [fold_left rev app fst snd].
  - apply (replace_both patLt repLt patGt repGt
             "d" "d"
             ("ata-text=" ++ dquote ++ ">" ++ dquote)
             ("ata-text=" ++ dquote ++ "&lt;" ++ dquote));
      (discriminate || reflexivity).
  - rewrite (replace_both patGt repGt patLt repLt
               "d" "d"
               ("ata-text=" ++ dquote ++ "<" ++ dquote)
               ("ata-text=" ++ dquote ++ "&gt;" ++ dquote));
      try (discriminate || reflexivity).
    apply substituteBoth_comm. reflexivity.
Qed.

(** No occurrence of a key starts inside an occurrence of a key, so the
    bytes [substituteBoth] passes over hold no occurrence of their own. *)
Lemma keys_do_not_overlap : forall k t,
  (1 <= k < 13)%nat ->
  String.prefix patLt (drop k (patLt ++ t)) = false
  /\ String.prefix patGt (drop k (patLt ++ t)) = false
  /\ String.prefix patLt (drop k (patGt ++ t)) = false
  /\ String.prefix patGt (drop k (patGt ++ t)) = false.
Proof.
  intros k t Hk.
  do 13 (destruct k as [|k]; [try lia; repeat split; reflexivity|]).
  lia.
Qed.

(** ** The gzip stream *)

Lemma gzip_flushed_stream : forall data,
  gzip.w_buf (gzipFlushed (fst (gzip.NewWriterLevel gzip.BestCompression)) data)
  = [gzip.Header; gzip.Deflated data; gzip.SyncMarker].
Proof. reflexivity. Qed.

(** What has been flushed can be read back; the stream has no end yet. *)
Lemma gzip_flushed_read : forall data,
  gzip.ReadAll
    (gzip.w_buf
       (gzipFlushed (fst (gzip.NewWriterLevel gzip.BestCompression)) data))
  = (data, Some "unexpected EOF").
Proof.
  intros data. rewrite gzip_flushed_stream.
  cbn [gzip.ReadAll gzip.inflate fst snd]. now rewrite sapp_nil_r.
Qed.

(** [Close] is what completes the member; in [CompressSVGByGZIP] it runs
    after the buffer has been written to the file. *)
Lemma gzip_closed_read : forall data,
  gzip.ReadAll
    (gzip.w_buf
       (gzip.Close
          (gzipFlushed (fst (gzip.NewWriterLevel gzip.BestCompression)) data)))
  = (data, None).
Proof.
  intros data.
  assert (Hbuf :
    gzip.w_buf
      (gzip.Close
         (gzipFlushed (fst (gzip.NewWriterLevel gzip.BestCompression)) data))
    = [gzip.Header; gzip.Deflated data; gzip.SyncMarker;
       gzip.Deflated EmptyString;
       gzip.Finish (Z.of_nat (slen data) mod 2 ^ 32)]) by reflexivity.
  rewrite Hbuf. cbn [gzip.ReadAll gzip.inflate].
  replace (0 + Z.of_nat (slen data) + Z.of_nat (slen ""))
    with (Z.of_nat (slen data)) by (unfold slen; simpl; lia).
  rewrite Z.eqb_refl. cbn [fst snd append]. now rewrite sapp_nil_r.
Qed.

(** ** Paths *)

Lemma elements_cons : forall s, exists e es, filepath.elements s = e :: es.
Proof.
  induction s as [|c s [e [es IH]]]; simpl.
  - eauto.
  - destruct (filepath.isSep c); [eauto|]. rewrite IH. eauto.
Qed.

Lemma elements_app_sep : forall a b,
  filepath.elements (a ++ "/" ++ b)
  = filepath.elements a ++ filepath.elements b.
Proof.
  induction a as [|c a IH]; intros b.
  - reflexivity.
  - specialize (IH b). simpl in IH |- *. rewrite IH.
    destruct (filepath.isSep c); [reflexivity|].
    destruct (elements_cons a) as [e [es ->]]. reflexivity.
Qed.

Lemma elements_plain : forall e,
  allBytes notSep e = true -> filepath.elements e = [e].
Proof.
  induction e as [|c e IH]; simpl; [reflexivity|].
  intros H. apply andb_true_iff in H. destruct H as [Hc He].
  unfold notSep in Hc. apply negb_true_iff in Hc. rewrite Hc, (IH He).
  reflexivity.
Qed.

Lemma elements_notSep : forall s,
  Forall (fun e => allBytes notSep e = true) (filepath.elements s).
Proof.
  induction s as [|c s IH]; simpl.
  - repeat constructor.
  - destruct (filepath.isSep c) eqn:Hc; [constructor; [reflexivity | exact IH]|].
    destruct (filepath.elements s) as [|e es]; [repeat constructor|].
    + simpl. unfold notSep. now rewrite Hc.
    + inversion IH; subst. constructor; [|assumption].
      simpl. unfold notSep at 1. rewrite Hc. simpl. assumption.
Qed.

Lemma concat_plain_elements : forall ns,
  ns <> [] -> Forall (fun e => plainElem e = true) ns ->
  filepath.elements (String.concat "/" ns) = ns.
Proof.
  induction ns as [|n ns IH]; intros Hne Hall; [congruence|].
  inversion Hall as [|? ? Hn Hns]; subst.
  assert (Hsep : allBytes notSep n = true).
  { unfold plainElem in Hn. apply andb_true_iff in Hn. tauto. }
  destruct ns as [|m ns].
  - simpl. apply elements_plain, Hsep.
  - change (String.concat "/" (n :: m :: ns))
      with (n ++ "/" ++ String.concat "/" (m :: ns))%string.
    rewrite elements_app_sep, (elements_plain n Hsep), IH;
      [reflexivity | discriminate | assumption].
Qed.

Lemma cleanStep_kept : forall rooted st e,
  Forall kept st -> allBytes notSep e = true ->
  Forall kept (filepath.cleanStep rooted st e).
Proof.
  intros rooted st e Hst He. unfold filepath.cleanStep.
  destruct (String.eqb_spec e "") as [|N1]; [exact Hst|].
  destruct (String.eqb_spec e ".") as [|N2]; [exact Hst|]. cbn [orb].
  assert (Hk : kept e) by (repeat split; assumption).
  destruct (String.eqb e "..").
  - destruct st as [|top st'].
    + destruct rooted; repeat constructor; apply Hk.
    + destruct (String.eqb top ".."); [constructor; assumption|].
      inversion Hst; assumption.
  - constructor; assumption.
Qed.

Lemma fold_cleanStep_kept : forall rooted es st,
  Forall kept st -> Forall (fun e => allBytes notSep e = true) es ->
  Forall kept (fold_left (filepath.cleanStep rooted) es st).
Proof.
  induction es as [|e es IH]; intros st Hst Hes; simpl; [exact Hst|].
  inversion Hes; subst. apply IH; [apply cleanStep_kept|]; assumption.
Qed.

Lemma cleanStep_plain : forall rooted st e,
  plainElem e = true -> filepath.cleanStep rooted st e = e :: st.
Proof.
  intros rooted st e H. unfold plainElem in H.
  apply andb_true_iff in H. destruct H as [H _].
  apply andb_true_iff in H. destruct H as [H H3].
  apply andb_true_iff in H. destruct H as [H1 H2].
  apply negb_true_iff in H1, H2, H3. unfold filepath.cleanStep.
  now rewrite H1, H2, H3.
Qed.

Lemma fold_cleanStep_plain : forall rooted ns st,
  Forall (fun e => plainElem e = true) ns ->
  fold_left (filepath.cleanStep rooted) ns st = rev ns ++ st.
Proof.
  induction ns as [|n ns IH]; intros st H; simpl; [reflexivity|].
  inversion H; subst. rewrite cleanStep_plain by assumption.
  rewrite IH by assumption. now rewrite <- app_assoc.
Qed.

Lemma concat_app_sep : forall a b,
  a <> [] -> b <> [] ->
  String.concat "/" (a ++ b)
  = (String.concat "/" a ++ "/" ++ String.concat "/" b)%string.
Proof.
  induction a as [|x a IH]; intros b Ha Hb; [congruence|].
  destruct a as [|y a].
  - destruct b; [congruence|]. reflexivity.
  - change (String.concat "/" ((x :: y :: a) ++ b))
      with (x ++ "/" ++ String.concat "/" ((y :: a) ++ b))%string.
    rewrite IH by (assumption || discriminate).
    change (String.concat "/" (x :: y :: a))
      with (x ++ "/" ++ String.concat "/" (y :: a))%string.
    now rewrite !sapp_assoc.
Qed.

Lemma concat_kept_length : forall l,
  l <> [] -> Forall kept l -> (1 <= slen (String.concat "/" l))%nat.
Proof.
  intros [|x l] Hne H; [congruence|]. inversion H as [|? ? [Hx _] _]; subst.
  destruct l; simpl.
  - destruct x; [congruence | unfold slen; simpl; lia].
  - rewrite slen_app. destruct x; [congruence | unfold slen; simpl; lia].
Qed.

Lemma render_kept_not_trivial : forall rooted l,
  l <> [] -> Forall kept l ->
  filepath.render rooted l <> "." /\ filepath.render rooted l <> "/".
Proof.
  intros rooted l Hne Hk. pose proof (concat_kept_length l Hne Hk) as Hlen.
  unfold filepath.render. destruct rooted.
  - destruct (String.concat "/" l) as [|c s] eqn:E;
      [unfold slen in Hlen; simpl in Hlen; lia|].
    split; discriminate.
  - destruct l as [|x l]; [congruence|].
    inversion Hk as [|? ? [Hx1 [Hx2 Hx3]] Hl]; subst.
    destruct l as [|y l].
    + simpl. split; [exact Hx2|]. intros ->. discriminate.
    + assert (H2 : (2 <= slen (String.concat "/" (x :: y :: l)))%nat).
      { change (String.concat "/" (x :: y :: l))
          with (x ++ "/" ++ String.concat "/" (y :: l))%string.
        rewrite !slen_app. destruct x; [congruence|].
        unfold slen; simpl; lia. }
      split; intros E; rewrite E in H2; unfold slen in H2; simpl in H2; lia.
Qed.

Lemma render_app_plain : forall rooted l ns,
  ns <> [] ->
  filepath.render rooted (l ++ ns)
  = ((match l with
      | [] => if rooted then "/" else ""
      | _ => filepath.render rooted l ++ "/"
      end) ++ String.concat "/" ns)%string.
Proof.
  intros rooted l ns Hns. unfold filepath.render.
  destruct l as [|x l].
  - destruct rooted; [reflexivity|]. destruct ns; [congruence | reflexivity].
  - rewrite concat_app_sep by (assumption || discriminate).
    destruct rooted; cbn [app]; now rewrite ?sapp_assoc.
Qed.

Lemma plainElem_notSep : forall e,
  plainElem e = true -> allBytes notSep e = true.
Proof. unfold plainElem. intros e H. apply andb_true_iff in H. tauto. Qed.

Lemma plainElem_nonempty : forall e, plainElem e = true -> e <> EmptyString.
Proof. intros e H ->. discriminate. Qed.

(** Cleaning a non-empty root joined to plain names keeps the names and
    cleans the root. *)
Lemma Clean_root_join : forall c ns,
  c <> EmptyString -> ns <> [] ->
  Forall (fun e => plainElem e = true) ns ->
  filepath.Clean (c ++ "/" ++ String.concat "/" ns)
  = (dirPrefix c ++ String.concat "/" ns)%string.
Proof.
  intros c ns Hc Hns Hall.
  destruct c as [|x c]; [congruence|].
  unfold dirPrefix. cbn [String.eqb].
  unfold filepath.Clean. cbn [append filepath.isRooted].
  change (String x (c ++ String "/" (String.concat "/" ns)))
    with (String x c ++ "/" ++ String.concat "/" ns)%string.
  rewrite elements_app_sep, concat_plain_elements by assumption.
  rewrite fold_left_app, fold_cleanStep_plain by assumption.
  rewrite rev_app_distr, rev_involutive.
  set (st := fold_left (filepath.cleanStep (filepath.isSep x))
               (filepath.elements (String x c)) []).
  assert (Hk : Forall kept (rev st)).
  { apply Forall_rev. apply fold_cleanStep_kept;
      [constructor | apply elements_notSep]. }
  rewrite render_app_plain by assumption.
  destruct (rev st) as [|e l] eqn:E.
  - unfold filepath.render. destruct (filepath.isSep x); reflexivity.
  - destruct (render_kept_not_trivial (filepath.isSep x) (e :: l)) as [N1 N2];
      [discriminate | exact Hk |].
    apply String.eqb_neq in N1, N2. now rewrite N1, N2.
Qed.

Lemma Clean_plain_names : forall ns,
  ns <> [] -> Forall (fun e => plainElem e = true) ns ->
  filepath.Clean (String.concat "/" ns) = String.concat "/" ns.
Proof.
  intros ns Hns Hall.
  assert (Hel := concat_plain_elements ns Hns Hall).
  destruct ns as [|n ns]; [congruence|].
  inversion Hall as [|? ? Hn Hrest]; subst.
  pose proof (plainElem_nonempty n Hn) as Hne.
  pose proof (plainElem_notSep n Hn) as Hsep.
  destruct n as [|x n]; [congruence|].
  simpl in Hsep. apply andb_true_iff in Hsep. destruct Hsep as [Hx _].
  unfold notSep in Hx. apply negb_true_iff in Hx.
  assert (Hform : exists rest, String.concat "/" (String x n :: ns)
                               = String x rest).
  { destruct ns; simpl; eauto. }
  destruct Hform as [rest Hform].
  unfold filepath.Clean. rewrite Hel. rewrite Hform.
  cbn [filepath.isRooted]. rewrite Hx.
  rewrite fold_cleanStep_plain by assumption.
  rewrite app_nil_r, rev_involutive. exact Hform.
Qed.

(** The path [makeWorkspace] puts together. *)
Lemma Join_dated : forall c y m d u,
  plainElem y = true -> plainElem m = true -> plainElem d = true ->
  plainElem u = true ->
  filepath.Join [c; (y ++ "/" ++ m ++ "/" ++ d)%string; u]
  = (dirPrefix c ++ y ++ "/" ++ m ++ "/" ++ d ++ "/" ++ u)%string.
Proof.
  intros c y m d u Hy Hm Hd Hu.
  assert (Hall : Forall (fun e => plainElem e = true) [y; m; d; u])
    by (repeat constructor; assumption).
  assert (Hcat : String.concat "/" [y; m; d; u]
                 = (y ++ "/" ++ m ++ "/" ++ d ++ "/" ++ u)%string)
    by reflexivity.
  assert (Hdate : ((y ++ "/" ++ m ++ "/" ++ d) ++ "/" ++ u)%string
                  = String.concat "/" [y; m; d; u]).
  { rewrite Hcat. rewrite !sapp_assoc. reflexivity. }
  cbn [filepath.Join].
  destruct (String.eqb_spec c "") as [->|Hc].
  - destruct (String.eqb_spec (y ++ "/" ++ m ++ "/" ++ d) "") as [E|_].
    + destruct y; [discriminate Hy | discriminate E].
    + cbn [String.concat]. rewrite Hdate.
      rewrite Clean_plain_names by (assumption || discriminate).
      reflexivity.
  - cbn [String.concat]. rewrite Hdate.
    rewrite Clean_root_join by (assumption || discriminate).
    reflexivity.
Qed.

Lemma nameBytes_plain : forall e,
  e <> EmptyString -> allBytes nameByte e = true -> plainElem e = true.
Proof.
  intros e Hne H. unfold plainElem.
  assert (Hs : allBytes notSep e = true).
  { revert H. apply allBytes_impl. intros c Hc. unfold nameByte in Hc.
    apply andb_true_iff in Hc. unfold notSep. tauto. }
  rewrite Hs, andb_true_r.
  destruct e as [|c e]; [congruence|].
  simpl in H. apply andb_true_iff in H. destruct H as [Hc He].
  unfold nameByte in Hc. apply andb_true_iff in Hc. destruct Hc as [_ Hdot].
  apply negb_true_iff in Hdot.
  assert (Hc : c <> "."%char) by (intros ->; discriminate).
  repeat (apply andb_true_iff; split); apply negb_true_iff, String.eqb_neq;
    intros E; inversion E; contradiction.
Qed.

Lemma hexOrDash_nameByte : forall c, hexOrDash c = true -> nameByte c = true.
Proof.
  intros [[] [] [] [] [] [] [] []]; vm_compute; intros H;
    (reflexivity || discriminate H).
Qed.

Lemma canonicalUUID_plain : forall u,
  isCanonicalUUID u = true -> plainElem u = true.
Proof.
  intros u H. unfold isCanonicalUUID in H. apply andb_true_iff in H.
  destruct H as [Hlen Hb]. apply Nat.eqb_eq in Hlen.
  apply nameBytes_plain.
  - intros ->. discriminate.
  - revert Hb. apply allBytes_impl, hexOrDash_nameByte.
Qed.

Lemma canonicalUUID_length : forall u,
  isCanonicalUUID u = true -> slen u = 36%nat.
Proof.
  intros u H. unfold isCanonicalUUID in H. apply andb_true_iff in H.
  now apply Nat.eqb_eq.
Qed.

Lemma string_of_uint_digits : forall d,
  allBytes nameByte (NilEmpty.string_of_uint d) = true.
Proof. induction d; simpl; auto. Qed.

Lemma zeros_digits : forall n, allBytes nameByte (time.zeros n) = true.
Proof. induction n; simpl; auto. Qed.

Lemma appendInt_plain : forall x width,
  plainElem (time.appendInt x width) = true.
Proof.
  intros x width. unfold time.appendInt.
  set (d := NilZero.string_of_uint (N.to_uint (Z.abs_N x))).
  assert (Hd : allBytes nameByte d = true /\ d <> EmptyString).
  { subst d. unfold NilZero.string_of_uint.
    generalize (N.to_uint (Z.abs_N x)) as u. intros u.
    destruct u; (split; [|simpl; discriminate]);
      first [reflexivity | simpl; apply string_of_uint_digits]. }
  destruct Hd as [Hd1 Hd2].
  apply nameBytes_plain.
  - destruct (x <? 0); [discriminate|]. simpl.
    destruct (time.zeros (width - slen d)); [exact Hd2 | discriminate].
  - rewrite !allBytes_app, zeros_digits, Hd1.
    destruct (x <? 0); reflexivity.
Qed.

(** ** Counting pages *)

Section CountingProps.


Context {W : Type} (host : Host W).
Variable mapUnicodeToLower : string -> string.
Variable trimFuncIsSpace : string -> string.
Variable trimRightFuncIsSpace : string -> string.

Local Abbreviation ToLower := (strings.ToLower mapUnicodeToLower).
Local Abbreviation TrimSpace :=
  (strings.TrimSpace trimFuncIsSpace trimRightFuncIsSpace).
Local Abbreviation scan :=
  (scanLines mapUnicodeToLower trimFuncIsSpace trimRightFuncIsSpace).
Local Abbreviation parseLine :=
  (parsePageLine trimFuncIsSpace trimRightFuncIsSpace).
Local Abbreviation CountPages :=
  (CountPDFPages host mapUnicodeToLower trimFuncIsSpace trimRightFuncIsSpace).
Local Abbreviation positiveLine :=
  (positivePageLine mapUnicodeToLower trimFuncIsSpace trimRightFuncIsSpace).

(** C7 (the code does not do what the claim says).  Whatever the bytes
    of the file are, the raw-byte stage of [countPDFPagesV2] returns a
    count and a nil error: [strings.Split] never returns an empty slice,
    so neither of the two branches that build the descriptive errors can
    be taken. *)
Theorem C7_countByPattern_never_fails : forall file content,
  exists n, countByPattern file content = (n, None).
Proof.
  intros file content. unfold countByPattern.
  pose proof (Split_length_pos content "/Pages") as H1.
  destruct (List.length (strings.Split content "/Pages")) as [|l1] eqn:E1;
    [lia|].
  cbn [Nat.ltb Nat.leb].
  set (seg := nth (S l1 - 1) (strings.Split content "/Pages") EmptyString).
  pose proof (Split_length_pos seg "endobj") as H2.
  destruct (List.length (strings.Split seg "endobj")) as [|l2] eqn:E2;
    [lia|].
  cbn [Nat.ltb Nat.leb]. eexists; reflexivity.
Qed.

(** The raw-byte stage on a file with neither "/Pages" nor "endobj". *)
Example countByPattern_without_layout :
  countByPattern "scan.pdf" "trailer << /Root 1 0 R /Info 2 0 R >>" = (2, None).
Proof. vm_compute. reflexivity. Qed.

(** C3 (the code does not do what the claim says).  When [pdf.Open]
    returns an error, [getPdfPages] returns 0 and a nil error, and
    [countPDFPagesV2] returns that: the file is not read and the raw-byte
    heuristic does not run. *)
Theorem C3_open_error_skips_heuristic : forall file w e,
  h_pdfRead host file w = PdfOpenError e ->
  countPDFPagesV2 host file w
  = ((0, None), w, [EvPdfRead file (PdfOpenError e)]).
Proof.
  intros file w e H.
  unfold countPDFPagesV2, getPdfPages, pdfRead, bind, ret.
  rewrite H. reflexivity.
Qed.

(** What the raw-byte stage returns: the number of occurrences of "0 R"
    in the first "endobj" segment of the last "/Pages" segment. *)
Lemma countByPattern_counts : forall file content,
  Z.of_nat (slen content) <= MaxInt64 ->
  countByPattern file content
  = (Z.of_nat
       (occurrences "0 R"
          (hd EmptyString
             (strings.Split
                (last (strings.Split content "/Pages") EmptyString)
                "endobj"))),
     None).
Proof.
  intros file content Hlen. unfold countByPattern.
  rewrite nth_pred_length_last.
  set (seg1 := last (strings.Split content "/Pages") EmptyString).
  pose proof (Split_length_pos content "/Pages") as H1.
  destruct (List.length (strings.Split content "/Pages")) as [|l1] eqn:E1;
    [lia|].
  cbn [Nat.ltb Nat.leb].
  pose proof (Split_length_pos seg1 "endobj") as H2.
  destruct (List.length (strings.Split seg1 "endobj")) as [|l2] eqn:E2;
    [lia|].
  cbn [Nat.ltb Nat.leb].
  replace (nth 0 (strings.Split seg1 "endobj") EmptyString)
    with (hd EmptyString (strings.Split seg1 "endobj"))
    by (destruct (strings.Split seg1 "endobj"); reflexivity).
  set (seg2 := hd EmptyString (strings.Split seg1 "endobj")).
  assert (Hs1 : (slen seg1 <= slen content)%nat).
  { apply (Split_elements_short content "/Pages"); [discriminate|].
    subst seg1. destruct (strings.Split content "/Pages") as [|a l] eqn:E;
      [discriminate E1|].
    rewrite <- E. rewrite (app_removelast_last EmptyString) at 2
      by (rewrite E; discriminate).
    apply in_or_app. right. left. reflexivity. }
  assert (Hs2 : (slen seg2 <= slen seg1)%nat).
  { apply (Split_elements_short seg1 "endobj"); [discriminate|].
    subst seg2. destruct (strings.Split seg1 "endobj"); [discriminate E2|].
    left. reflexivity. }
  rewrite (Split_length "0 R") by discriminate.
  rewrite <- Count_occurrences_0R.
  pose proof (countLoop_le "0 R" (slen seg2) seg2) as Hc.
  fold (strings.Count seg2 "0 R") in Hc.
  f_equal. unfold int_sub. rewrite wrap64_small;
    unfold MinInt64, MaxInt64 in *; lia.
Qed.

(** When the reader library panics and the file can be read, the
    raw-byte heuristic runs. *)
Lemma heuristic_after_panic : forall file w msg content,
  h_pdfRead host file w = PdfPanic msg ->
  h_ReadFile host file w = (content, None) ->
  Z.of_nat (slen content) <= MaxInt64 ->
  countPDFPagesV2 host file w
  = ((Z.of_nat
        (occurrences "0 R"
           (hd EmptyString
              (strings.Split
                 (last (strings.Split content "/Pages") EmptyString)
                 "endobj"))),
      None),
     w, [EvPdfRead file (PdfPanic msg); EvReadFile file None]).
Proof.
  intros file w msg content Hpdf Hread Hlen.
  unfold countPDFPagesV2, getPdfPages. run.
  rewrite Hpdf, Hread. run.
  now rewrite (countByPattern_counts file content Hlen).
Qed.

Lemma scanLines_positive : forall ls p,
  0 < scan ls p <->
  (exists l, In l ls /\ positiveLine l)
  \/ (0 < p
      /\ forall l, In l ls ->
                   strings.HasPrefix (TrimSpace (ToLower l)) "page" = false).
Proof.
  unfold positivePageLine. cbv zeta.
  induction ls as [|l rest IH]; intros p.
  - simpl. split.
    + intros Hp. right. split; [exact Hp | intros l []].
    + intros [[l [[] _]] | [Hp _]]; exact Hp.
  - cbn [scanLines].
    destruct (strings.HasPrefix (TrimSpace (ToLower l)) "page") eqn:Hpre.
    + destruct (0 <? parseLine (TrimSpace (ToLower l))) eqn:Hpos.
      * apply Z.ltb_lt in Hpos. split; [intros _ | intros _; exact Hpos].
        left. exists l. split; [left; reflexivity | split; assumption].
      * apply Z.ltb_ge in Hpos. rewrite IH. split.
        -- intros [[l' [Hin Hl']] | [Hp _]]; [|lia].
           left. exists l'. split; [right; exact Hin | exact Hl'].
        -- intros [[l' [[Heq | Hin] [Hl1 Hl2]]] | [_ Hall]].
           ++ subst l'. lia.
           ++ left. exists l'. split; [exact Hin | split; assumption].
           ++ specialize (Hall l (or_introl eq_refl)). congruence.
    + rewrite IH. split.
      * intros [[l' [Hin Hl']] | [Hp Hall]].
        -- left. exists l'. split; [right; exact Hin | exact Hl'].
        -- right. split; [exact Hp|].
           intros l' [Heq | Hin]; [subst l'; exact Hpre | apply Hall, Hin].
      * intros [[l' [[Heq | Hin] [Hl1 Hl2]]] | [Hp Hall]].
        -- subst l'. congruence.
        -- left. exists l'. split; [exact Hin | split; assumption].
        -- right. split; [exact Hp|].
           intros l' Hin. apply Hall. right. exact Hin.
Qed.

(** C2 (amended).  [CountPDFPages] calls [countPDFPagesV2] exactly when
    the mutool process returns an error, and then returns what it
    returns.  When the process succeeds there is no fallback: the error is
    nil and the count is positive only if some line of the output carries
    a positive page number. *)
Theorem C2_fallback_exactly_on_process_error : forall c file w out err w1,
  h_ExecCommand host mutool ["show"; file; "pages"] [timeout c] w
  = ((out, err), w1) ->
  let ev := EvExec mutool ["show"; file; "pages"] [timeout c] out err in
  let r := CountPages c file w in
  (err <> None ->
     r = (result (countPDFPagesV2 host file w1),
          world (countPDFPagesV2 host file w1),
          ev :: trace (countPDFPagesV2 host file w1))
     /\ fallbackInvoked file (trace r) = true)
  /\ (err = None ->
        exists n, r = ((n, None), w1, [ev])
                  /\ fallbackInvoked file (trace r) = false
                  /\ (0 < n <->
                      exists l, In l (strings.Split out newline)
                                /\ positiveLine l)).
Proof.
  intros c file w out err w1 Hexec ev r. subst r.
  unfold CountPDFPages, ExecCommand, bind.
  rewrite Hexec. cbn [fst snd]. split.
  - intros Herr. destruct err as [msg|]; [|congruence]. cbn [isNil].
    destruct (countPDFPagesV2 host file w1) as [[res w2] t] eqn:E2.
    cbn [result world trace fst snd app]. split; [reflexivity|].
    unfold countPDFPagesV2, getPdfPages, pdfRead, bind, ret in E2.
    destruct (h_pdfRead host file w1) eqn:Epdf; cbn in E2.
    + destruct (h_ReadFile host file w1) as [p [e|]]; cbn in E2;
        inversion E2; subst; cbn; rewrite String.eqb_refl; reflexivity.
    + inversion E2; subst; cbn; rewrite String.eqb_refl; reflexivity.
    + inversion E2; subst; cbn; rewrite String.eqb_refl; reflexivity.
  - intros ->. cbn [isNil]. unfold ret. cbn [app].
    eexists. split; [reflexivity|]. split; [reflexivity|].
    rewrite scanLines_positive. split.
    + intros [[l [Hin Hl]] | [Hp _]]; [|lia].
      exists l. split; [apply in_rev; exact Hin | exact Hl].
    + intros [l [Hin Hl]]. left. exists l.
      split; [apply in_rev in Hin; exact Hin | exact Hl].
Qed.

End CountingProps.

(** ** The format router *)

Lemma ToLower_ascii : forall slow s,
  strings.isASCII s = true ->
  strings.ToLower slow s = strings.mapBytes strings.lowerByte s.
Proof. intros slow s H. unfold strings.ToLower. rewrite H. reflexivity. Qed.

Section RouterProps.

Context {W : Type} (host : Host W).
Variable mapUnicodeToLower : string -> string.

Local Abbreviation ToLower := (strings.ToLower mapUnicodeToLower).
Local Abbreviation ConvertToPDF' := (ConvertToPDF host mapUnicodeToLower).

Lemma eqb_false_of_not_In : forall (ext x : string) (l : list string),
  ~ In ext l -> In x l -> String.eqb ext x = false.
Proof.
  intros ext x l Hn Hin. apply String.eqb_neq. intros ->. exact (Hn Hin).
Qed.

(** C6.  [ConvertToPDF] looks at the lower-cased extension of the source
    path only (for an ASCII extension, each upper-case letter replaced by
    its lower-case letter), and each route is what the host is asked to do:
    - for the six ebook extensions, the directory of [<workspace>/dst.pdf]
      is made and [ebook-convert <src> <workspace>/dst.pdf --paper-size a4]
      with the four margins of 36 is run; the destination is
      [<workspace>/dst.pdf] and the error is the one of the process;
    - for ".pdf", the source is copied to [<workspace>/dst.pdf], nothing is
      run, and the error is the one of the copy;
    - for every other extension, ".umd" and ".txt" among them,
      [soffice --headless --convert-to pdf --outdir <workspace> <src>] is
      run, the destination is the base name of the source with ".pdf" for
      its extension, in the workspace, and the only error is the one of
      the soffice process: no extension is refused by the router. *)
Theorem C6_router_dispatch : forall c src w,
  let ext := ToLower (filepath.Ext src) in
  let r := ConvertToPDF' c src w in
  (strings.isASCII (filepath.Ext src) = true ->
     ext = strings.mapBytes strings.lowerByte (filepath.Ext src))
  /\ (In ext ebookExtensions ->
        let dst := (workspace c ++ "/dst.pdf")%string in
        let args := [src; dst; "--paper-size"; "a4";
                     "--pdf-page-margin-bottom"; "36";
                     "--pdf-page-margin-left"; "36";
                     "--pdf-page-margin-right"; "36";
                     "--pdf-page-margin-top"; "36"] in
        let made := h_MkdirAll host (filepath.Dir dst) w in
        let ran := h_ExecCommand host "ebook-convert" args [timeout c]
                     (snd made) in
        r = ((dst, snd (fst ran)), snd ran,
             [EvMkdirAll (filepath.Dir dst);
              EvExec "ebook-convert" args [timeout c]
                (fst (fst ran)) (snd (fst ran))]))
  /\ (ext = ".pdf" ->
        let dst := (workspace c ++ "/dst.pdf")%string in
        let copied := h_CopyFile host src dst w in
        r = ((dst, fst copied), snd copied,
             [EvCopyFile src dst (fst copied)]))
  /\ (ext = ".umd" \/ ext = ".txt"
        \/ (~ In ext ebookExtensions /\ ext <> ".pdf") ->
        let dst := (workspace c ++ "/"
                    ++ strings.TrimSuffix (filepath.Base src) (filepath.Ext src)
                    ++ ".pdf")%string in
        let args := ["--headless"; "--convert-to"; "pdf"; "--outdir";
                     workspace c; src] in
        let ran := h_ExecCommand host "soffice" args [timeout c] w in
        r = ((dst, snd (fst ran)), snd ran,
             [EvExec "soffice" args [timeout c]
                (fst (fst ran)) (snd (fst ran))])).
Proof.
  intros c src w ext r. subst r. unfold ConvertToPDF. fold ext.
  unfold ConvertEPUBToPDF, ConvertUMDToPDF, ConvertTXTToPDF, ConvertMOBIToPDF,
    ConvertAZWToPDF, ConvertCHMToPDF, ConvertOfficeToPDF.
  assert (Hcal : forall dst args made ran,
            dst = (workspace c ++ "/dst.pdf")%string ->
            args = [src; dst; "--paper-size"; "a4";
                    "--pdf-page-margin-bottom"; "36";
                    "--pdf-page-margin-left"; "36";
                    "--pdf-page-margin-right"; "36";
                    "--pdf-page-margin-top"; "36"] ->
            made = h_MkdirAll host (filepath.Dir dst) w ->
            ran = h_ExecCommand host "ebook-convert" args [timeout c]
                    (snd made) ->
            convertToPDFByCalibre host c src w
            = ((dst, snd (fst ran)), snd ran,
               [EvMkdirAll (filepath.Dir dst);
                EvExec "ebook-convert" args [timeout c]
                  (fst (fst ran)) (snd (fst ran))])).
  { intros dst args made ran -> -> -> ->.
    unfold convertToPDFByCalibre, ebookConvert. run.
    destruct (h_MkdirAll host _ w) as [e1 w1]. cbn [snd].
    destruct (h_ExecCommand host _ _ [timeout c] w1) as [[out e2] w2].
    reflexivity. }
  assert (Hsof : forall dst args ran,
            dst = (workspace c ++ "/"
                   ++ strings.TrimSuffix (filepath.Base src) (filepath.Ext src)
                   ++ ".pdf")%string ->
            args = ["--headless"; "--convert-to"; "pdf"; "--outdir";
                    workspace c; src] ->
            ran = h_ExecCommand host "soffice" args [timeout c] w ->
            convertToPDFBySoffice host c src w
            = ((dst, snd (fst ran)), snd ran,
               [EvExec "soffice" args [timeout c]
                  (fst (fst ran)) (snd (fst ran))])).
  { intros dst args ran -> -> ->.
    unfold convertToPDFBySoffice, soffice. cbn [app]. run.
    destruct (h_ExecCommand host _ _ [timeout c] w) as [[out e] w1].
    reflexivity. }
  split; [|split; [|split]].
  - apply ToLower_ascii.
  - intros Hin. simpl in Hin.
    destruct Hin as [H|[H|[H|[H|[H|[H|[]]]]]]]; rewrite <- H;
      cbn [String.eqb Ascii.eqb Bool.eqb orb];
      exact (Hcal _ _ _ _ eq_refl eq_refl eq_refl eq_refl).
  - intros ->. cbn [String.eqb Ascii.eqb Bool.eqb orb].
    unfold PDFToPDF. run.
    destruct (h_CopyFile host src _ w) as [e w1]. reflexivity.
  - intros Hext.
    destruct Hext as [-> | [-> | [Hn Hpdf]]];
      [cbn [String.eqb Ascii.eqb Bool.eqb orb];
       exact (Hsof _ _ _ eq_refl eq_refl eq_refl) ..|].
    rewrite (eqb_false_of_not_In ext ".epub" ebookExtensions Hn) by (simpl; tauto).
    rewrite (eqb_false_of_not_In ext ".mobi" ebookExtensions Hn) by (simpl; tauto).
    rewrite (eqb_false_of_not_In ext ".azw" ebookExtensions Hn) by (simpl; tauto).
    rewrite (eqb_false_of_not_In ext ".azw3" ebookExtensions Hn) by (simpl; tauto).
    rewrite (eqb_false_of_not_In ext ".azw4" ebookExtensions Hn) by (simpl; tauto).
    rewrite (eqb_false_of_not_In ext ".chm" ebookExtensions Hn) by (simpl; tauto).
    cbn [orb].
    destruct (String.eqb_spec ext ".pdf") as [E|_]; [contradiction|].
    destruct (String.eqb ext ".umd"), (String.eqb ext ".txt");
      exact (Hsof _ _ _ eq_refl eq_refl eq_refl).
Qed.

End RouterProps.

(** ** The workspace *)

Lemma datedName_split : forall t u,
  datedName t u
  = ((time.appendInt (time.Year t) 4 ++ "/" ++ time.appendInt (time.Month t) 2
        ++ "/" ++ time.appendInt (time.Day t) 2 ++ "/") ++ u)%string.
Proof. intros. unfold datedName. now rewrite !sapp_assoc. Qed.

Lemma fresh_path_nonempty : forall c t u,
  (dirPrefix c ++ datedName t u)%string <> EmptyString.
Proof.
  intros c t u E. apply (f_equal slen) in E.
  unfold datedName in E. rewrite !slen_app in E.
  pose proof (plainElem_nonempty _ (appendInt_plain (time.Year t) 4)) as Hy.
  destruct (time.appendInt (time.Year t) 4); [congruence|].
  unfold slen in E. simpl in E. lia.
Qed.

Lemma fresh_paths_differ : forall c1 t1 u1 c2 t2 u2,
  isCanonicalUUID u1 = true -> isCanonicalUUID u2 = true -> u2 <> u1 ->
  (dirPrefix c2 ++ datedName t2 u2)%string
  <> (dirPrefix c1 ++ datedName t1 u1)%string.
Proof.
  intros c1 t1 u1 c2 t2 u2 H1 H2 Hne.
  rewrite !datedName_split, <- !sapp_assoc.
  apply app_suffix_neq; [|exact Hne].
  now rewrite (canonicalUUID_length u1 H1), (canonicalUUID_length u2 H2).
Qed.

Section WorkspaceProps.

Context {W : Type} (host : Host W).

Lemma makeWorkspace_cached : forall c w,
  workspace c <> EmptyString ->
  makeWorkspace host c w = (Returned (workspace c, c), w, []).
Proof.
  intros c w H. unfold makeWorkspace.
  apply String.eqb_neq in H. rewrite H. reflexivity.
Qed.

Lemma makeWorkspace_fresh : forall c w u w1,
  workspace c = EmptyString ->
  h_NewV1 host w = ((u, None), w1) ->
  isCanonicalUUID u = true ->
  let p := (dirPrefix (cachePath c) ++ datedName (h_Now host w1) u)%string in
  makeWorkspace host c w
  = (Returned (p, mkConverter (cachePath c) (timeout c) p), w1,
     [EvNewV1 u None]).
Proof.
  intros c w u w1 Hws Hnew Hu p. unfold makeWorkspace.
  rewrite Hws. cbn [String.eqb negb].
  unfold bind, NewV1, Now, ret. rewrite Hnew. cbn [fst snd app].
  unfold filepath.ToSlash, time.Format_dirDteFmt.
  rewrite Join_dated;
    [reflexivity | apply appendInt_plain .. | apply canonicalUUID_plain, Hu].
Qed.

Lemma Clean_resets : forall c w e w',
  workspace c <> EmptyString ->
  h_RemoveAll host (workspace c) w = (e, w') ->
  Clean host c w
  = ((e, mkConverter (cachePath c) (timeout c) EmptyString), w',
     [EvRemoveAll (workspace c) e]).
Proof.
  intros c w e w' H Hrm. unfold Clean.
  apply String.eqb_neq in H. rewrite H. cbn [negb].
  unfold bind, RemoveAll, ret. rewrite Hrm. reflexivity.
Qed.

(** C8.  An instance without a workspace allocates
    [<cache root>/YYYY/MM/DD/<uuid>] from the UUID the generator hands out;
    every further call of the accessor on that instance returns the same
    path and generates nothing; [Clean] asks the host to remove the tree at
    that path, returns the host's answer and resets the cached path to
    empty; the next allocation is freshly generated from the next UUID and
    differs from the path cleaned. *)
Theorem C8_workspace_lifecycle : forall c0 w0 u1 w0',
  workspace c0 = EmptyString ->
  h_NewV1 host w0 = ((u1, None), w0') ->
  isCanonicalUUID u1 = true ->
  let p1 := (dirPrefix (cachePath c0) ++ datedName (h_Now host w0') u1)%string in
  let c1 := mkConverter (cachePath c0) (timeout c0) p1 in
  let c2 := mkConverter (cachePath c0) (timeout c0) EmptyString in
  makeWorkspace host c0 w0 = (Returned (p1, c1), w0', [EvNewV1 u1 None])
  /\ (forall wA, makeWorkspace host c1 wA = (Returned (p1, c1), wA, []))
  /\ (forall wB e wB',
        h_RemoveAll host p1 wB = (e, wB') ->
        Clean host c1 wB = ((e, c2), wB', [EvRemoveAll p1 e]))
  /\ (forall wC u2 wC',
        h_NewV1 host wC = ((u2, None), wC') ->
        isCanonicalUUID u2 = true ->
        u2 <> u1 ->
        let p2 :=
          (dirPrefix (cachePath c0) ++ datedName (h_Now host wC') u2)%string in
        makeWorkspace host c2 wC
        = (Returned (p2, mkConverter (cachePath c0) (timeout c0) p2), wC',
           [EvNewV1 u2 None])
        /\ p2 <> p1).
Proof.
  intros c0 w0 u1 w0' Hws Hnew Hu1 p1 c1 c2.
  split; [|split; [|split]].
  - apply makeWorkspace_fresh; assumption.
  - intros wA. apply (makeWorkspace_cached c1 wA). apply fresh_path_nonempty.
  - intros wB e wB' Hrm. apply (Clean_resets c1 wB e wB'); [|exact Hrm].
    apply fresh_path_nonempty.
  - intros wC u2 wC' Hnew2 Hu2 Hne p2. split.
    + apply (makeWorkspace_fresh c2 wC u2 wC'); [reflexivity | assumption ..].
    + apply fresh_paths_differ; assumption.
Qed.

(** C10.  [SetCachePath] creates the directory and sets the cache root;
    the workspace path and the timeout stay as they are, and the accessor
    goes on returning the workspace allocated under the previous root.
    After [Clean] the workspace is empty and the next allocation is placed
    under the new root. *)
Theorem C10_SetCachePath_frame : forall c path w,
  let c' := result (SetCachePath host c path w) in
  c' = mkConverter path (timeout c) (workspace c)
  /\ trace (SetCachePath host c path w) = [EvMkdirAll path]
  /\ (workspace c <> EmptyString ->
      forall wA, makeWorkspace host c' wA = (Returned (workspace c, c'), wA, []))
  /\ (forall wB,
        let c'' := snd (result (Clean host c' wB)) in
        c'' = mkConverter path (timeout c) EmptyString
        /\ forall wC u wC',
             h_NewV1 host wC = ((u, None), wC') ->
             isCanonicalUUID u = true ->
             let p := (dirPrefix path ++ datedName (h_Now host wC') u)%string in
             makeWorkspace host c'' wC
             = (Returned (p, mkConverter path (timeout c) p), wC',
                [EvNewV1 u None])).
Proof.
  intros c path w c'.
  assert (Hc' : c' = mkConverter path (timeout c) (workspace c)).
  { subst c'. unfold SetCachePath, bind, MkdirAll, ret, result.
    destruct (h_MkdirAll host path w) as [e w']. reflexivity. }
  split; [exact Hc'|]. split; [|split].
  - unfold SetCachePath, bind, MkdirAll, ret, trace.
    destruct (h_MkdirAll host path w) as [e w']. reflexivity.
  - intros Hws wA. rewrite Hc'.
    apply (makeWorkspace_cached (mkConverter path (timeout c) (workspace c))).
    exact Hws.
  - intros wB c''.
    assert (Hc'' : c'' = mkConverter path (timeout c) EmptyString).
    { subst c''. rewrite Hc'. unfold Clean. cbn [workspace cachePath timeout].
      destruct (String.eqb_spec (workspace c) "") as [E|N]; cbn [negb].
      - unfold ret, result. cbn. now rewrite E.
      - unfold bind, RemoveAll, ret, result.
        destruct (h_RemoveAll host (workspace c) wB) as [e w']. reflexivity. }
    split; [exact Hc''|].
    intros wC u wC' Hnew Hu p. rewrite Hc''.
    apply (makeWorkspace_fresh (mkConverter path (timeout c) EmptyString)
             wC u wC'); [reflexivity | assumption ..].
Qed.

End WorkspaceProps.

Lemma C8_witness :
  result (makeWorkspace simHost freshConverter worldTwoUUIDs)
  = Returned ("cache/convert/2024/02/29/6ba7b810-9dad-11d1-80b4-00c04fd430c8",
              mkConverter "cache/convert" time.Hour
                "cache/convert/2024/02/29/6ba7b810-9dad-11d1-80b4-00c04fd430c8")
  /\ "cache/convert/2024/02/29/6ba7b811-9dad-11d1-80b4-00c04fd430c8"
     <> "cache/convert/2024/02/29/6ba7b810-9dad-11d1-80b4-00c04fd430c8".
Proof.
  destruct (C8_workspace_lifecycle simHost freshConverter worldTwoUUIDs uuidA
              (snd (h_NewV1 simHost worldTwoUUIDs)) eq_refl eq_refl eq_refl)
    as [H1 [_ [_ H4]]].
  split.
  - rewrite H1. reflexivity.
  - destruct (H4 (snd (h_NewV1 simHost worldTwoUUIDs)) uuidB
                (snd (h_NewV1 simHost (snd (h_NewV1 simHost worldTwoUUIDs))))
                eq_refl eq_refl) as [_ Hne].
    + discriminate.
    + exact Hne.
Defined.

Lemma C10_witness :
  result (SetCachePath simHost simConverter "data/tmp" worldTwoUUIDs)
  = mkConverter "data/tmp" time.Hour "ws"
  /\ result (makeWorkspace simHost
               (snd (result (Clean simHost
                               (result (SetCachePath simHost simConverter
                                          "data/tmp" worldTwoUUIDs))
                               worldTwoUUIDs)))
               worldTwoUUIDs)
     = Returned ("data/tmp/2024/02/29/6ba7b810-9dad-11d1-80b4-00c04fd430c8",
                 mkConverter "data/tmp" time.Hour
                   "data/tmp/2024/02/29/6ba7b810-9dad-11d1-80b4-00c04fd430c8").
Proof.
  destruct (C10_SetCachePath_frame simHost simConverter "data/tmp"
              worldTwoUUIDs) as [H1 [_ [_ H4]]].
  split; [exact H1|].
  destruct (H4 worldTwoUUIDs) as [_ H5].
  rewrite (H5 worldTwoUUIDs uuidA (snd (h_NewV1 simHost worldTwoUUIDs))
              eq_refl eq_refl).
  reflexivity.
Defined.

(** ** PDF to pages *)

Lemma zrange_shift : forall a n i,
  map (fun j => a + j) (zrange i n) = zrange (a + i) n.
Proof.
  induction n as [|n IH]; intros i; [reflexivity|].
  cbn [zrange map]. rewrite IH. now rewrite Z.add_assoc.
Qed.

(** The numbers of the pages of a full range are [fromPage], [fromPage+1]
    and so on. *)
Lemma pagesOf_PageNum : forall Sprintf fromPage fmt n,
  map PageNum (pagesOf Sprintf fromPage fmt 0 n) = zrange fromPage n.
Proof.
  intros. unfold pagesOf. rewrite map_map. cbn [pageAt PageNum].
  rewrite zrange_shift. now rewrite Z.add_0_r.
Qed.

Section PageProps.

Context {W : Type} (host : Host W).
Variable Sprintf : string -> Z -> string.
Variable c : Converter.
Variable src : string.
Variables fromPage toPage : Z.
Variable fmt : string.

Local Abbreviation D := (int_sub toPage fromPage).
Local Abbreviation mloop := (mutoolLoop host Sprintf).
Local Abbreviation iloop := (inkscapeLoop host Sprintf).

Hypothesis from_int : inInt64 fromPage.
Hypothesis to_int : inInt64 toPage.
Hypothesis range_int : MinInt64 <= toPage - fromPage < MaxInt64.

Lemma D_exact : D = toPage - fromPage.
Proof. unfold int_sub. apply wrap64_small. unfold MaxInt64 in *. lia. Qed.

Lemma index_succ : forall i, 0 <= i <= D -> int_add i 1 = i + 1.
Proof.
  intros i H. rewrite D_exact in H. unfold int_add. apply wrap64_small.
  unfold MinInt64, MaxInt64 in *. lia.
Qed.

Lemma page_number : forall i, 0 <= i <= D -> int_add fromPage i = fromPage + i.
Proof.
  intros i H. rewrite D_exact in H. unfold int_add. apply wrap64_small.
  unfold inInt64, MinInt64, MaxInt64 in *. lia.
Qed.

Lemma mutoolLoop_exit : forall f i pages w,
  D < i -> mloop (S f) fromPage toPage fmt i pages w = (Some (pages, None), w, []).
Proof.
  intros f i pages w H. cbn [mutoolLoop].
  apply Z.leb_gt in H. rewrite H. reflexivity.
Qed.

Lemma mutoolLoop_missing : forall f i pages w e,
  0 <= i <= D ->
  h_Stat host (Sprintf fmt (i + 1)) w = Some e ->
  mloop (S f) fromPage toPage fmt i pages w
  = (Some (pages, Some e), w, [EvStat (Sprintf fmt (i + 1)) (Some e)]).
Proof.
  intros f i pages w e Hi Hstat. cbn [mutoolLoop].
  destruct (Z.leb_spec i D) as [_|]; [|lia].
  unfold pagePathOf. rewrite (index_succ i Hi).
  unfold bind, Stat, ret. rewrite Hstat. reflexivity.
Qed.

(** [k] pages in a row whose files exist. *)
Lemma mutoolLoop_steps : forall k fuel i pages w,
  (k < fuel)%nat -> 0 <= i -> (k = O \/ i + Z.of_nat k <= D + 1) ->
  (forall j, i <= j < i + Z.of_nat k ->
             h_Stat host (Sprintf fmt (j + 1)) w = None) ->
  mloop fuel fromPage toPage fmt i pages w
  = (result (mloop (fuel - k) fromPage toPage fmt (i + Z.of_nat k)
               (pages ++ pagesOf Sprintf fromPage fmt i k) w),
     world (mloop (fuel - k) fromPage toPage fmt (i + Z.of_nat k)
              (pages ++ pagesOf Sprintf fromPage fmt i k) w),
     statsOk Sprintf fmt i k
       ++ trace (mloop (fuel - k) fromPage toPage fmt (i + Z.of_nat k)
                   (pages ++ pagesOf Sprintf fromPage fmt i k) w)).
Proof.
  induction k as [|k IH]; intros fuel i pages w Hfuel Hi Hk Hstat.
  - rewrite Nat.sub_0_r, Z.add_0_r. unfold pagesOf, statsOk.
    cbn [zrange map app]. rewrite app_nil_r.
    destruct (mloop fuel fromPage toPage fmt i pages w) as [[r w'] t].
    reflexivity.
  - destruct fuel as [|f]; [lia|].
    assert (HiD : 0 <= i <= D) by lia.
    cbn [mutoolLoop]. destruct (Z.leb_spec i D) as [_|]; [|lia].
    unfold pagePathOf. rewrite (index_succ i HiD), (page_number i HiD).
    unfold bind at 1, Stat at 1. rewrite (Hstat i) by lia. cbn [isNil].
    rewrite (IH f (i + 1)) by (try lia; intros j Hj; apply Hstat; lia).
    replace (i + 1 + Z.of_nat k) with (i + Z.of_nat (S k)) by lia.
    replace ((pages ++ [mkPage (fromPage + i) (Sprintf fmt (i + 1))])
               ++ pagesOf Sprintf fromPage fmt (i + 1) k)
      with (pages ++ pagesOf Sprintf fromPage fmt i (S k))
      by (unfold pagesOf, pageAt; simpl; now rewrite <- app_assoc).
    cbn [Nat.sub]. reflexivity.
Qed.

(** The primary path when every expected file exists. *)
Lemma mutoolLoop_all_exist : forall fuel w,
  (Z.to_nat (toPage - fromPage + 1) < fuel)%nat ->
  (forall i, 0 <= i <= toPage - fromPage ->
             h_Stat host (Sprintf fmt (i + 1)) w = None) ->
  mloop fuel fromPage toPage fmt 0 [] w
  = (Some (pagesOf Sprintf fromPage fmt 0 (Z.to_nat (toPage - fromPage + 1)),
           None),
     w, statsOk Sprintf fmt 0 (Z.to_nat (toPage - fromPage + 1))).
Proof.
  intros fuel w Hfuel Hstat.
  remember (Z.to_nat (toPage - fromPage + 1)) as n eqn:Hn.
  pose proof D_exact as HD.
  rewrite (mutoolLoop_steps n fuel 0 [] w);
    [| exact Hfuel | lia | lia | intros j Hj; apply Hstat; lia].
  destruct (fuel - n)%nat as [|f] eqn:Ef; [lia|].
  rewrite mutoolLoop_exit by lia.
  cbn [result world trace fst snd app]. now rewrite app_nil_r.
Qed.

(** The primary path when the file of index [k] is the first one
    missing. *)
Lemma mutoolLoop_first_missing : forall fuel w k e,
  (Z.to_nat k < fuel)%nat -> 0 <= k <= toPage - fromPage ->
  (forall i, 0 <= i < k -> h_Stat host (Sprintf fmt (i + 1)) w = None) ->
  h_Stat host (Sprintf fmt (k + 1)) w = Some e ->
  mloop fuel fromPage toPage fmt 0 [] w
  = (Some (pagesOf Sprintf fromPage fmt 0 (Z.to_nat k), Some e), w,
     statsOk Sprintf fmt 0 (Z.to_nat k)
       ++ [EvStat (Sprintf fmt (k + 1)) (Some e)]).
Proof.
  intros fuel w k e Hfuel Hk Hok Hmiss.
  pose proof D_exact as HD.
  rewrite (mutoolLoop_steps (Z.to_nat k) fuel 0 [] w);
    [| exact Hfuel | lia | lia | intros j Hj; apply Hok; lia].
  destruct (fuel - Z.to_nat k)%nat as [|f] eqn:Ef; [lia|].
  replace (0 + Z.of_nat (Z.to_nat k)) with k by lia.
  rewrite (mutoolLoop_missing f k _ w e) by (lia || assumption).
  reflexivity.
Qed.

End PageProps.

Section FallbackProps.

Context {W : Type} (host : Host W).
Variable Sprintf : string -> Z -> string.
Variable c : Converter.
Variable src : string.
Variables fromPage toPage : Z.
Variable fmt : string.

Local Abbreviation D := (int_sub toPage fromPage).
Local Abbreviation iloop := (inkscapeLoop host Sprintf).

(** Whatever the Inkscape loop returns, it has followed the protocol. *)
Lemma inkscapeLoop_protocol : forall fuel i pages w r w' t,
  iloop fuel c src fromPage toPage fmt i pages w = (Some r, w', t) ->
  FallbackRun Sprintf c src fromPage toPage fmt i pages t r.
Proof.
  induction fuel as [|f IH]; intros i pages w r w' t H.
  - discriminate H.
  - cbn [inkscapeLoop] in H.
    destruct (Z.leb_spec i D) as [Hi|Hi].
    2:{ inversion H; subst. apply run_end. exact Hi. }
    run_in H.
    destruct (h_ExecCommand host inkscape
                (inkscapeArgs "--pdf-page" (pagePathOf Sprintf fmt i)
                   (int_add fromPage i) src) [timeout c] w)
      as [[out1 [msg1|]] w1]; run_in H.
    + destruct (h_ExecCommand host inkscape
                  (inkscapeArgs "--pages" (pagePathOf Sprintf fmt i)
                     (int_add fromPage i) src) [timeout c] w1)
        as [[out2 [msg2|]] w2]; run_in H.
      * inversion H; subst.
        apply run_abandon; [exact Hi | constructor].
      * destruct (h_Stat host (pagePathOf Sprintf fmt i) w2) as [e|];
          run_in H.
        -- inversion H; subst.
           apply (run_missing Sprintf c src fromPage toPage fmt i pages
                    [_; _] e); [exact Hi | constructor].
        -- destruct (iloop f c src fromPage toPage fmt (int_add i 1)
                       (pages ++ [mkPage (int_add fromPage i)
                                    (pagePathOf Sprintf fmt i)]) w2)
             as [[r' w''] t'] eqn:E.
           inversion H; subst.
           apply (run_page Sprintf c src fromPage toPage fmt i pages
                    [_; _] t' r); [exact Hi | constructor |].
           eapply IH. exact E.
    + destruct (h_Stat host (pagePathOf Sprintf fmt i) w1) as [e|];
        run_in H.
      * inversion H; subst.
        apply (run_missing Sprintf c src fromPage toPage fmt i pages
                 [_] e); [exact Hi | constructor].
      * destruct (iloop f c src fromPage toPage fmt (int_add i 1)
                    (pages ++ [mkPage (int_add fromPage i)
                                 (pagePathOf Sprintf fmt i)]) w1)
          as [[r' w''] t'] eqn:E.
        inversion H; subst.
        apply (run_page Sprintf c src fromPage toPage fmt i pages
                 [_] t' r); [exact Hi | constructor |].
        eapply IH. exact E.
Qed.

(** With fuel for every page of the range, the Inkscape loop returns. *)
Lemma inkscapeLoop_returns : forall fuel i pages w,
  D < MaxInt64 -> 0 <= i ->
  (Z.to_nat (D + 1 - i) < fuel)%nat ->
  exists r, result (iloop fuel c src fromPage toPage fmt i pages w) = Some r.
Proof.
  induction fuel as [|f IH]; intros i pages w HD Hi Hfuel; [lia|].
  cbn [inkscapeLoop].
  destruct (Z.leb_spec i D) as [HiD|HiD]; [|eexists; reflexivity].
  assert (Hnext : int_add i 1 = i + 1).
  { unfold int_add. apply wrap64_small. unfold MinInt64, MaxInt64 in *. lia. }
  rewrite Hnext. run.
  destruct (h_ExecCommand host inkscape
              (inkscapeArgs "--pdf-page" (pagePathOf Sprintf fmt i)
                 (int_add fromPage i) src) [timeout c] w)
    as [[out1 [msg1|]] w1]; run.
  - destruct (h_ExecCommand host inkscape
                (inkscapeArgs "--pages" (pagePathOf Sprintf fmt i)
                   (int_add fromPage i) src) [timeout c] w1)
      as [[out2 [msg2|]] w2]; run; [eexists; reflexivity|].
    destruct (h_Stat host (pagePathOf Sprintf fmt i) w2) as [e|];
      run; [eexists; reflexivity|].
    destruct (IH (i + 1)
                (pages ++ [mkPage (int_add fromPage i)
                             (pagePathOf Sprintf fmt i)]) w2) as [r Hr];
      [exact HD | lia | lia |].
    destruct (iloop f c src fromPage toPage fmt (i + 1) _ w2) as [[r' w''] t'].
    exists r. exact Hr.
  - destruct (h_Stat host (pagePathOf Sprintf fmt i) w1) as [e|];
      run; [eexists; reflexivity|].
    destruct (IH (i + 1)
                (pages ++ [mkPage (int_add fromPage i)
                             (pagePathOf Sprintf fmt i)]) w1) as [r Hr];
      [exact HD | lia | lia |].
    destruct (iloop f c src fromPage toPage fmt (i + 1) _ w1) as [[r' w''] t'].
    exists r. exact Hr.
Qed.

(** So does the loop of the primary path. *)
Lemma mutoolLoop_returns : forall fuel i pages w,
  D < MaxInt64 -> 0 <= i ->
  (Z.to_nat (D + 1 - i) < fuel)%nat ->
  exists r,
    result (mutoolLoop host Sprintf fuel fromPage toPage fmt i pages w) = Some r.
Proof.
  induction fuel as [|f IH]; intros i pages w HD Hi Hfuel; [lia|].
  cbn [mutoolLoop].
  destruct (Z.leb_spec i D) as [HiD|HiD]; [|eexists; reflexivity].
  assert (Hnext : int_add i 1 = i + 1).
  { unfold int_add. apply wrap64_small. unfold MinInt64, MaxInt64 in *. lia. }
  rewrite Hnext. run.
  destruct (h_Stat host (pagePathOf Sprintf fmt i) w) as [e|];
    run; [eexists; reflexivity|].
  destruct (IH (i + 1)
              (pages ++ [mkPage (int_add fromPage i)
                           (pagePathOf Sprintf fmt i)]) w) as [r Hr];
    [exact HD | lia | lia |].
  destruct (mutoolLoop host Sprintf f fromPage toPage fmt (i + 1) _ w)
    as [[r' w''] t'].
  exists r. exact Hr.
Qed.

End FallbackProps.

Section ConvertPagesProps.

Context {W : Type} (host : Host W).
Variable Sprintf : string -> Z -> string.

Local Abbreviation convertPage := (convertPDFToPage host Sprintf).
Local Abbreviation byInkscape := (convertPDFToPageByInkscape host Sprintf).

(** With fuel for every page of the range, [convertPDFToPage] returns. *)
Lemma convertPDFToPage_returns : forall fuel c src fromPage toPage ext w,
  int_sub toPage fromPage < MaxInt64 ->
  (Z.to_nat (int_sub toPage fromPage + 1) < fuel)%nat ->
  exists r, result (convertPage fuel c src fromPage toPage ext w) = Some r.
Proof.
  intros fuel c src fromPage toPage ext w HD Hfuel.
  assert (Hink : forall w1,
            exists r, result (byInkscape fuel c src fromPage toPage ext w1)
                      = Some r).
  { intros w1. unfold convertPDFToPageByInkscape.
    apply inkscapeLoop_returns; [exact HD | lia | now rewrite Z.sub_0_r]. }
  unfold convertPDFToPage, convertPDFToPage_body. run.
  destruct (h_ExecCommand host mutool (mutoolArgs c src fromPage toPage ext)
              [timeout c] w) as [[out [msg|]] w1]; run.
  - destruct (Hink w1) as [r Hr].
    destruct (byInkscape fuel c src fromPage toPage ext w1) as [[r' w2] t].
    exists r. exact Hr.
  - destruct (mutoolLoop_returns host Sprintf fromPage toPage
                (workspace c ++ "/%d" ++ ext) fuel 0 [] w1 HD)
      as [[pages err] Hr]; [lia | now rewrite Z.sub_0_r |].
    destruct (mutoolLoop host Sprintf fuel fromPage toPage
                (workspace c ++ "/%d" ++ ext) 0 [] w1) as [[r' w2] t].
    cbn [result fst] in Hr. subst r'.
    destruct err as [msg|]; run.
    + destruct (Hink w2) as [r Hr].
      destruct (byInkscape fuel c src fromPage toPage ext w2) as [[r' w3] t'].
      exists r. exact Hr.
    + eexists. reflexivity.
Qed.

(** C5.  When the mutool invocation [mutool convert -o <workspace>/%d<ext>
    <src> <from>-<to>] fails, [convertPDFToPage] returns what the Inkscape
    path returns for the same source, range and extension, run in the world
    the failed invocation left.  Whatever that path returns, its trace
    follows [FallbackRun]: page by page, the command line
    [inkscape -o <file> --pdf-page <n> --pdf-poppler <src>] first and
    [inkscape -o <file> --pages <n> --pdf-poppler <src>] only after the
    first failed, and after a page on which both fail nothing more is
    invoked and the pages collected so far are returned with the error.
    With fuel for every page of the range the path does return. *)
Theorem C5_fallback_protocol : forall fuel c src fromPage toPage ext w out msg w1,
  let primary :=
    ["convert"; "-o"; (workspace c ++ "/%d" ++ ext)%string; src;
     (strconv.Itoa fromPage ++ "-" ++ strconv.Itoa toPage)%string] in
  h_ExecCommand host "mutool" primary [timeout c] w = ((out, Some msg), w1) ->
  let ev := EvExec "mutool" primary [timeout c] out (Some msg) in
  let fb := byInkscape fuel c src fromPage toPage ext w1 in
  convertPage fuel c src fromPage toPage ext w
  = (result fb, world fb, ev :: trace fb)
  /\ (forall r, result fb = Some r ->
        FallbackRun Sprintf c src fromPage toPage
          (workspace c ++ "/%d" ++ ext)%string 0 [] (trace fb) r)
  /\ (int_sub toPage fromPage < MaxInt64 ->
      (Z.to_nat (int_sub toPage fromPage + 1) < fuel)%nat ->
      exists r, result fb = Some r).
Proof.
  intros fuel c src fromPage toPage ext w out msg w1 primary Hexec ev fb.
  change primary with (mutoolArgs c src fromPage toPage ext) in *.
  change "mutool"%string with mutool in *.
  split; [|split].
  - unfold convertPDFToPage, convertPDFToPage_body. run.
    rewrite Hexec. run. fold fb.
    destruct fb as [[r w2] t]. reflexivity.
  - intros r Hr. subst fb. unfold convertPDFToPageByInkscape in *.
    destruct (inkscapeLoop host Sprintf fuel c src fromPage toPage
                (workspace c ++ "/%d" ++ ext) 0 [] w1) as [[r' w2] t] eqn:E.
    cbn [result trace fst snd] in *. subst r'.
    eapply inkscapeLoop_protocol. exact E.
  - intros HD Hfuel. subst fb. unfold convertPDFToPageByInkscape.
    apply inkscapeLoop_returns; [exact HD | lia |].
    now rewrite Z.sub_0_r.
Qed.

(** C1 (amended).  After a successful mutool invocation, and for a range
    that fits the [int] arithmetic of the loop:
    - when every expected file exists, the pages returned are exactly
      those of [fromPage..toPage], in order ([pagesOf_PageNum]), with a nil
      error;
    - when the file of index [k] is the first one missing, the stat error
      makes the deferred function run the Inkscape path over the whole
      range, and the call returns that path's pages and error in place of
      the pages collected before the missing file. *)
Theorem C1_pages_after_primary_success :
  forall fuel c src fromPage toPage ext w out w1,
  h_ExecCommand host mutool (mutoolArgs c src fromPage toPage ext)
    [timeout c] w = ((out, None), w1) ->
  inInt64 fromPage -> inInt64 toPage ->
  MinInt64 <= toPage - fromPage < MaxInt64 ->
  (Z.to_nat (toPage - fromPage + 1) < fuel)%nat ->
  let fmt := (workspace c ++ "/%d" ++ ext)%string in
  let ev := EvExec mutool (mutoolArgs c src fromPage toPage ext) [timeout c]
              out None in
  ((forall i, 0 <= i <= toPage - fromPage ->
              h_Stat host (Sprintf fmt (i + 1)) w1 = None) ->
   convertPage fuel c src fromPage toPage ext w
   = (Some (pagesOf Sprintf fromPage fmt 0 (Z.to_nat (toPage - fromPage + 1)),
            None),
      w1,
      ev :: statsOk Sprintf fmt 0 (Z.to_nat (toPage - fromPage + 1))))
  /\ (forall k e,
        0 <= k <= toPage - fromPage ->
        (forall i, 0 <= i < k -> h_Stat host (Sprintf fmt (i + 1)) w1 = None) ->
        h_Stat host (Sprintf fmt (k + 1)) w1 = Some e ->
        let fb := byInkscape fuel c src fromPage toPage ext w1 in
        convertPage fuel c src fromPage toPage ext w
        = (result fb, world fb,
           ev :: statsOk Sprintf fmt 0 (Z.to_nat k)
             ++ EvStat (Sprintf fmt (k + 1)) (Some e) :: trace fb)).
Proof.
  intros fuel c src fromPage toPage ext w out w1 Hexec Hfrom Hto Hrange Hfuel
    fmt ev.
  split.
  - intros Hall. unfold convertPDFToPage, convertPDFToPage_body. run.
    rewrite Hexec. run. fold fmt.
    rewrite (mutoolLoop_all_exist host Sprintf fromPage toPage fmt
               Hfrom Hto Hrange fuel w1 Hfuel Hall).
    run. now rewrite app_nil_r.
  - intros k e Hk Hok Hmiss fb.
    unfold convertPDFToPage, convertPDFToPage_body. run.
    rewrite Hexec. run. fold fmt.
    rewrite (mutoolLoop_first_missing host Sprintf fromPage toPage fmt
               Hfrom Hto Hrange fuel w1 k e) by (lia || assumption).
    run. fold fb. destruct fb as [[r w2] t].
    cbn [app]. now rewrite <- app_assoc.
Qed.

End ConvertPagesProps.

(** ** Pages as JPG or WEBP *)


Section ImageProps.

Context {W : Type} (host : Host W).
Variable Sprintf : string -> Z -> string.




End ImageProps.


(** ** SVG pages, compressed *)

Section GzipProps.

Context {W : Type} (host : Host W).

(** C4.  The destination name [CompressSVGByGZIP] returns ends in
    ".gzip.svg".  When the input can be read, the text compressed is the
    input with every [data-text="<"] replaced by [data-text="&lt;"] and
    every [data-text=">"] replaced by [data-text="&gt;"], in whichever
    order the map is visited; but what is handed to [os.WriteFile] is the
    stream as it is after [Flush]: header, text and sync marker.
    Decompressing it gives the whole text and then the error of an
    unexpected end of file.  The final block and the trailer are produced
    by the deferred [Close], after the file is written: the buffer as
    [Close] leaves it is the stream written followed by these two, and
    that one decompresses to the text without an error. *)
Theorem C4_gzip_written_before_close : forall c svgFile w,
  let r := CompressSVGByGZIP host c svgFile w in
  strings.HasSuffix (fst (result r)) ".gzip.svg" = true
  /\ forall content,
       h_ReadFile host svgFile w = (content, None) ->
       let text := escapeDataText content in
       let written := [gzip.Header; gzip.Deflated text; gzip.SyncMarker] in
       let closed := written ++ [gzip.Deflated EmptyString;
                                 gzip.Finish (Z.of_nat (slen text) mod 2 ^ 32)] in
       trace r = [EvReadFile svgFile None;
                  EvWriteFile (fst (result r)) written (snd (result r))]
       /\ gzip.ReadAll written = (text, Some "unexpected EOF")
       /\ gzip.w_buf
            (gzip.Close
               (gzip.Flush
                  (gzip.Write
                     (fst (gzip.NewWriterLevel gzip.BestCompression)) text)))
          = closed
       /\ gzip.ReadAll closed = (text, None).
Proof.
  intros c svgFile w r. subst r. unfold CompressSVGByGZIP. run.
  destruct (h_ReadFile host svgFile w) as [content [e|]].
  - split; [apply HasSuffix_app|]. intros content' H. discriminate H.
  - destruct (h_rangeOrder host w) as [inOrder w1].
    change (gzip.NewWriterLevel gzip.BestCompression)
      with (gzip.mkWriter 9 [] false EmptyString 0 false, @None string).
    cbv beta iota zeta delta [isNil].
    change (gzip.mkWriter 9 [] false EmptyString 0 false)
      with (fst (gzip.NewWriterLevel gzip.BestCompression)).
    rewrite gzip_flushed_stream, applyReplaces_spec.
    destruct (h_WriteFile host
                (strings.TrimSuffix svgFile (filepath.Ext svgFile)
                   ++ ".gzip.svg")
                [gzip.Header; gzip.Deflated (escapeDataText content);
                 gzip.SyncMarker] w1) as [e w2].
    split; [apply HasSuffix_app|].
    intros content' H. inversion H; subst content'.
    split; [reflexivity|].
    pose proof (gzip_flushed_read (escapeDataText content)) as Hflushed.
    rewrite gzip_flushed_stream in Hflushed.
    split; [exact Hflushed|].
    assert (Hbuf :
      gzip.w_buf
        (gzip.Close
           (gzip.Flush
              (gzip.Write (fst (gzip.NewWriterLevel gzip.BestCompression))
                 (escapeDataText content))))
      = [gzip.Header; gzip.Deflated (escapeDataText content); gzip.SyncMarker]
          ++ [gzip.Deflated EmptyString;
              gzip.Finish (Z.of_nat (slen (escapeDataText content)) mod 2 ^ 32)])
      by reflexivity.
    split; [exact Hbuf|].
    rewrite <- Hbuf. apply gzip_closed_read.
Qed.

End GzipProps.

Lemma C4_witness :
  trace (CompressSVGByGZIP simHost simConverter "ws/1.svg" worldSvg)
  = [EvReadFile "ws/1.svg" None;
     EvWriteFile "ws/1.gzip.svg"
       [gzip.Header; gzip.Deflated (escapeDataText svgSample); gzip.SyncMarker]
       None]
  /\ gzip.ReadAll
       [gzip.Header; gzip.Deflated (escapeDataText svgSample); gzip.SyncMarker]
     = (escapeDataText svgSample, Some "unexpected EOF")
  /\ gzip.ReadAll
       [gzip.Header; gzip.Deflated (escapeDataText svgSample); gzip.SyncMarker;
        gzip.Deflated EmptyString;
        gzip.Finish (Z.of_nat (slen (escapeDataText svgSample)) mod 2 ^ 32)]
     = (escapeDataText svgSample, None).
Proof.
  destruct (C4_gzip_written_before_close simHost simConverter "ws/1.svg"
              worldSvg) as [_ H].
  destruct (H svgSample eq_refl) as [Ht [Hf [_ Hc]]].
  split; [exact Ht|]. split; [exact Hf | exact Hc].
Defined.

(** Page numbers that count from 1 fit the arithmetic of the loops. *)
Lemma one_based_range_fits : forall fromPage toPage,
  1 <= fromPage <= MaxInt64 -> 0 <= toPage <= MaxInt64 ->
  inInt64 fromPage /\ inInt64 toPage
  /\ MinInt64 <= toPage - fromPage < MaxInt64.
Proof. unfold inInt64, MinInt64, MaxInt64. intros. lia. Qed.

(** Outside that range the difference [toPage-fromPage] wraps around:
    for the range from -1 to the largest [int] it is negative, the loop
    body never runs, and no page is returned although every file may
    exist. *)
Example convertPDFToPage_wrapped_range :
  int_sub MaxInt64 (-1) = MinInt64
  /\ result (convertPDFToPage simHost simSprintf 8 simConverter "in.pdf"
               (-1) MaxInt64 ".png" worldBothPages)
     = Some ([], None).
Proof. split; vm_compute; reflexivity. Qed.

(** The claim C1 as stated fails when mutool succeeds but leaves only the
    first of two pages and Inkscape cannot be run: the call does not return
    the page collected before the missing file with a nil error, it returns
    no page and the error of the Inkscape path. *)
Lemma C1_counterexample :
  let r := convertPDFToPage simHost simSprintf 8 simConverter "in.pdf" 1 2
             ".png" worldPageTwoMissing in
  snd (fst (h_ExecCommand simHost mutool
              (mutoolArgs simConverter "in.pdf" 1 2 ".png")
              [timeout simConverter] worldPageTwoMissing)) = None
  /\ h_Stat simHost "ws/1.png" worldPageTwoMissing = None
  /\ h_Stat simHost "ws/2.png" worldPageTwoMissing <> None
  /\ result r = Some ([], Some "exit status 1")
  /\ result r <> Some ([mkPage 1 "ws/1.png"], None).
Proof. vm_compute. repeat split; discriminate. Qed.

Lemma C1_witness :
  result (convertPDFToPage simHost simSprintf 8 simConverter "in.pdf" 1 2
            ".png" worldBothPages)
  = Some ([mkPage 1 "ws/1.png"; mkPage 2 "ws/2.png"], None).
Proof.
  destruct (C1_pages_after_primary_success simHost simSprintf 8 simConverter
              "in.pdf" 1 2 ".png" worldBothPages EmptyString worldBothPages
              eq_refl) as [H _].
  - unfold inInt64, MinInt64, MaxInt64. lia.
  - unfold inInt64, MinInt64, MaxInt64. lia.
  - unfold MinInt64, MaxInt64. lia.
  - vm_compute. lia.
  - rewrite H; [reflexivity|].
    intros i Hi. assert (Hi' : i = 0 \/ i = 1) by lia.
    destruct Hi' as [-> | ->]; reflexivity.
Defined.

Lemma C5_witness :
  result (convertPDFToPage simHost simSprintf 8 simConverter "in.pdf" 1 2
            ".png" worldOldInkscape)
  = Some ([mkPage 1 "ws/1.png"; mkPage 2 "ws/2.png"], None)
  /\ trace (convertPDFToPage simHost simSprintf 8 simConverter "in.pdf" 1 2
              ".png" worldOldInkscape)
     = [EvExec "mutool" ["convert"; "-o"; "ws/%d.png"; "in.pdf"; "1-2"]
          [time.Hour] EmptyString (Some "exit status 1");
        EvExec "inkscape"
          ["-o"; "ws/1.png"; "--pdf-page"; "1"; "--pdf-poppler"; "in.pdf"]
          [time.Hour] EmptyString (Some "exit status 1");
        EvExec "inkscape"
          ["-o"; "ws/1.png"; "--pages"; "1"; "--pdf-poppler"; "in.pdf"]
          [time.Hour] EmptyString None;
        EvStat "ws/1.png" None;
        EvExec "inkscape"
          ["-o"; "ws/2.png"; "--pdf-page"; "2"; "--pdf-poppler"; "in.pdf"]
          [time.Hour] EmptyString (Some "exit status 1");
        EvExec "inkscape"
          ["-o"; "ws/2.png"; "--pages"; "2"; "--pdf-poppler"; "in.pdf"]
          [time.Hour] EmptyString None;
        EvStat "ws/2.png" None].
Proof.
  destruct (C5_fallback_protocol simHost simSprintf 8 simConverter "in.pdf"
              1 2 ".png" worldOldInkscape EmptyString "exit status 1"
              worldOldInkscape eq_refl) as [H _].
  rewrite H. split; reflexivity.
Defined.

(** The extension is compared without regard to case: an upper-case
    ".EPUB" has its directory made and goes to ebook-convert, a ".pdf" is
    copied into the workspace without a process, and an unknown ".xyz" goes
    to soffice without an error of the router's own. *)
Lemma C6_witness :
  (result (ConvertToPDF simHost simSlow simConverter "books/Guide.EPUB"
             worldNoPageLine) = ("ws/dst.pdf", None)
   /\ trace (ConvertToPDF simHost simSlow simConverter "books/Guide.EPUB"
               worldNoPageLine)
      = [EvMkdirAll "ws";
         EvExec "ebook-convert"
           ["books/Guide.EPUB"; "ws/dst.pdf"; "--paper-size"; "a4";
            "--pdf-page-margin-bottom"; "36"; "--pdf-page-margin-left"; "36";
            "--pdf-page-margin-right"; "36"; "--pdf-page-margin-top"; "36"]
           [time.Hour] "warning: cannot load page tree" None])
  /\ (result (ConvertToPDF simHost simSlow simConverter "in.pdf"
                worldNoPageLine) = ("ws/dst.pdf", None)
      /\ trace (ConvertToPDF simHost simSlow simConverter "in.pdf"
                  worldNoPageLine)
         = [EvCopyFile "in.pdf" "ws/dst.pdf" None]
      /\ sim_files (world (ConvertToPDF simHost simSlow simConverter "in.pdf"
                             worldNoPageLine))
         = [("ws/dst.pdf", "%PDF-1.4"); ("in.pdf", "%PDF-1.4")])
  /\ (result (ConvertToPDF simHost simSlow simConverter "notes.xyz"
                worldNoPageLine) = ("ws/notes.pdf", None)
      /\ trace (ConvertToPDF simHost simSlow simConverter "notes.xyz"
                  worldNoPageLine)
         = [EvExec "soffice"
              ["--headless"; "--convert-to"; "pdf"; "--outdir"; "ws";
               "notes.xyz"]
              [time.Hour] "warning: cannot load page tree" None]).
Proof.
  split; [|split].
  - destruct (C6_router_dispatch simHost simSlow simConverter
                "books/Guide.EPUB" worldNoPageLine) as [_ [H _]].
    assert (Hin : In (strings.ToLower simSlow (filepath.Ext "books/Guide.EPUB"))
                    ebookExtensions) by (vm_compute; tauto).
    specialize (H Hin). cbv zeta in H. rewrite H. split; reflexivity.
  - destruct (C6_router_dispatch simHost simSlow simConverter "in.pdf"
                worldNoPageLine) as [_ [_ [H _]]].
    specialize (H eq_refl). cbv zeta in H. rewrite H.
    split; [|split]; reflexivity.
  - destruct (C6_router_dispatch simHost simSlow simConverter "notes.xyz"
                worldNoPageLine) as [_ [_ [_ H]]].
    assert (Hext : strings.ToLower simSlow (filepath.Ext "notes.xyz") = ".umd"
                   \/ strings.ToLower simSlow (filepath.Ext "notes.xyz") = ".txt"
                   \/ (~ In (strings.ToLower simSlow (filepath.Ext "notes.xyz"))
                           ebookExtensions
                        /\ strings.ToLower simSlow (filepath.Ext "notes.xyz")
                           <> ".pdf")).
    { right. right. split.
      - vm_compute. intros Hin.
        repeat (destruct Hin as [Hin|Hin]; [discriminate|]). exact Hin.
      - vm_compute. discriminate. }
    specialize (H Hext). cbv zeta in H. rewrite H. split; reflexivity.
Defined.

(** The claim C2 as stated fails on a three-page PDF for which mutool
    prints no page line: the primary path has not produced a positive
    count, yet the count returned is 0 with a nil error and
    [countPDFPagesV2] has not been called. *)
Lemma C2_counterexample :
  let r := CountPDFPages simHost simSlow simSlow simSlow simConverter
             "in.pdf" worldNoPageLine in
  sim_pdf worldNoPageLine = PdfNumPage 3
  /\ result r = (0, None)
  /\ fallbackInvoked "in.pdf" (trace r) = false.
Proof. vm_compute. repeat split. Qed.

Lemma C2_witness :
  exists n,
    CountPDFPages simHost simSlow simSlow simSlow simConverter
      "in.pdf" worldNoPageLine
    = ((n, None), worldNoPageLine,
       [EvExec mutool ["show"; "in.pdf"; "pages"] [timeout simConverter]
          "warning: cannot load page tree" None]).
Proof.
  destruct (C2_fallback_exactly_on_process_error simHost simSlow simSlow
              simSlow simConverter "in.pdf" worldNoPageLine
              "warning: cannot load page tree" None worldNoPageLine eq_refl)
    as [_ H].
  destruct (H eq_refl) as [n [Hn _]]. exists n. exact Hn.
Defined.

(** The fallback chain on a damaged file without the expected layout: a
    count of 2 and a nil error. *)
Example countPDFPagesV2_without_layout :
  result (countPDFPagesV2 simHost "scan.pdf" worldDamagedPdf) = (2, None).
Proof. vm_compute. reflexivity. Qed.

Lemma C3_witness :
  countPDFPagesV2 simHost "notes.pdf" worldNotAPdf
  = ((0, None), worldNotAPdf,
     [EvPdfRead "notes.pdf" (PdfOpenError "not a PDF file: invalid header")]).
Proof.
  apply (C3_open_error_skips_heuristic simHost "notes.pdf" worldNotAPdf
           "not a PDF file: invalid header").
  reflexivity.
Defined.

(** * Further properties *)

(** ** The life of a converter *)

Section LifecycleProps.

Context {W : Type} (host : Host W).
Variable mapUnicodeToLower : string -> string.

Lemma Clean_forgets : forall c w,
  workspace (snd (result (Clean host c w))) = EmptyString.
Proof.
  intros c w. unfold Clean.
  destruct (String.eqb (workspace c) "") eqn:E; cbn [negb].
  - apply String.eqb_eq in E. exact E.
  - run. destruct (h_RemoveAll host (workspace c) w) as [e w']. reflexivity.
Qed.

(** X1.  [NewConverter] allocates its workspace under the default cache
    root, as "cache/convert/YYYY/MM/DD/uuid", creates the cache root and
    the workspace in this order, and takes the first timeout given or one
    hour.  When the UUID generator fails it panics before any directory is
    created. *)
Theorem NewConverter_allocates : forall tmo w,
  (forall u w1,
     h_NewV1 host w = ((u, None), w1) ->
     isCanonicalUUID u = true ->
     let ws := ("cache/convert/" ++ datedName (h_Now host w1) u)%string in
     let w2 := snd (h_MkdirAll host "cache/convert" w1) in
     NewConverter host tmo w
     = (Returned (mkConverter "cache/convert" (hd time.Hour tmo) ws),
        snd (h_MkdirAll host ws w2),
        [EvNewV1 u None; EvMkdirAll "cache/convert"; EvMkdirAll ws]))
  /\ (forall u msg w1,
        h_NewV1 host w = ((u, Some msg), w1) ->
        NewConverter host tmo w = (Panicked msg, w1, [EvNewV1 u (Some msg)])).
Proof.
  intros tmo w. split.
  - intros u w1 Hu Hc ws w2.
    unfold NewConverter.
    pose proof (makeWorkspace_fresh host
                  (mkConverter "cache/convert"
                     match tmo with t :: _ => t | [] => int_mul 1 time.Hour end
                     "") w u w1 eq_refl Hu Hc) as Hm.
    cbn [cachePath timeout] in Hm.
    change (dirPrefix "cache/convert") with "cache/convert/" in Hm.
    run. rewrite Hm. cbn [cachePath timeout workspace].
    fold ws.
    destruct (h_MkdirAll host "cache/convert" w1) as [e1 w2'] eqn:E1.
    subst w2. cbn [snd].
    destruct (h_MkdirAll host ws w2') as [e2 w3] eqn:E2. cbn [snd app].
    destruct tmo; reflexivity.
  - intros u msg w1 Hu. unfold NewConverter, makeWorkspace. cbn [workspace].
    run. cbn [String.eqb negb]. run. rewrite Hu. reflexivity.
Qed.

(** X2.  After [Clean] the converter has no workspace, whether the removal
    succeeded or not, so a second [Clean] does nothing: it calls nothing,
    returns nil and never tries the removal again. *)
Theorem Clean_second_is_noop : forall c w,
  let r1 := Clean host c w in
  let c1 := snd (result r1) in
  workspace c1 = EmptyString
  /\ Clean host c1 (world r1) = ((None, c1), world r1, [])
  /\ (workspace c = EmptyString -> r1 = ((None, c), w, [])).
Proof.
  intros c w r1 c1. subst c1 r1. unfold Clean.
  destruct (String.eqb (workspace c) "") eqn:E; cbn [negb].
  - apply String.eqb_eq in E. run. rewrite E. cbn [String.eqb negb].
    repeat split; auto.
  - run. destruct (h_RemoveAll host (workspace c) w) as [e w'].
    cbn [workspace String.eqb negb]. split; [reflexivity|]. split; [reflexivity|].
    intros H. rewrite H in E. discriminate.
Qed.

(** X3.  Nothing allocates a workspace again after [Clean]: the
    conversions of a cleaned converter put their results into the root
    directory, and the Calibre path first asks for that directory to be
    created. *)
Theorem conversions_after_Clean : forall c w src w',
  let c' := snd (result (Clean host c w)) in
  fst (result (PDFToPDF host c' src w')) = "/dst.pdf"
  /\ fst (result (convertToPDFByCalibre host c' src w')) = "/dst.pdf"
  /\ fst (result (ConvertPDFToTxt host c' src w')) = "/dst.txt"
  /\ fst (result (convertToPDFBySoffice host c' src w'))
     = ("/" ++ strings.TrimSuffix (filepath.Base src) (filepath.Ext src)
            ++ ".pdf")%string
  /\ hd_error (trace (convertToPDFByCalibre host c' src w'))
     = Some (EvMkdirAll "/").
Proof.
  intros c w src w' c'.
  assert (Hws : workspace c' = EmptyString) by apply Clean_forgets.
  unfold PDFToPDF, convertToPDFByCalibre, ConvertPDFToTxt, convertToPDFBySoffice.
  rewrite Hws. cbn [append].
  change (filepath.Dir "/dst.pdf") with "/".
  run.
  destruct (h_CopyFile host src "/dst.pdf" w') as [e1 w1].
  destruct (h_MkdirAll host "/" w') as [e2 w2].
  destruct (h_ExecCommand host ebookConvert _ [timeout c'] w2) as [[o3 e3] w3].
  destruct (h_ExecCommand host mutool _ [timeout c'] w') as [[o4 e4] w4].
  destruct (h_ExecCommand host soffice _ [timeout c'] w') as [[o5 e5] w5].
  cbn [fst snd]. destruct e4; cbn [negb fst]; repeat split; reflexivity.
Qed.

(** The name [ConvertToPDF] returns, by the path taken. *)
Lemma ConvertToPDF_shape : forall c src w,
  exists stem,
    fst (result (ConvertToPDF host mapUnicodeToLower c src w))
    = (workspace c ++ "/" ++ stem ++ ".pdf")%string
    /\ (In (strings.ToLower mapUnicodeToLower (filepath.Ext src))
           (".pdf" :: ebookExtensions) ->
        stem = "dst").
Proof.
  intros c src w.
  assert (Hcal : fst (result (convertToPDFByCalibre host c src w))
                 = (workspace c ++ "/" ++ "dst" ++ ".pdf")%string).
  { unfold convertToPDFByCalibre. run.
    destruct (h_MkdirAll host _ w) as [e1 w1].
    destruct (h_ExecCommand host ebookConvert _ _ w1) as [[o e] w2].
    reflexivity. }
  assert (Hpdf : fst (result (PDFToPDF host c src w))
                 = (workspace c ++ "/" ++ "dst" ++ ".pdf")%string).
  { unfold PDFToPDF. run. destruct (h_CopyFile host _ _ w) as [e1 w1].
    reflexivity. }
  assert (Hsof : fst (result (convertToPDFBySoffice host c src w))
                 = (workspace c ++ "/"
                      ++ strings.TrimSuffix (filepath.Base src) (filepath.Ext src)
                      ++ ".pdf")%string).
  { unfold convertToPDFBySoffice. run.
    destruct (h_ExecCommand host soffice _ _ w) as [[o e] w2]. reflexivity. }
  unfold ConvertToPDF, ConvertEPUBToPDF, ConvertUMDToPDF,
    ConvertTXTToPDF, ConvertMOBIToPDF, ConvertAZWToPDF, ConvertCHMToPDF,
    ConvertOfficeToPDF.
  set (ext := strings.ToLower mapUnicodeToLower (filepath.Ext src)).
  unfold ebookExtensions.
  destruct (String.eqb ext ".epub") eqn:E1; [exists "dst"; auto|].
  destruct (String.eqb ext ".umd") eqn:E2.
  { apply String.eqb_eq in E2. eexists. split; [exact Hsof|].
    rewrite E2. cbn [In]. intros H.
    repeat (destruct H as [H|H]; [discriminate H|]). contradiction. }
  destruct (String.eqb ext ".txt") eqn:E3.
  { apply String.eqb_eq in E3. eexists. split; [exact Hsof|].
    rewrite E3. cbn [In]. intros H.
    repeat (destruct H as [H|H]; [discriminate H|]). contradiction. }
  destruct (String.eqb ext ".mobi") eqn:E4; [exists "dst"; auto|].
  destruct (String.eqb ext ".azw" || String.eqb ext ".azw3"
            || String.eqb ext ".azw4") eqn:E5; [exists "dst"; auto|].
  destruct (String.eqb ext ".chm") eqn:E6; [exists "dst"; auto|].
  destruct (String.eqb ext ".pdf") eqn:E7; [exists "dst"; auto|].
  eexists. split; [exact Hsof|].
  apply orb_false_iff in E5. destruct E5 as [E5 E5c].
  apply orb_false_iff in E5. destruct E5 as [E5a E5b].
  cbn [In]. intros H.
  repeat (destruct H as [H|H];
          [subst ext; rewrite <- H in *;
           cbn in E1, E4, E5a, E5b, E5c, E6, E7; discriminate|]).
  contradiction.
Qed.

(** X4.  Whatever the source and whether the conversion succeeds or not,
    the path [ConvertToPDF] returns lies in the workspace and ends in
    ".pdf"; for a PDF and for the six ebook extensions it is the one file
    "dst.pdf" of the workspace, whatever the name of the source. *)
Theorem ConvertToPDF_destination : forall c src w,
  let dst := fst (result (ConvertToPDF host mapUnicodeToLower c src w)) in
  strings.HasPrefix dst (workspace c ++ "/") = true
  /\ strings.HasSuffix dst ".pdf" = true
  /\ (In (strings.ToLower mapUnicodeToLower (filepath.Ext src))
         (".pdf" :: ebookExtensions) ->
      dst = (workspace c ++ "/dst.pdf")%string).
Proof.
  intros c src w dst.
  destruct (ConvertToPDF_shape c src w) as [stem [Hs Hstem]].
  fold dst in Hs. rewrite Hs. split; [|split].
  - unfold strings.HasPrefix.
    replace (workspace c ++ "/" ++ stem ++ ".pdf")%string
      with ((workspace c ++ "/") ++ stem ++ ".pdf")%string
      by (rewrite sapp_assoc; reflexivity).
    apply prefix_app.
  - replace (workspace c ++ "/" ++ stem ++ ".pdf")%string
      with ((workspace c ++ "/" ++ stem) ++ ".pdf")%string
      by (rewrite !sapp_assoc; reflexivity).
    apply HasSuffix_app.
  - intros H. rewrite (Hstem H). reflexivity.
Qed.

End LifecycleProps.

(** ** Extensions and base names *)

Lemma srev_cons : forall c s, srev (String c s) = (srev s ++ String c "")%string.
Proof. intros. unfold srev. cbn [srev_onto]. apply srev_onto_spec. Qed.

Lemma srev_involutive : forall s, srev (srev s) = s.
Proof.
  induction s as [|c s IH]; [reflexivity|].
  rewrite srev_cons, srev_app, IH. reflexivity.
Qed.

Lemma sapp_inv_head : forall a x y : string, (a ++ x)%string = (a ++ y)%string -> x = y.
Proof.
  induction a as [|c a IH]; intros x y H; cbn [append] in H; [exact H|].
  injection H as H. auto.
Qed.

Lemma take_app : forall s t : string, take (slen s) (s ++ t) = s.
Proof.
  induction s as [|c s IH]; intros t; cbn [slen String.length take append].
  - destruct t; reflexivity.
  - f_equal. apply IH.
Qed.

Lemma TrimSuffix_app : forall s suf, strings.TrimSuffix (s ++ suf) suf = s.
Proof.
  intros s suf. unfold strings.TrimSuffix. rewrite HasSuffix_app, slen_app.
  replace (slen s + slen suf - slen suf)%nat with (slen s) by lia.
  apply take_app.
Qed.

Lemma allBytes_srev : forall P s, allBytes P (srev s) = allBytes P s.
Proof.
  intros P. induction s as [|c s IH]; [reflexivity|].
  rewrite srev_cons, allBytes_app, IH. cbn [allBytes].
  rewrite andb_true_r. apply andb_comm.
Qed.

(** The scan of [filepath.Ext] cuts a suffix off the path. *)
Lemma extScan_suffix : forall r acc,
  exists pre, (srev r ++ acc)%string = (pre ++ filepath.extScan r acc)%string.
Proof.
  induction r as [|c r IH]; intros acc; cbn [filepath.extScan].
  - exists acc. rewrite sapp_nil_r. reflexivity.
  - destruct (filepath.isSep c).
    + exists (srev (String c r) ++ acc)%string. rewrite sapp_nil_r. reflexivity.
    + rewrite srev_cons, sapp_assoc. cbn [append].
      destruct (Ascii.eqb c "."); [exists (srev r); reflexivity | apply IH].
Qed.

Lemma Ext_suffix : forall path,
  exists stem, path = (stem ++ filepath.Ext path)%string.
Proof.
  intros path. destruct (extScan_suffix (srev path) "") as [pre H].
  rewrite srev_involutive, sapp_nil_r in H. exists pre. exact H.
Qed.

(** An extension is empty, or a dot followed by bytes that are neither
    dots nor separators. *)
Lemma extScan_shape : forall r acc,
  allBytes nameByte acc = true ->
  filepath.extScan r acc = EmptyString
  \/ exists e, filepath.extScan r acc = String "." e
               /\ allBytes nameByte e = true.
Proof.
  induction r as [|c r IH]; intros acc Hacc; cbn [filepath.extScan];
    [left; reflexivity|].
  destruct (filepath.isSep c) eqn:Es; [left; reflexivity|].
  destruct (Ascii.eqb c ".") eqn:Ed.
  - apply Ascii.eqb_eq in Ed. subst c. right. exists acc. auto.
  - apply IH. cbn [allBytes]. unfold nameByte at 1. rewrite Es, Ed, Hacc.
    reflexivity.
Qed.

Lemma Ext_shape : forall path,
  filepath.Ext path = EmptyString
  \/ exists e, filepath.Ext path = String "." e /\ allBytes nameByte e = true.
Proof. intros. apply extScan_shape. reflexivity. Qed.

Lemma extScan_plain : forall e rest acc,
  allBytes nameByte e = true ->
  filepath.extScan (e ++ String "." rest) acc = String "." (srev e ++ acc).
Proof.
  induction e as [|c e IH]; intros rest acc H; cbn [append filepath.extScan].
  - reflexivity.
  - cbn [allBytes] in H. apply andb_true_iff in H. destruct H as [Hc He].
    unfold nameByte in Hc. apply andb_true_iff in Hc. destruct Hc as [Hs Hd].
    apply negb_true_iff in Hs, Hd. rewrite Hs, Hd.
    rewrite IH by exact He. rewrite srev_cons, sapp_assoc. reflexivity.
Qed.

Lemma Ext_app : forall s e,
  allBytes nameByte e = true ->
  filepath.Ext (s ++ String "." e) = String "." e.
Proof.
  intros s e H. unfold filepath.Ext.
  rewrite srev_app, srev_cons, sapp_assoc. cbn [append].
  rewrite extScan_plain by (rewrite allBytes_srev; exact H).
  rewrite srev_involutive, sapp_nil_r. reflexivity.
Qed.

Lemma lastElem_acc : forall r acc,
  filepath.lastElem r acc = (filepath.lastElem r "" ++ acc)%string.
Proof.
  induction r as [|c r IH]; intros acc; cbn [filepath.lastElem]; [reflexivity|].
  destruct (filepath.isSep c); [reflexivity|].
  rewrite IH. rewrite (IH (String c "")). rewrite sapp_assoc. reflexivity.
Qed.

Lemma lastElem_extScan : forall r acc,
  exists pre,
    filepath.lastElem r acc = (pre ++ filepath.extScan r acc)%string.
Proof.
  induction r as [|c r IH]; intros acc;
    cbn [filepath.lastElem filepath.extScan].
  - exists acc. rewrite sapp_nil_r. reflexivity.
  - destruct (filepath.isSep c).
    + exists acc. rewrite sapp_nil_r. reflexivity.
    + destruct (Ascii.eqb c ".").
      * exists (filepath.lastElem r ""). apply lastElem_acc.
      * apply IH.
Qed.

Lemma Base_Ext : forall path,
  exists stem, filepath.Base path = (stem ++ filepath.Ext path)%string.
Proof.
  intros path. destruct path as [|c0 p0] eqn:Ep.
  - exists ".". reflexivity.
  - rewrite <- Ep. unfold filepath.Base, filepath.Ext.
    replace (match path with "" => "." | String _ _ => 
              match filepath.lastElem (filepath.stripSeps (srev path)) "" with
              | "" => "/" | String a s => String a s end end)
      with (match filepath.lastElem (filepath.stripSeps (srev path)) "" with
              | "" => "/" | String a s => String a s end)
      by (rewrite Ep; reflexivity).
    destruct (srev path) as [|c r] eqn:Er.
    + cbn. exists "/". reflexivity.
    + cbn [filepath.stripSeps filepath.extScan].
      destruct (filepath.isSep c) eqn:Es.
      * eexists. rewrite sapp_nil_r. reflexivity.
      * destruct (lastElem_extScan (String c r) "") as [pre H].
        cbn [filepath.extScan] in H. rewrite Es in H. rewrite H.
        destruct (pre ++ (if Ascii.eqb c "." then String c ""
                          else filepath.extScan r (String c "")))%string
          as [|a s] eqn:E.
        -- exists "/". destruct pre; [|discriminate E]. cbn [append] in E.
           rewrite E. reflexivity.
        -- exists pre. symmetry. exact E.
Qed.

Section NamingProps.

Context {W : Type} (host : Host W).

(** X5.  The soffice path runs one command, with the workspace as the
    output directory, and returns the workspace file named after the base
    name of the source with its extension replaced by ".pdf", together
    with the error of the command. *)
Theorem convertToPDFBySoffice_destination : forall c src w,
  exists stem out err,
    filepath.Base src = (stem ++ filepath.Ext src)%string
    /\ result (convertToPDFBySoffice host c src w)
       = ((workspace c ++ "/" ++ stem ++ ".pdf")%string, err)
    /\ trace (convertToPDFBySoffice host c src w)
       = [EvExec soffice
            ["--headless"; "--convert-to"; "pdf"; "--outdir"; workspace c; src]
            [timeout c] out err].
Proof.
  intros c src w. destruct (Base_Ext src) as [stem Hs].
  unfold convertToPDFBySoffice. run. cbn [app].
  destruct (h_ExecCommand host soffice _ _ w) as [[o e] w2].
  exists stem, o, e. split; [exact Hs|].
  rewrite Hs at 1. rewrite TrimSuffix_app. split; reflexivity.
Qed.

(** X6.  [ConvertPNGToJPG] and [ConvertPNGToWEBP] name their result after
    the source with only the extension replaced (appended when the source
    has none), the results have the extensions ".jpg" and ".webp", and the
    JPG is written over its own source exactly when the source already
    ends in ".jpg". *)
Theorem ConvertPNG_destination : forall c src w,
  let jpg := fst (result (ConvertPNGToJPG host c src w)) in
  let webp := fst (result (ConvertPNGToWEBP host c src w)) in
  exists stem,
    src = (stem ++ filepath.Ext src)%string
    /\ jpg = (stem ++ ".jpg")%string
    /\ webp = (stem ++ ".webp")%string
    /\ filepath.Ext jpg = ".jpg"
    /\ filepath.Ext webp = ".webp"
    /\ (jpg = src <-> filepath.Ext src = ".jpg").
Proof.
  intros c src w jpg webp. destruct (Ext_suffix src) as [stem Hs].
  exists stem. split; [exact Hs|].
  assert (Hj : jpg = (stem ++ ".jpg")%string).
  { subst jpg. unfold ConvertPNGToJPG. run.
    destruct (h_ExecCommand host imageMagick _ _ w) as [[o e] w2].
    cbn [fst]. rewrite Hs at 1. rewrite TrimSuffix_app. reflexivity. }
  assert (Hw : webp = (stem ++ ".webp")%string).
  { subst webp. unfold ConvertPNGToWEBP. run.
    destruct (h_ExecCommand host imageMagick _ _ w) as [[o e] w2].
    cbn [fst]. rewrite Hs at 1. rewrite TrimSuffix_app. reflexivity. }
  split; [exact Hj|]. split; [exact Hw|].
  rewrite Hj, Hw. split; [apply Ext_app; reflexivity|].
  split; [apply Ext_app; reflexivity|].
  split; intros H.
  - rewrite Hs in H at 1. apply sapp_inv_head in H. symmetry. exact H.
  - rewrite Hs at 1. rewrite H. reflexivity.
Qed.

(** X9.  The name [CompressSVGByGZIP] returns is the source name with its
    extension replaced by ".gzip.svg"; its extension is still ".svg", and
    it never is the name of the source, so that removing the source after
    a compression never removes the compressed copy. *)
Theorem CompressSVGByGZIP_destination : forall c svgFile w,
  let dst := fst (result (CompressSVGByGZIP host c svgFile w)) in
  exists stem,
    svgFile = (stem ++ filepath.Ext svgFile)%string
    /\ dst = (stem ++ ".gzip.svg")%string
    /\ filepath.Ext dst = ".svg"
    /\ String.eqb dst svgFile = false.
Proof.
  intros c svgFile w dst. destruct (Ext_suffix svgFile) as [stem Hs].
  exists stem. split; [exact Hs|].
  assert (Hd : dst = (stem ++ ".gzip.svg")%string).
  { subst dst. unfold CompressSVGByGZIP. run.
    assert (Ht : strings.TrimSuffix svgFile (filepath.Ext svgFile) = stem)
      by (rewrite Hs at 1; apply TrimSuffix_app).
    rewrite Ht.
    destruct (h_ReadFile host svgFile w) as [content [e|]]; cbn [fst snd];
      [reflexivity|].
    destruct (h_rangeOrder host w) as [o w1]. cbn.
    destruct (h_WriteFile host _ _ w1) as [e2 w2]. reflexivity. }
  split; [exact Hd|]. rewrite Hd. split.
  - change (stem ++ ".gzip.svg")%string
      with (stem ++ ".gzip" ++ String "." "svg")%string.
    rewrite <- sapp_assoc. apply Ext_app. reflexivity.
  - apply String.eqb_neq. intros H. rewrite Hs in H at 1.
    apply sapp_inv_head in H.
    destruct (Ext_shape svgFile) as [E|[e [E He]]]; rewrite E in H;
      [discriminate H|].
    injection H as H. subst e. discriminate He.
Qed.

End NamingProps.

(** ** SVG pages *)


Lemma TrimLeft_dots : forall n name,
  strings.HasPrefix name "." = false ->
  strings.TrimLeft (dots n ++ name) "." = name.
Proof.
  induction n as [|n IH]; intros name H; cbn [dots append].
  - destruct name as [|c s]; [reflexivity|].
    cbn [strings.TrimLeft strings.memByte].
    unfold strings.HasPrefix in H. cbn [String.prefix] in H.
    destruct (Ascii.eqb c ".") eqn:E; [|reflexivity].
    apply Ascii.eqb_eq in E. subst c.
    destruct (ascii_dec "." "."); [|congruence].
    rewrite prefix_nil in H. discriminate.
  - cbn [strings.TrimLeft strings.memByte]. rewrite Ascii.eqb_refl. apply IH, H.
Qed.

Section SvgProps.

Context {W : Type} (host : Host W).
Variable Sprintf : string -> Z -> string.



(** X10.  What [CompressSVGByGZIP] writes is the gzip stream as it is after
    [Flush]: the header, the escaped text and the sync marker, without the
    final block and the trailer, which the deferred [Close] only produces
    after the file is written.  Reading the file back gives the whole
    escaped text and then an unexpected end of file. *)
Theorem CompressSVGByGZIP_stream_unterminated : forall c svgFile w content,
  h_ReadFile host svgFile w = (content, None) ->
  let stream :=
    [gzip.Header; gzip.Deflated (escapeDataText content); gzip.SyncMarker] in
  exists e,
    trace (CompressSVGByGZIP host c svgFile w)
    = [EvReadFile svgFile None; EvWriteFile (gzipName svgFile) stream e]
    /\ result (CompressSVGByGZIP host c svgFile w) = (gzipName svgFile, e)
    /\ gzip.ReadAll stream = (escapeDataText content, Some "unexpected EOF").
Proof.
  intros c svgFile w content Hr stream.
  unfold CompressSVGByGZIP. fold (gzipName svgFile). run. rewrite Hr.
  destruct (h_rangeOrder host w) as [o w1].
  change (gzip.NewWriterLevel gzip.BestCompression)
    with (gzip.mkWriter 9 [] false EmptyString 0 false, @None string).
  cbv beta iota zeta delta [isNil].
  change (gzip.mkWriter 9 [] false EmptyString 0 false)
    with (fst (gzip.NewWriterLevel gzip.BestCompression)).
  rewrite gzip_flushed_stream, applyReplaces_spec. fold stream.
  destruct (h_WriteFile host (gzipName svgFile) stream w1) as [e2 w2].
  exists e2. split; [reflexivity|]. split; [reflexivity|].
  pose proof (gzip_flushed_read (escapeDataText content)) as Hread.
  rewrite gzip_flushed_stream in Hread. exact Hread.
Qed.

(** X7.  [ConvertPDFToPages] looks at the extension without its leading
    dots, however many: "png" goes to [ConvertPDFToPNG] and the options
    for SVG are ignored; anything other than "png", "jpg" and "webp", the
    empty extension and upper-case spellings included, goes to
    [ConvertPDFToSVG] with the two options. *)
Theorem ConvertPDFToPages_routing :
  forall fuel c src fromPage toPage opt n name,
  Extension opt = (dots n ++ name)%string ->
  strings.HasPrefix name "." = false ->
  (name = "png" ->
   ConvertPDFToPages host Sprintf fuel c src fromPage toPage opt
   = ConvertPDFToPNG host Sprintf fuel c src fromPage toPage)
  /\ (name <> "png" -> name <> "jpg" -> name <> "webp" ->
      ConvertPDFToPages host Sprintf fuel c src fromPage toPage opt
      = ConvertPDFToSVG host Sprintf fuel c src fromPage toPage
          (EnableSVGO opt) (EnableGZIP opt)).
Proof.
  intros fuel c src fromPage toPage opt n name He Hn.
  unfold ConvertPDFToPages. rewrite He, TrimLeft_dots by exact Hn.
  split.
  - intros ->. reflexivity.
  - intros H1 H2 H3.
    apply String.eqb_neq in H1, H2, H3. rewrite H1, H2, H3. reflexivity.
Qed.

End SvgProps.

(** ** What a replacement leaves behind *)

Section LeftBehind.

Variables old new : string.
Hypothesis old_nonempty : old <> EmptyString.

Local Abbreviation R s := (bytes_.ReplaceAll s old new).

Lemma Index_none_cons : forall tok c s,
  strings.Index (String c s) tok = None ->
  String.prefix tok (String c s) = false /\ strings.Index s tok = None.
Proof.
  intros tok c s H. cbn [strings.Index] in H.
  destruct (String.prefix tok (String c s)); [discriminate H|].
  split; [reflexivity|]. destruct (strings.Index s tok); [discriminate H|].
  reflexivity.
Qed.

Lemma Index_none_drop : forall tok k s,
  strings.Index s tok = None -> strings.Index (drop k s) tok = None.
Proof.
  intros tok. induction k as [|k IH]; intros s H; [exact H|].
  destruct s as [|c s]; [exact H|]. cbn [drop].
  apply IH. apply (Index_none_cons tok c s H).
Qed.

Lemma Index_none_inert : forall tok pre x,
  tok <> EmptyString ->
  inert tok pre = true ->
  strings.Index x tok = None -> strings.Index (pre ++ x) tok = None.
Proof.
  intros tok pre x Htok. induction pre as [|c pre IH]; intros Hin Hx;
    [exact Hx|].
  cbn [inert] in Hin. apply andb_true_iff in Hin. destruct Hin as [Hc Hin].
  cbn [append]. rewrite Index_cons.
  - rewrite IH by assumption. reflexivity.
  - apply (clash_prefix tok (String c pre) x Hc).
Qed.

Lemma ReplaceAll_absent : forall s,
  strings.Index s old = None -> R s = s.
Proof.
  intros s H. unfold bytes_.ReplaceAll.
  destruct (strings.Count s old); cbn [bytes_.replaceLoop]; [reflexivity|].
  rewrite H. reflexivity.
Qed.

(** A token that the replacement cannot complete stays absent. *)
Lemma ReplaceAll_keeps_absent : forall tok d q h tl,
  tok = String d q -> new = String h tl ->
  allBytes (fun c => negb (Ascii.eqb c h)) q = true ->
  inert tok new = true ->
  forall n s, (slen s <= n)%nat ->
    strings.Index s tok = None -> strings.Index (R s) tok = None.
Proof.
  intros tok d q h tl Htok Hnew Hq Hin.
  assert (Hne : tok <> EmptyString) by (rewrite Htok; discriminate).
  induction n as [|n IH]; intros s Hlen Hs.
  - destruct s; [|cbn in Hlen; lia]. rewrite ReplaceAll_nil. exact Hs.
  - destruct s as [|c s]; [rewrite ReplaceAll_nil; exact Hs|].
    destruct (String.prefix old (String c s)) eqn:Ep.
    + rewrite (ReplaceAll_match old new old_nonempty) by exact Ep.
      apply Index_none_inert; [exact Hne | exact Hin |].
      apply IH.
      * rewrite slen_drop. pose proof (old_length old old_nonempty).
        unfold slen in *; cbn [String.length] in *; lia.
      * apply Index_none_drop. exact Hs.
    + rewrite (ReplaceAll_step old new old_nonempty) by exact Ep.
      destruct (Index_none_cons tok c s Hs) as [Hp Hs'].
      rewrite Index_cons.
      * rewrite IH; [reflexivity | unfold slen in *; cbn [String.length] in *; lia | exact Hs'].
      * apply (no_new_occurrence old new tok d h q tl old_nonempty Htok Hnew Hq).
        exact Hp.
Qed.

(** Nothing is left of [old] when [new] cannot complete an instance of
    it. *)
Lemma ReplaceAll_removes : forall d q h tl,
  old = String d q -> new = String h tl ->
  allBytes (fun c => negb (Ascii.eqb c h)) q = true ->
  inert old new = true ->
  forall n s, (slen s <= n)%nat -> strings.Index (R s) old = None.
Proof.
  intros d q h tl Hold Hnew Hq Hin.
  induction n as [|n IH]; intros s Hlen.
  - destruct s; [|cbn in Hlen; lia]. rewrite ReplaceAll_nil.
    apply Index_nil, old_nonempty.
  - destruct s as [|c s];
      [rewrite ReplaceAll_nil; apply Index_nil, old_nonempty|].
    destruct (String.prefix old (String c s)) eqn:Ep.
    + rewrite (ReplaceAll_match old new old_nonempty) by exact Ep.
      apply Index_none_inert; [exact old_nonempty | exact Hin |].
      apply IH. rewrite slen_drop. pose proof (old_length old old_nonempty).
      unfold slen in *; cbn [String.length] in *; lia.
    + rewrite (ReplaceAll_step old new old_nonempty) by exact Ep.
      rewrite Index_cons.
      * rewrite IH; [reflexivity | unfold slen in *; cbn [String.length] in *; lia].
      * apply (no_new_occurrence old new old d h q tl old_nonempty Hold Hnew Hq).
        exact Ep.
Qed.

End LeftBehind.

(** X11.  After the replacements of [CompressSVGByGZIP], in either order of
    the map, the text holds neither key any more, and replacing again
    changes nothing. *)
Theorem applyReplaces_leaves_no_key : forall inOrder s,
  strings.Index (applyReplaces inOrder s) patLt = None
  /\ strings.Index (applyReplaces inOrder s) patGt = None
  /\ forall again,
       applyReplaces again (applyReplaces inOrder s) = applyReplaces inOrder s.
Proof.
  intros inOrder s.
  assert (HLt : patLt <> EmptyString) by discriminate.
  assert (HGt : patGt <> EmptyString) by discriminate.
  assert (Hlt : forall v, strings.Index (bytes_.ReplaceAll v patLt repLt) patLt
                          = None).
  { intros v.
    apply (ReplaceAll_removes patLt repLt HLt "d" _ "d" _ eq_refl eq_refl
             eq_refl eq_refl (slen v) v (le_n _)). }
  assert (Hgt : forall v, strings.Index (bytes_.ReplaceAll v patGt repGt) patGt
                          = None).
  { intros v.
    apply (ReplaceAll_removes patGt repGt HGt "d" _ "d" _ eq_refl eq_refl
             eq_refl eq_refl (slen v) v (le_n _)). }
  assert (Hlt_gt : forall v, strings.Index v patLt = None ->
            strings.Index (bytes_.ReplaceAll v patGt repGt) patLt = None).
  { intros v Hv.
    apply (ReplaceAll_keeps_absent patGt repGt HGt patLt "d" _ "d" _ eq_refl
             eq_refl eq_refl eq_refl (slen v) v (le_n _) Hv). }
  assert (Hgt_lt : forall v, strings.Index v patGt = None ->
            strings.Index (bytes_.ReplaceAll v patLt repLt) patGt = None).
  { intros v Hv.
    apply (ReplaceAll_keeps_absent patLt repLt HLt patGt "d" _ "d" _ eq_refl
             eq_refl eq_refl eq_refl (slen v) v (le_n _) Hv). }
  assert (Hboth : strings.Index (applyReplaces inOrder s) patLt = None
                  /\ strings.Index (applyReplaces inOrder s) patGt = None).
  { unfold applyReplaces, replaces. destruct inOrder;
      cbn [rev app fold_left fst snd]; split; auto. }
  destruct Hboth as [H1 H2]. split; [exact H1|]. split; [exact H2|].
  intros again. unfold applyReplaces at 1. unfold replaces.
  destruct again; cbn [rev app fold_left fst snd];
    rewrite !ReplaceAll_absent; auto;
    rewrite ?ReplaceAll_absent; auto.
Qed.

(** ** The pages of a range *)

Section RangeProps.

Context {W : Type} (host : Host W).
Variable Sprintf : string -> Z -> string.
Variable c : Converter.
Variable src : string.
Variables fromPage toPage : Z.
Variable fmt : string.

Local Abbreviation D := (int_sub toPage fromPage).

Hypothesis from_int : inInt64 fromPage.
Hypothesis to_int : inInt64 toPage.
Hypothesis range_int : MinInt64 <= toPage - fromPage < MaxInt64.

Lemma page_at_index : forall i,
  0 <= i <= D ->
  mkPage (int_add fromPage i) (pagePathOf Sprintf fmt i)
  = pageAt Sprintf fromPage fmt i.
Proof.
  intros i Hi. unfold pageAt, pagePathOf.
  rewrite (page_number fromPage toPage from_int to_int range_int i Hi).
  rewrite (index_succ fromPage toPage range_int i Hi). reflexivity.
Qed.

Lemma mutoolLoop_shape : forall fuel i pages w ps e w' t,
  0 <= i ->
  mutoolLoop host Sprintf fuel fromPage toPage fmt i pages w
  = (Some (ps, e), w', t) ->
  exists k, ps = pages ++ pagesOf Sprintf fromPage fmt i k
            /\ (k <= Z.to_nat (D + 1 - i))%nat
            /\ (e = None <-> k = Z.to_nat (D + 1 - i)).
Proof.
  induction fuel as [|fuel IH]; intros i pages w ps e w' t Hi H;
    cbn [mutoolLoop] in H; [discriminate H|].
  destruct (i <=? D) eqn:Ei.
  - apply Z.leb_le in Ei. run_in H.
    destruct (h_Stat host (pagePathOf Sprintf fmt i) w) as [e1|] eqn:Es.
    + inversion H; subst. exists O. cbn [pagesOf zrange map].
      rewrite app_nil_r. split; [reflexivity|]. split; [lia|].
      split; [discriminate | intros; exfalso; lia].
    + rewrite (index_succ fromPage toPage range_int i (conj Hi Ei)) in H.
      rewrite (page_at_index i (conj Hi Ei)) in H.
      destruct (mutoolLoop host Sprintf fuel fromPage toPage fmt (i + 1)
                  (pages ++ [pageAt Sprintf fromPage fmt i]) w)
        as [[r w2] t2] eqn:Er.
      inversion H; subst.
      assert (Hi1 : 0 <= i + 1) by lia.
      destruct (IH _ _ _ _ _ _ _ Hi1 Er) as (k & Hk & Hle & Hiff).
      exists (S k). rewrite Hk, <- app_assoc. split; [reflexivity|].
      replace (Z.to_nat (D + 1 - i)) with (S (Z.to_nat (D + 1 - (i + 1))))
        by lia.
      split; [lia|]. rewrite Hiff. split; intros; lia.
  - apply Z.leb_gt in Ei. run_in H. inversion H; subst. exists O.
    cbn [pagesOf zrange map]. rewrite app_nil_r.
    split; [reflexivity|]. split; [lia|]. split; intros; [lia | reflexivity].
Qed.

Lemma FallbackRun_shape : forall i pages t r,
  FallbackRun Sprintf c src fromPage toPage fmt i pages t r ->
  0 <= i ->
  exists k, fst r = pages ++ pagesOf Sprintf fromPage fmt i k
            /\ (k <= Z.to_nat (D + 1 - i))%nat
            /\ (snd r = None <-> k = Z.to_nat (D + 1 - i)).
Proof.
  induction 1 as [i pages Hend | i pages ta t r Hle Ha _ IH
                  | i pages ta msg Hle Ha | i pages ta msg Hle Ha];
    intros Hi; cbn [fst snd].
  - exists O. cbn [pagesOf zrange map]. rewrite app_nil_r.
    split; [reflexivity|]. split; [lia|]. split; intros; [lia | reflexivity].
  - change (Sprintf fmt (int_add i 1)) with (pagePathOf Sprintf fmt i) in IH.
    rewrite (index_succ fromPage toPage range_int i (conj Hi Hle)) in IH.
    rewrite (page_at_index i (conj Hi Hle)) in IH.
    destruct (IH ltac:(lia)) as (k & Hk & Hk' & Hiff).
    exists (S k). rewrite Hk, <- app_assoc. split; [reflexivity|].
    replace (Z.to_nat (D + 1 - i)) with (S (Z.to_nat (D + 1 - (i + 1))))
      by lia.
    split; [lia|]. rewrite Hiff. split; intros; lia.
  - exists O. cbn [pagesOf zrange map]. rewrite app_nil_r.
    split; [reflexivity|]. split; [lia|]. split; [discriminate | intros; exfalso; lia].
  - exists O. cbn [pagesOf zrange map]. rewrite app_nil_r.
    split; [reflexivity|]. split; [lia|]. split; [discriminate | intros; exfalso; lia].
Qed.

End RangeProps.

Section ToolProps.

Context {W : Type} (host : Host W).
Variable Sprintf : string -> Z -> string.

Lemma mutoolLoop_events : forall tmo fuel fromPage toPage fmt i pages w,
  forallb (pageToolEvent tmo)
    (trace (mutoolLoop host Sprintf fuel fromPage toPage fmt i pages w)) = true.
Proof.
  intros tmo.
  induction fuel as [|fuel IH]; intros fromPage toPage fmt i pages w;
    cbn [mutoolLoop]; [reflexivity|].
  destruct (i <=? int_sub toPage fromPage); [|reflexivity]. run.
  destruct (h_Stat host (pagePathOf Sprintf fmt i) w) as [e|]; [reflexivity|].
  specialize (IH fromPage toPage fmt (int_add i 1)
                (pages ++ [mkPage (int_add fromPage i) (pagePathOf Sprintf fmt i)])
                w).
  run_in IH.
  destruct (mutoolLoop host Sprintf fuel fromPage toPage fmt (int_add i 1) _ w)
    as [[r w2] t2].
  cbn [snd app forallb pageToolEvent andb] in *. exact IH.
Qed.

Lemma pageToolEvent_inkscape : forall c args out err,
  pageToolEvent (timeout c) (EvExec inkscape args [timeout c] out err) = true.
Proof.
  intros. cbn [pageToolEvent]. rewrite Z.eqb_refl. reflexivity.
Qed.

Lemma pageToolEvent_mutool : forall c args out err,
  pageToolEvent (timeout c) (EvExec mutool args [timeout c] out err) = true.
Proof.
  intros. cbn [pageToolEvent]. rewrite Z.eqb_refl. reflexivity.
Qed.

Lemma inkscapeLoop_events : forall fuel c src fromPage toPage fmt i pages w,
  forallb (pageToolEvent (timeout c))
    (trace (inkscapeLoop host Sprintf fuel c src fromPage toPage fmt i pages w))
  = true.
Proof.
  induction fuel as [|fuel IH]; intros c src fromPage toPage fmt i pages w;
    cbn [inkscapeLoop]; [reflexivity|].
  destruct (i <=? int_sub toPage fromPage); [|reflexivity]. run.
  destruct (h_ExecCommand host inkscape
              (inkscapeArgs "--pdf-page" (pagePathOf Sprintf fmt i)
                 (int_add fromPage i) src) [timeout c] w)
    as [[o1 [e1|]] w1]; cbn [fst snd].
  - destruct (h_ExecCommand host inkscape
                (inkscapeArgs "--pages" (pagePathOf Sprintf fmt i)
                   (int_add fromPage i) src) [timeout c] w1)
      as [[o2 [e2|]] w2]; cbn [fst snd].
    { cbn [app forallb]. rewrite !pageToolEvent_inkscape. reflexivity. }
    destruct (h_Stat host (pagePathOf Sprintf fmt i) w2) as [e|].
    { cbn [app forallb]. rewrite !pageToolEvent_inkscape. reflexivity. }
    specialize (IH c src fromPage toPage fmt (int_add i 1)
                  (pages ++ [mkPage (int_add fromPage i)
                               (pagePathOf Sprintf fmt i)]) w2).
    run_in IH.
    destruct (inkscapeLoop host Sprintf fuel c src fromPage toPage fmt
                (int_add i 1) _ w2) as [[r w3] t3].
    cbn [snd] in IH. cbn [app forallb].
    rewrite !pageToolEvent_inkscape, IH. reflexivity.
  - destruct (h_Stat host (pagePathOf Sprintf fmt i) w1) as [e|].
    { cbn [app forallb]. rewrite !pageToolEvent_inkscape. reflexivity. }
    specialize (IH c src fromPage toPage fmt (int_add i 1)
                  (pages ++ [mkPage (int_add fromPage i)
                               (pagePathOf Sprintf fmt i)]) w1).
    run_in IH.
    destruct (inkscapeLoop host Sprintf fuel c src fromPage toPage fmt
                (int_add i 1) _ w1) as [[r w3] t3].
    cbn [snd] in IH. cbn [app forallb].
    rewrite !pageToolEvent_inkscape, IH. reflexivity.
Qed.

Lemma convertPDFToPage_events : forall fuel c src fromPage toPage ext w,
  forallb (pageToolEvent (timeout c))
    (trace (convertPDFToPage host Sprintf fuel c src fromPage toPage ext w))
  = true.
Proof.
  intros fuel c src fromPage toPage ext w.
  unfold convertPDFToPage, convertPDFToPage_body, convertPDFToPageByInkscape.
  run.
  destruct (h_ExecCommand host mutool (mutoolArgs c src fromPage toPage ext)
              [timeout c] w) as [[o [e|]] w1]; cbn [fst snd].
  - pose proof (inkscapeLoop_events fuel c src fromPage toPage
                  (workspace c ++ "/%d" ++ ext) 0 [] w1) as Hi.
    run_in Hi.
    destruct (inkscapeLoop host Sprintf fuel c src fromPage toPage _ 0 [] w1)
      as [[r w2] t2].
    cbn [snd] in Hi. rewrite ?forallb_app. cbn [forallb].
    rewrite pageToolEvent_mutool, Hi. reflexivity.
  - pose proof (mutoolLoop_events (timeout c) fuel fromPage toPage
                  (workspace c ++ "/%d" ++ ext) 0 [] w1) as Hm.
    run_in Hm.
    destruct (mutoolLoop host Sprintf fuel fromPage toPage _ 0 [] w1)
      as [[[[ps [e|]]|] w2] t2]; cbn [snd] in Hm.
    + pose proof (inkscapeLoop_events fuel c src fromPage toPage
                    (workspace c ++ "/%d" ++ ext) 0 [] w2) as Hi.
      run_in Hi.
      destruct (inkscapeLoop host Sprintf fuel c src fromPage toPage _ 0 [] w2)
        as [[r w3] t3].
      cbn [snd] in Hi. rewrite ?forallb_app. cbn [forallb].
      rewrite pageToolEvent_mutool, Hm, Hi. reflexivity.
    + rewrite ?forallb_app. cbn [forallb].
      rewrite pageToolEvent_mutool, Hm. reflexivity.
    + rewrite ?forallb_app. cbn [forallb].
      rewrite pageToolEvent_mutool, Hm. reflexivity.
Qed.

(** X13.  [convertPDFToPage], and so [ConvertPDFToJPG], runs mutool and
    Inkscape, each command with the timeout of the converter, and looks
    at files, and does nothing else: it removes, writes and copies
    nothing, and runs no other tool; in particular [ConvertPDFToJPG] does
    not go through ImageMagick, unlike the branch for jpg of
    [ConvertPDFToPages]. *)
Theorem convertPDFToPage_tools_only :
  forall fuel c src fromPage toPage ext w,
  forallb (pageToolEvent (timeout c))
    (trace (convertPDFToPage host Sprintf fuel c src fromPage toPage ext w))
  = true
  /\ forallb (pageToolEvent (timeout c))
       (trace (ConvertPDFToJPG host Sprintf fuel c src fromPage toPage w))
     = true
  /\ forall args tmo out err,
       pageToolEvent (timeout c) (EvExec imageMagick args tmo out err) = false
       /\ pageToolEvent (timeout c) (EvExec svgo args tmo out err) = false.
Proof.
  intros fuel c src fromPage toPage ext w.
  split; [apply convertPDFToPage_events|].
  split; [apply convertPDFToPage_events|].
  intros args tmo out err. cbn [pageToolEvent].
  destruct tmo as [|t [|t' tmo]]; split; reflexivity.
Qed.

(** X12.  The pages [convertPDFToPage] returns are always the first pages
    of the range, in order and without a gap, by whichever tool they were
    made; and the error is nil exactly when they are all the pages of the
    range. *)
Theorem convertPDFToPage_complete_or_error :
  forall fuel c src fromPage toPage ext w pages err,
  inInt64 fromPage -> inInt64 toPage ->
  MinInt64 <= toPage - fromPage < MaxInt64 ->
  result (convertPDFToPage host Sprintf fuel c src fromPage toPage ext w)
  = Some (pages, err) ->
  exists k,
    pages = pagesOf Sprintf fromPage (workspace c ++ "/%d" ++ ext) 0 k
    /\ (k <= Z.to_nat (toPage - fromPage + 1))%nat
    /\ (err = None <-> k = Z.to_nat (toPage - fromPage + 1)).
Proof.
  intros fuel c src fromPage toPage ext w pages err Hf Ht Hr H.
  pose proof (D_exact fromPage toPage Hr) as HD.
  assert (Hfb : forall w1 r w2 t,
            inkscapeLoop host Sprintf fuel c src fromPage toPage
              (workspace c ++ "/%d" ++ ext) 0 [] w1 = (Some r, w2, t) ->
            exists k,
              fst r = pagesOf Sprintf fromPage (workspace c ++ "/%d" ++ ext) 0 k
              /\ (k <= Z.to_nat (toPage - fromPage + 1))%nat
              /\ (snd r = None <-> k = Z.to_nat (toPage - fromPage + 1))).
  { intros w1 r w2 t Hi. apply inkscapeLoop_protocol in Hi.
    destruct (FallbackRun_shape Sprintf c src fromPage toPage _ Hf Ht Hr
                _ _ _ _ Hi (Z.le_refl 0)) as (k & Hk & Hle & Hiff).
    rewrite HD in Hle, Hiff.
    replace (toPage - fromPage + 1 - 0) with (toPage - fromPage + 1) in *
      by lia.
    exists k. cbn [app] in Hk. auto. }
  unfold convertPDFToPage, convertPDFToPage_body, convertPDFToPageByInkscape
    in H.
  run_in H.
  destruct (h_ExecCommand host mutool (mutoolArgs c src fromPage toPage ext)
              [timeout c] w) as [[o [e|]] w1]; cbn [fst snd] in H.
  - destruct (inkscapeLoop host Sprintf fuel c src fromPage toPage _ 0 [] w1)
      as [[r w2] t2] eqn:Ei.
    cbn [fst] in H. subst r. destruct (Hfb _ _ _ _ Ei) as (k & Hk & Hle & Hiff).
    exists k. auto.
  - destruct (mutoolLoop host Sprintf fuel fromPage toPage _ 0 [] w1)
      as [[[[ps [e|]]|] w2] t2] eqn:Em.
    + destruct (inkscapeLoop host Sprintf fuel c src fromPage toPage _ 0 [] w2)
        as [[r w3] t3] eqn:Ei.
      cbn [fst] in H. subst r.
      destruct (Hfb _ _ _ _ Ei) as (k & Hk & Hle & Hiff). exists k. auto.
    + cbn [fst] in H. inversion H; subst.
      destruct (mutoolLoop_shape host Sprintf fromPage toPage _ Hf Ht Hr
                  _ _ _ _ _ _ _ _ (Z.le_refl 0) Em) as (k & Hk & Hle & Hiff).
      rewrite HD in Hle, Hiff.
      replace (toPage - fromPage + 1 - 0) with (toPage - fromPage + 1) in *
        by lia.
      exists k. cbn [app] in Hk. auto.
    + cbn [fst] in H. discriminate H.
Qed.

End ToolProps.

(** ** Counting pages, continued *)

Section CountingMoreProps.

Context {W : Type} (host : Host W).
Variable mapUnicodeToLower : string -> string.
Variable trimFuncIsSpace : string -> string.
Variable trimRightFuncIsSpace : string -> string.

Local Abbreviation ToLower := (strings.ToLower mapUnicodeToLower).
Local Abbreviation TrimSpace :=
  (strings.TrimSpace trimFuncIsSpace trimRightFuncIsSpace).
Local Abbreviation scan :=
  (scanLines mapUnicodeToLower trimFuncIsSpace trimRightFuncIsSpace).
Local Abbreviation parseLine :=
  (parsePageLine trimFuncIsSpace trimRightFuncIsSpace).
Local Abbreviation CountPages :=
  (CountPDFPages host mapUnicodeToLower trimFuncIsSpace trimRightFuncIsSpace).
Local Abbreviation positiveLine :=
  (positivePageLine mapUnicodeToLower trimFuncIsSpace trimRightFuncIsSpace).

(** X16.  [countPDFPagesV2] returns the count of the reader library when
    the file opens, and does not read the file then.  When the library
    panics it reads the file: a read error is returned with the count 0,
    and otherwise the count is the number of "0 R" in the bytes between the
    last "/Pages" and the next "endobj". *)
Theorem countPDFPagesV2_cases : forall file w,
  let r := countPDFPagesV2 host file w in
  (forall n,
     h_pdfRead host file w = PdfNumPage n ->
     r = ((n, None), w, [EvPdfRead file (PdfNumPage n)]))
  /\ (forall msg content e,
        h_pdfRead host file w = PdfPanic msg ->
        h_ReadFile host file w = (content, Some e) ->
        r = ((0, Some e), w,
             [EvPdfRead file (PdfPanic msg); EvReadFile file (Some e)]))
  /\ (forall msg content,
        h_pdfRead host file w = PdfPanic msg ->
        h_ReadFile host file w = (content, None) ->
        Z.of_nat (slen content) <= MaxInt64 ->
        r = ((Z.of_nat
                (occurrences "0 R"
                   (hd EmptyString
                      (strings.Split
                         (last (strings.Split content "/Pages") EmptyString)
                         "endobj"))),
              None),
             w, [EvPdfRead file (PdfPanic msg); EvReadFile file None])).
Proof.
  intros file w r. subst r. split; [|split].
  - intros n H. unfold countPDFPagesV2, getPdfPages. run. rewrite H. reflexivity.
  - intros msg content e H1 H2. unfold countPDFPagesV2, getPdfPages. run.
    rewrite H1, H2. reflexivity.
  - intros msg content H1 H2 H3. apply heuristic_after_panic; assumption.
Qed.

Lemma scanLines_skips : forall xs l rest p,
  positiveLine l ->
  (forall x, In x xs -> ~ positiveLine x) ->
  scan (xs ++ l :: rest) p = parseLine (TrimSpace (ToLower l)).
Proof.
  induction xs as [|x xs IH]; intros l rest p Hl Hxs; cbn [app scanLines].
  - destruct Hl as [Hp Hn]. rewrite Hp.
    apply Z.ltb_lt in Hn. rewrite Hn. reflexivity.
  - assert (Hx : ~ positiveLine x) by (apply Hxs; left; reflexivity).
    assert (Hxs' : forall y, In y xs -> ~ positiveLine y)
      by (intros y Hy; apply Hxs; right; exact Hy).
    destruct (strings.HasPrefix (TrimSpace (ToLower x)) "page") eqn:Ep;
      [|apply IH; assumption].
    destruct (0 <? parseLine (TrimSpace (ToLower x))) eqn:En;
      [|apply IH; assumption].
    exfalso. apply Hx. split; [exact Ep | apply Z.ltb_lt; exact En].
Qed.

(** X14.  When mutool succeeds, [CountPDFPages] returns the number of the
    last line of the output that counts (a line that starts with "page"
    and carries a positive number), whatever stands before that line. *)
Theorem CountPDFPages_last_page_line :
  forall c file w out w1 before l after,
  h_ExecCommand host mutool ["show"; file; "pages"] [timeout c] w
  = ((out, None), w1) ->
  strings.Split out newline = before ++ l :: after ->
  positiveLine l ->
  (forall x, In x after -> ~ positiveLine x) ->
  CountPages c file w
  = ((parseLine (TrimSpace (ToLower l)), None), w1,
     [EvExec mutool ["show"; file; "pages"] [timeout c] out None]).
Proof.
  intros c file w out w1 before l after Hx Hs Hl Ha.
  unfold CountPDFPages. run. rewrite Hx. cbn [fst snd]. rewrite Hs.
  rewrite rev_app_distr. cbn [rev]. rewrite <- app_assoc. cbn [app].
  rewrite scanLines_skips; [reflexivity | exact Hl |].
  intros x Hin. apply Ha. apply in_rev. exact Hin.
Qed.

End CountingMoreProps.

(** ** Splitting at a single byte *)

Section SplitByte.

Variable ch : ascii.

Local Abbreviation sep := (String ch EmptyString).

Lemma sep_nonempty : sep <> EmptyString.
Proof. discriminate. Qed.

Lemma prefix_sep_same : forall x, String.prefix sep (String ch x) = true.
Proof.
  intros x. cbn [String.prefix]. destruct (ascii_dec ch ch); [|congruence].
  apply prefix_nil.
Qed.

Lemma prefix_sep_other : forall c x,
  notByte ch c = true -> String.prefix sep (String c x) = false.
Proof.
  intros c x H. cbn [String.prefix]. destruct (ascii_dec ch c) as [E|E];
    [|reflexivity].
  subst c. unfold notByte in H. rewrite Ascii.eqb_refl in H. discriminate.
Qed.

Lemma Split1_nil : strings.Split EmptyString sep = [EmptyString].
Proof. reflexivity. Qed.

Lemma Split1_sep : forall x,
  strings.Split (String ch x) sep = EmptyString :: strings.Split x sep.
Proof.
  intros x. unfold strings.Split.
  rewrite (Count_match sep sep_nonempty) by apply prefix_sep_same.
  cbn [strings.splitLoop]. rewrite Index_prefix by apply prefix_sep_same.
  reflexivity.
Qed.

Lemma splitLoop_other : forall n c x,
  notByte ch c = true ->
  strings.splitLoop n (String c x) sep
  = match strings.splitLoop n x sep with
    | h :: t => String c h :: t
    | [] => []
    end.
Proof.
  intros [|n] c x H; cbn [strings.splitLoop]; [reflexivity|].
  rewrite Index_cons by (apply prefix_sep_other; exact H).
  destruct (strings.Index x sep) as [m|]; reflexivity.
Qed.

Lemma Split1_other : forall c x,
  notByte ch c = true ->
  strings.Split (String c x) sep
  = match strings.Split x sep with
    | h :: t => String c h :: t
    | [] => []
    end.
Proof.
  intros c x H. unfold strings.Split.
  rewrite (Count_step sep sep_nonempty) by (apply prefix_sep_other; exact H).
  apply splitLoop_other, H.
Qed.

Lemma Split1_plain : forall a,
  allBytes (notByte ch) a = true -> strings.Split a sep = [a].
Proof.
  induction a as [|c a IH]; intros H; [reflexivity|].
  cbn [allBytes] in H. apply andb_true_iff in H. destruct H as [Hc Ha].
  rewrite Split1_other by exact Hc. rewrite IH by exact Ha. reflexivity.
Qed.

Lemma Split1_app : forall a b,
  strings.Split (a ++ String ch b) sep
  = strings.Split a sep ++ strings.Split b sep.
Proof.
  induction a as [|c a IH]; intros b; cbn [append].
  - rewrite Split1_sep. reflexivity.
  - destruct (Ascii.eqb c ch) eqn:E.
    + apply Ascii.eqb_eq in E. subst c. rewrite !Split1_sep, IH. reflexivity.
    + assert (Hc : notByte ch c = true) by (unfold notByte; rewrite E; reflexivity).
      rewrite !Split1_other by exact Hc. rewrite IH.
      pose proof (Split_length_pos a sep) as Hl.
      destruct (strings.Split a sep) as [|h t]; [cbn in Hl; lia|]. reflexivity.
Qed.

Lemma hd_Split1 : forall a b,
  allBytes (notByte ch) a = true ->
  hd EmptyString (strings.Split (a ++ String ch b) sep) = a.
Proof.
  intros a b H. rewrite Split1_app, Split1_plain by exact H. reflexivity.
Qed.

End SplitByte.

(** ** Bytes of numbers *)

Lemma digit_facts : forall c,
  strconv.isDigit c = true ->
  strings.isASCIIByte c = true /\ strings.asciiSpace c = false
  /\ strings.lowerByte c = c /\ notByte "=" c = true
  /\ notByte "010" c = true /\ Ascii.eqb c "-" = false
  /\ Ascii.eqb c "+" = false.
Proof.
  intros [[] [] [] [] [] [] [] []] H; try discriminate H;
    repeat split; reflexivity.
Qed.

Lemma string_of_uint_isDigit : forall d,
  allBytes strconv.isDigit (NilEmpty.string_of_uint d) = true.
Proof. induction d; cbn [NilEmpty.string_of_uint allBytes]; auto. Qed.

Lemma digits_of_uint_acc : forall d p,
  strconv.digits (Z.pos p) (NilEmpty.string_of_uint d)
  = Some (Z.pos (Pos.of_uint_acc d p)).
Proof.
  induction d; intros p;
    cbn [NilEmpty.string_of_uint strconv.digits Pos.of_uint_acc];
    try reflexivity;
    match goal with
    | |- context [strconv.isDigit ?c] =>
        change (strconv.isDigit c) with true; cbv iota
    end;
    match goal with
    | |- strconv.digits ?z _ = Some (Z.pos (Pos.of_uint_acc _ ?q)) =>
        replace z with (Z.pos q)
          by (match goal with
              | |- context [Z.of_nat ?t] =>
                  let v := eval vm_compute in (Z.of_nat t) in
                  change (Z.of_nat t) with v
              end; lia)
    end; apply IHd.
Qed.

Lemma digits_of_uint : forall d,
  strconv.digits 0 (NilEmpty.string_of_uint d) = Some (Z.of_N (Pos.of_uint d)).
Proof.
  induction d;
    cbn [NilEmpty.string_of_uint strconv.digits Pos.of_uint];
    try reflexivity;
    match goal with
    | |- context [strconv.isDigit ?c] =>
        change (strconv.isDigit c) with true; cbv iota
    end;
    [exact IHd | ..];
    match goal with
    | |- strconv.digits ?z _ = Some (Z.of_N (N.pos (Pos.of_uint_acc _ ?q))) =>
        change z with (Z.pos q)
    end; apply digits_of_uint_acc.
Qed.

Lemma Itoa_pos : forall p,
  strconv.Itoa (Z.pos p) = NilEmpty.string_of_uint (Pos.to_uint p).
Proof.
  intros p. unfold strconv.Itoa. cbn [Z.to_int NilZero.string_of_int].
  unfold NilZero.string_of_uint.
  pose proof (Unsigned.to_uint_nonnil p) as H.
  destruct (Pos.to_uint p); [congruence | reflexivity ..].
Qed.

Lemma Itoa_isDigit : forall n,
  0 < n -> allBytes strconv.isDigit (strconv.Itoa n) = true.
Proof.
  intros [|p|p] H; try lia. rewrite Itoa_pos. apply string_of_uint_isDigit.
Qed.

Lemma Itoa_nonempty : forall n, 0 < n -> strconv.Itoa n <> EmptyString.
Proof.
  intros [|p|p] H; try lia. rewrite Itoa_pos.
  pose proof (Unsigned.to_uint_nonnil p) as Hn.
  destruct (Pos.to_uint p); [congruence | discriminate ..].
Qed.

(** What [strconv.Itoa] prints, [strconv.Atoi] reads back, up to the
    largest [int]; beyond it the value read is the largest [int]. *)
Lemma Atoi_Itoa : forall n,
  0 < n -> fst (strconv.Atoi (strconv.Itoa n)) = Z.min n MaxInt64.
Proof.
  intros n H. pose proof (Itoa_isDigit n H) as Hd.
  pose proof (Itoa_nonempty n H) as Hn.
  assert (Hv : strconv.digits 0 (strconv.Itoa n) = Some n).
  { destruct n as [|p|p]; try lia. rewrite Itoa_pos, digits_of_uint.
    rewrite DecimalPos.Unsigned.of_to. reflexivity. }
  destruct (strconv.Itoa n) as [|c rest] eqn:E; [congruence|].
  cbn [allBytes] in Hd. apply andb_true_iff in Hd. destruct Hd as [Hc _].
  destruct (digit_facts c Hc) as (_ & _ & _ & _ & _ & Hm & Hp).
  unfold strconv.Atoi. rewrite Hm, Hp. cbn [orb negb andb]. rewrite Hv.
  unfold MaxInt64. destruct (2 ^ 63 <=? n) eqn:El; cbn [fst].
  - apply Z.leb_le in El. lia.
  - apply Z.leb_gt in El. lia.
Qed.

(** ** Lower case and trimming on ASCII text *)

Lemma isASCII_allBytes : forall s,
  strings.isASCII s = allBytes strings.isASCIIByte s.
Proof. induction s as [|c s IH]; cbn; [reflexivity | now rewrite IH]. Qed.

Lemma mapBytes_app : forall f a b,
  strings.mapBytes f (a ++ b) = (strings.mapBytes f a ++ strings.mapBytes f b)%string.
Proof.
  intros f. induction a as [|c a IH]; intros b; cbn; [reflexivity|].
  now rewrite IH.
Qed.

Lemma lowerByte_ascii : forall c,
  strings.isASCIIByte c = true ->
  strings.isASCIIByte (strings.lowerByte c) = true.
Proof. intros [[] [] [] [] [] [] [] []] H; try discriminate H; reflexivity. Qed.

Lemma lowerByte_keeps_line : forall c,
  notByte "010" c = true -> notByte "010" (strings.lowerByte c) = true.
Proof. intros [[] [] [] [] [] [] [] []] H; try discriminate H; reflexivity. Qed.

Lemma mapBytes_lower_ascii : forall s,
  strings.isASCII s = true ->
  strings.isASCII (strings.mapBytes strings.lowerByte s) = true.
Proof.
  induction s as [|c s IH]; cbn [strings.isASCII strings.mapBytes]; intros H;
    [reflexivity|].
  apply andb_true_iff in H. destruct H as [Hc Hs].
  rewrite lowerByte_ascii, IH by assumption. reflexivity.
Qed.

Lemma mapBytes_lower_digits : forall s,
  allBytes strconv.isDigit s = true ->
  strings.mapBytes strings.lowerByte s = s.
Proof.
  induction s as [|c s IH]; cbn [allBytes strings.mapBytes]; intros H;
    [reflexivity|].
  apply andb_true_iff in H. destruct H as [Hc Hs].
  destruct (digit_facts c Hc) as (_ & _ & Hl & _). rewrite Hl, IH by exact Hs.
  reflexivity.
Qed.

Lemma allBytes_digits : forall (P : ascii -> bool) s,
  (forall c, strconv.isDigit c = true -> P c = true) ->
  allBytes strconv.isDigit s = true -> allBytes P s = true.
Proof. intros P s H. apply allBytes_impl. exact H. Qed.

Section TrimProps.

Variable trimFuncIsSpace : string -> string.
Variable trimRightFuncIsSpace : string -> string.

Local Abbreviation TrimSpace :=
  (strings.TrimSpace trimFuncIsSpace trimRightFuncIsSpace).
Local Abbreviation stop := (strings.trimSpaceStop trimRightFuncIsSpace).

(** Trimming from the end stops at the first byte that is no space: what
    stands before that byte stays. *)
Lemma trimSpaceStop_tail : forall r c q,
  strings.isASCII r = true ->
  strings.isASCIIByte c = true -> strings.asciiSpace c = false ->
  exists r2, stop (r ++ String c q) = srev (r2 ++ String c q).
Proof.
  induction r as [|a r IH]; intros c q Hr Hc Hs;
    cbn [append strings.trimSpaceStop].
  - rewrite Hc, Hs. cbn [negb]. exists EmptyString. reflexivity.
  - cbn [strings.isASCII] in Hr. apply andb_true_iff in Hr.
    destruct Hr as [Ha Hr]. rewrite Ha. cbn [negb].
    destruct (strings.asciiSpace a).
    + apply IH; assumption.
    + exists (String a r). reflexivity.
Qed.

Lemma TrimSpace_tail : forall a c b,
  a <> EmptyString ->
  strings.isASCII (a ++ String c b) = true ->
  strings.asciiSpace (match a with String x _ => x | EmptyString => c end)
  = false ->
  strings.asciiSpace c = false ->
  exists t, TrimSpace (a ++ String c b) = (a ++ String c t)%string.
Proof.
  intros a c b Ha Hascii Hfirst Hc.
  destruct a as [|x a']; [congruence|].
  rewrite isASCII_allBytes, allBytes_app in Hascii.
  apply andb_true_iff in Hascii. destruct Hascii as [Hxa Hcb].
  cbn [allBytes] in Hxa, Hcb.
  apply andb_true_iff in Hxa. destruct Hxa as [Hx Ha'].
  apply andb_true_iff in Hcb. destruct Hcb as [Hcc Hb].
  cbn [append strings.TrimSpace]. rewrite Hx, Hfirst. cbn [negb].
  change (String x (a' ++ String c b)) with (String x a' ++ String c b)%string.
  rewrite srev_app, srev_cons, sapp_assoc. cbn [append].
  destruct (trimSpaceStop_tail (srev b) c (srev (String x a'))) as [r2 H].
  - rewrite isASCII_allBytes, allBytes_srev. exact Hb.
  - exact Hcc.
  - exact Hc.
  - rewrite H. rewrite srev_app, srev_cons, srev_involutive, sapp_assoc.
    exists (srev r2). reflexivity.
Qed.

Lemma TrimSpace_padded_digits : forall s,
  s <> EmptyString -> allBytes strconv.isDigit s = true ->
  TrimSpace (" " ++ s ++ " ") = s.
Proof.
  intros s Hn Hd. cbn [append strings.TrimSpace].
  change (strings.isASCIIByte " ") with true.
  change (strings.asciiSpace " ") with true. cbn [negb].
  destruct s as [|d ds] eqn:Es; [congruence|]. rewrite <- Es in *.
  assert (Hr : allBytes strconv.isDigit (srev s) = true)
    by (rewrite allBytes_srev; exact Hd).
  assert (Hlen : srev s <> EmptyString).
  { intros H. apply (f_equal srev) in H. rewrite srev_involutive in H.
    cbn in H. congruence. }
  rewrite Es at 1. cbn [append strings.TrimSpace].
  cbn [allBytes] in Hd. rewrite Es in Hd. cbn [allBytes] in Hd.
  apply andb_true_iff in Hd. destruct Hd as [Hdd _].
  destruct (digit_facts d Hdd) as (Ha & Hs & _). rewrite Ha, Hs. cbn [negb].
  change (String d (ds ++ " ")) with (String d ds ++ " ")%string.
  rewrite <- Es. rewrite srev_app. cbn [srev srev_onto append].
  cbn [strings.trimSpaceStop].
  change (strings.isASCIIByte " ") with true.
  change (strings.asciiSpace " ") with true. cbn [negb].
  fold (srev s).
  destruct (srev s) as [|e es] eqn:Er; [congruence|].
  cbn [allBytes] in Hr. apply andb_true_iff in Hr. destruct Hr as [He _].
  destruct (digit_facts e He) as (Ha' & Hs' & _).
  cbn [strings.trimSpaceStop]. rewrite Ha', Hs'. cbn [negb].
  rewrite <- Er. apply srev_involutive.
Qed.

End TrimProps.

Lemma HasSuffix_split : forall s suf,
  strings.HasSuffix s suf = true -> exists pre, s = (pre ++ suf)%string.
Proof.
  intros s suf H. unfold strings.HasSuffix in H. apply prefix_split in H.
  apply (f_equal srev) in H.
  rewrite srev_involutive, srev_app, srev_involutive in H.
  eexists. exact H.
Qed.

Lemma TrimLeft_page : forall x,
  strings.TrimLeft ("page " ++ x) "page" = (" " ++ x)%string.
Proof. reflexivity. Qed.

Lemma pageLine_bytes : forall (P : ascii -> bool) n rest,
  0 < n ->
  (forall c, strconv.isDigit c = true -> P c = true) ->
  allBytes P "page = " = true ->
  allBytes P rest = true ->
  allBytes P (pageLine n rest) = true.
Proof.
  intros P n rest Hn Hd Hlit Hrest. unfold pageLine.
  rewrite !allBytes_app, Hrest.
  rewrite (allBytes_digits P _ Hd (Itoa_isDigit n Hn)).
  cbn [allBytes] in Hlit |- *.
  repeat (apply andb_true_iff in Hlit; destruct Hlit as [? Hlit]).
  repeat (apply andb_true_iff; split); assumption.
Qed.

Section ListingProps.

Context {W : Type} (host : Host W).
Variable mapUnicodeToLower : string -> string.
Variable trimFuncIsSpace : string -> string.
Variable trimRightFuncIsSpace : string -> string.

Local Abbreviation ToLower := (strings.ToLower mapUnicodeToLower).
Local Abbreviation TrimSpace :=
  (strings.TrimSpace trimFuncIsSpace trimRightFuncIsSpace).
Local Abbreviation scan :=
  (scanLines mapUnicodeToLower trimFuncIsSpace trimRightFuncIsSpace).
Local Abbreviation parseLine :=
  (parsePageLine trimFuncIsSpace trimRightFuncIsSpace).
Local Abbreviation CountPages :=
  (CountPDFPages host mapUnicodeToLower trimFuncIsSpace trimRightFuncIsSpace).
Local Abbreviation positiveLine :=
  (positivePageLine mapUnicodeToLower trimFuncIsSpace trimRightFuncIsSpace).

Lemma pageLine_parsed : forall n rest,
  0 < n ->
  strings.isASCII rest = true ->
  strings.HasPrefix (TrimSpace (ToLower (pageLine n rest))) "page" = true
  /\ parseLine (TrimSpace (ToLower (pageLine n rest))) = Z.min n MaxInt64.
Proof.
  intros n rest Hn Hrest.
  pose proof (Itoa_isDigit n Hn) as Hd.
  pose proof (Itoa_nonempty n Hn) as Hne.
  assert (Hascii : strings.isASCII (pageLine n rest) = true).
  { rewrite isASCII_allBytes. apply pageLine_bytes; [lia | | reflexivity |].
    - intros c Hc. apply (digit_facts c Hc).
    - rewrite <- isASCII_allBytes. exact Hrest. }
  rewrite ToLower_ascii by exact Hascii.
  unfold pageLine. rewrite !mapBytes_app.
  rewrite (mapBytes_lower_digits (strconv.Itoa n) Hd).
  change (strings.mapBytes strings.lowerByte "page ") with "page ".
  change (strings.mapBytes strings.lowerByte " = ") with " = ".
  set (rest' := strings.mapBytes strings.lowerByte rest).
  set (a := ("page " ++ strconv.Itoa n ++ " ")%string).
  assert (Hform : ("page " ++ strconv.Itoa n ++ " = " ++ rest')%string
                  = (a ++ String "=" (" " ++ rest'))%string).
  { subst a. rewrite !sapp_assoc. reflexivity. }
  rewrite Hform.
  destruct (TrimSpace_tail trimFuncIsSpace trimRightFuncIsSpace
              a "=" (" " ++ rest')%string) as [t Ht].
  - discriminate.
  - rewrite <- Hform. rewrite isASCII_allBytes, !allBytes_app.
    rewrite (allBytes_digits strings.isASCIIByte _
               (fun c Hc => proj1 (digit_facts c Hc)) Hd).
    rewrite <- (isASCII_allBytes rest'). subst rest'.
    rewrite mapBytes_lower_ascii by exact Hrest. reflexivity.
  - reflexivity.
  - reflexivity.
  - rewrite Ht. split.
    + unfold strings.HasPrefix. subst a.
      change ("page " ++ strconv.Itoa n ++ " ")%string
        with ("page" ++ (" " ++ strconv.Itoa n ++ " "))%string.
      rewrite sapp_assoc. apply prefix_app.
    + unfold parsePageLine. rewrite hd_Split1.
      * subst a. rewrite TrimLeft_page.
        rewrite TrimSpace_padded_digits by assumption.
        apply Atoi_Itoa, Hn.
      * subst a. rewrite !allBytes_app.
        rewrite (allBytes_digits (notByte "=") _
                   (fun c Hc => proj1 (proj2 (proj2 (proj2 (digit_facts c Hc)))))
                   Hd).
        reflexivity.
Qed.

(** X15.  When the output of mutool ends with a line "page N = ..." in
    ASCII, with N positive, with or without a final line feed,
    [CountPDFPages] returns N and a nil error, whatever the lines
    before.  A number beyond the largest [int] is returned as the largest
    [int], still with a nil error: the range error of [strconv.Atoi] is
    dropped. *)
Theorem CountPDFPages_mutool_listing :
  forall c file w lead n rest tail w1,
  h_ExecCommand host mutool ["show"; file; "pages"] [timeout c] w
  = (((lead ++ pageLine n rest ++ tail)%string, None), w1) ->
  lead = EmptyString \/ strings.HasSuffix lead newline = true ->
  tail = EmptyString \/ tail = newline ->
  0 < n ->
  strings.isASCII rest = true ->
  allBytes (notByte "010") rest = true ->
  CountPages c file w
  = ((Z.min n MaxInt64, None), w1,
     [EvExec mutool ["show"; file; "pages"] [timeout c]
        (lead ++ pageLine n rest ++ tail) None]).
Proof.
  intros c file w lead n rest tail w1 Hx Hlead Htail Hn Hascii Hline.
  destruct (pageLine_parsed n rest Hn Hascii) as [Hp Hv].
  assert (Hplain : allBytes (notByte "010") (pageLine n rest) = true).
  { apply pageLine_bytes; [lia | | reflexivity | exact Hline].
    intros ch Hc. apply (digit_facts ch Hc). }
  assert (Hlast : exists after,
            strings.Split (pageLine n rest ++ tail) newline
            = pageLine n rest :: after
            /\ forall x, In x after -> x = EmptyString).
  { unfold newline. destruct Htail as [-> | ->].
    - rewrite sapp_nil_r, Split1_plain by exact Hplain.
      exists []. split; [reflexivity | intros x []].
    - unfold newline. rewrite Split1_app, Split1_plain by exact Hplain.
      exists [EmptyString]. split; [reflexivity|].
      intros x [<- | []]. reflexivity. }
  destruct Hlast as (after & Hsplit & Hafter).
  assert (Hall : exists before,
            strings.Split (lead ++ pageLine n rest ++ tail) newline
            = before ++ pageLine n rest :: after).
  { destruct Hlead as [-> | Hs].
    - exists []. exact Hsplit.
    - apply HasSuffix_split in Hs. destruct Hs as [pre ->].
      unfold newline in *. rewrite sapp_assoc. cbn [append].
      rewrite Split1_app, Hsplit. eexists. reflexivity. }
  destruct Hall as [before Hall].
  unfold CountPDFPages. run. rewrite Hx. cbn [fst snd]. rewrite Hall.
  rewrite rev_app_distr. cbn [rev]. rewrite <- app_assoc. cbn [app].
  rewrite (scanLines_skips mapUnicodeToLower trimFuncIsSpace
             trimRightFuncIsSpace).
  - rewrite Hv. reflexivity.
  - split; [exact Hp | rewrite Hv; unfold MaxInt64; lia].
  - intros x Hin. apply in_rev in Hin. apply Hafter in Hin. subst x.
    intros [H _]. discriminate H.
Qed.

End ListingProps.

Lemma countByPattern_nil_error : forall file content,
  snd (countByPattern file content) = None.
Proof.
  intros file content. unfold countByPattern.
  pose proof (Split_length_pos content "/Pages") as H1.
  destruct (List.length (strings.Split content "/Pages")) as [|l1] eqn:E1;
    [lia|].
  change (0 <? S l1)%nat with true. cbv iota.
  pose proof (Split_length_pos
                (nth (S l1 - 1) (strings.Split content "/Pages") EmptyString)
                "endobj") as H2.
  destruct (List.length
              (strings.Split
                 (nth (S l1 - 1) (strings.Split content "/Pages") EmptyString)
                 "endobj")) as [|l2] eqn:E2; [lia|].
  reflexivity.
Qed.

Section ErrorProps.

Context {W : Type} (host : Host W).
Variable mapUnicodeToLower : string -> string.
Variable trimFuncIsSpace : string -> string.
Variable trimRightFuncIsSpace : string -> string.

Local Abbreviation CountPages :=
  (CountPDFPages host mapUnicodeToLower trimFuncIsSpace trimRightFuncIsSpace).

(** X17.  [CountPDFPages] returns an error in one case only: mutool has
    failed, the reader library has panicked, and the file cannot be
    read. *)
Theorem CountPDFPages_error_iff : forall c file w,
  snd (result (CountPages c file w)) <> None
  <-> exists out e w1 msg content e2,
        h_ExecCommand host mutool ["show"; file; "pages"] [timeout c] w
        = ((out, Some e), w1)
        /\ h_pdfRead host file w1 = PdfPanic msg
        /\ h_ReadFile host file w1 = (content, Some e2).
Proof.
  intros c file w. unfold CountPDFPages, countPDFPagesV2, getPdfPages. run.
  destruct (h_ExecCommand host mutool ["show"; file; "pages"] [timeout c] w)
    as [[out [e|]] w1]; cbn [fst snd].
  - destruct (h_pdfRead host file w1) as [msg|oe|n] eqn:Ep; cbn [fst snd].
    + destruct (h_ReadFile host file w1) as [content [e2|]] eqn:Er;
        cbn [fst snd negb].
      * split; [|discriminate]. intros _.
        exists out, e, w1, msg, content, e2. auto.
      * pose proof (countByPattern_nil_error file content) as Hc.
        destruct (countByPattern file content) as [n ce]. cbn [snd] in Hc.
        subst ce. split; [congruence|].
        intros (o & e' & w' & m & ct & e2 & H1 & H2 & H3).
        inversion H1; subst. rewrite Er in H3. discriminate H3.
    + split; [congruence|].
      intros (o & e' & w' & m & ct & e2 & H1 & H2 & H3).
      inversion H1; subst. rewrite Ep in H2. discriminate H2.
    + split; [congruence|].
      intros (o & e' & w' & m & ct & e2 & H1 & H2 & H3).
      inversion H1; subst. rewrite Ep in H2. discriminate H2.
  - split; [congruence|].
    intros (o & e' & w' & m & ct & e2 & H1 & _). discriminate H1.
Qed.

End ErrorProps.

(** ** Files of the workspace *)

Lemma dirScan_name : forall a r,
  allBytes notSep a = true ->
  filepath.dirScan (a ++ String "/" r) = String "/" r.
Proof.
  induction a as [|x a IH]; intros r H; cbn [append filepath.dirScan].
  - reflexivity.
  - cbn [allBytes] in H. apply andb_true_iff in H. destruct H as [Hx Ha].
    unfold notSep in Hx. apply negb_true_iff in Hx. rewrite Hx.
    apply IH, Ha.
Qed.

(** The directory of a file that stands directly in [dir]. *)
Lemma Dir_app_name : forall dir name,
  allBytes notSep name = true ->
  filepath.Dir (dir ++ "/" ++ name) = filepath.Clean (dir ++ "/").
Proof.
  intros dir name H. unfold filepath.Dir.
  rewrite srev_app. cbn [append]. rewrite srev_cons, sapp_assoc.
  cbn [append]. rewrite dirScan_name by (rewrite allBytes_srev; exact H).
  rewrite srev_cons, srev_involutive. reflexivity.
Qed.

(** A path of plain names is clean, with or without a separator at its
    end. *)
Lemma Clean_trailing_sep : forall ns,
  ns <> [] -> Forall (fun e => plainElem e = true) ns ->
  filepath.Clean (String.concat "/" ns ++ "/") = String.concat "/" ns.
Proof.
  intros ns Hns Hall.
  assert (Hel : filepath.elements (String.concat "/" ns ++ "/" ++ "")
                = ns ++ [EmptyString]).
  { rewrite elements_app_sep, concat_plain_elements by assumption.
    reflexivity. }
  destruct ns as [|n ns]; [congruence|].
  inversion Hall as [|? ? Hn Hrest]; subst.
  pose proof (plainElem_nonempty n Hn) as Hne.
  pose proof (plainElem_notSep n Hn) as Hsep.
  destruct n as [|x n]; [congruence|].
  cbn [allBytes] in Hsep. apply andb_true_iff in Hsep. destruct Hsep as [Hx _].
  unfold notSep in Hx. apply negb_true_iff in Hx.
  assert (Hform : exists rest, String.concat "/" (String x n :: ns)
                               = String x rest).
  { destruct ns; simpl; eauto. }
  destruct Hform as [rest Hform].
  unfold filepath.Clean.
  change (String.concat "/" (String x n :: ns) ++ "/")%string
    with (String.concat "/" (String x n :: ns) ++ "/" ++ "")%string.
  rewrite Hel. rewrite Hform. cbn [append filepath.isRooted]. rewrite Hx.
  rewrite fold_left_app.
  rewrite (fold_cleanStep_plain false (String x n :: ns) []) by assumption.
  cbn [fold_left filepath.cleanStep String.eqb orb].
  rewrite app_nil_r, rev_involutive. unfold filepath.render.
  rewrite Hform. reflexivity.
Qed.

Lemma Dir_in_plain_dir : forall ns name,
  ns <> [] -> Forall (fun e => plainElem e = true) ns ->
  allBytes notSep name = true ->
  filepath.Dir (String.concat "/" ns ++ "/" ++ name) = String.concat "/" ns.
Proof.
  intros ns name Hns Hall Hname.
  rewrite Dir_app_name by exact Hname. apply Clean_trailing_sep; assumption.
Qed.

Lemma Itoa_neg : forall p,
  strconv.Itoa (Z.neg p)
  = String "-" (NilEmpty.string_of_uint (Pos.to_uint p)).
Proof.
  intros p. unfold strconv.Itoa. cbn [Z.to_int NilZero.string_of_int].
  unfold NilZero.string_of_uint.
  pose proof (Unsigned.to_uint_nonnil p) as H.
  destruct (Pos.to_uint p); [congruence | reflexivity ..].
Qed.

(** A number in decimal holds no separator. *)
Lemma Itoa_notSep : forall n, allBytes notSep (strconv.Itoa n) = true.
Proof.
  assert (Hd : forall c, strconv.isDigit c = true -> notSep c = true).
  { intros [[] [] [] [] [] [] [] []] H; try discriminate H; reflexivity. }
  intros [|p|p].
  - reflexivity.
  - rewrite Itoa_pos. apply (allBytes_digits notSep _ Hd).
    apply string_of_uint_isDigit.
  - rewrite Itoa_neg. cbn [allBytes].
    rewrite (allBytes_digits notSep _ Hd (string_of_uint_isDigit _)).
    reflexivity.
Qed.

Section WorkspaceFiles.

Context {W : Type} (host : Host W).
Variable mapUnicodeToLower : string -> string.
Variable Sprintf : string -> Z -> string.

Local Abbreviation ToLower := (strings.ToLower mapUnicodeToLower).

(** X18.  For a workspace that is a path of plain names, as [makeWorkspace]
    makes them, the directory the Calibre path creates before it runs
    ebook-convert is the workspace itself, and the result is the file
    "dst.pdf" in it, returned with the error of the command. *)
Theorem convertToPDFByCalibre_prepares_workspace : forall c src w ns,
  ns <> [] -> Forall (fun e => plainElem e = true) ns ->
  workspace c = String.concat "/" ns ->
  exists out err,
    trace (convertToPDFByCalibre host c src w)
    = [EvMkdirAll (workspace c);
       EvExec ebookConvert
         [src; (workspace c ++ "/dst.pdf")%string; "--paper-size"; "a4";
          "--pdf-page-margin-bottom"; "36"; "--pdf-page-margin-left"; "36";
          "--pdf-page-margin-right"; "36"; "--pdf-page-margin-top"; "36"]
         [timeout c] out err]
    /\ result (convertToPDFByCalibre host c src w)
       = ((workspace c ++ "/dst.pdf")%string, err).
Proof.
  intros c src w ns Hns Hall Hws. unfold convertToPDFByCalibre.
  assert (Hdir : filepath.Dir (workspace c ++ "/dst.pdf") = workspace c).
  { rewrite Hws. apply (Dir_in_plain_dir ns "dst.pdf"); auto. }
  rewrite Hdir. run.
  destruct (h_MkdirAll host (workspace c) w) as [e1 w1].
  destruct (h_ExecCommand host ebookConvert _ [timeout c] w1) as [[o e] w2].
  exists o, e. split; reflexivity.
Qed.

(** X19.  Whatever [ConvertToPDF] has returned, giving that path to
    [ConvertToPDF] again takes the path for PDF files and returns
    "dst.pdf" of the workspace; after a PDF or an ebook this second call
    copies the file onto itself. *)
Theorem ConvertToPDF_second_pass : forall c src w w2,
  let dst := fst (result (ConvertToPDF host mapUnicodeToLower c src w)) in
  ConvertToPDF host mapUnicodeToLower c dst w2 = PDFToPDF host c dst w2
  /\ fst (result (ConvertToPDF host mapUnicodeToLower c dst w2))
     = (workspace c ++ "/dst.pdf")%string
  /\ (In (ToLower (filepath.Ext src)) (".pdf" :: ebookExtensions) ->
      exists e,
        trace (ConvertToPDF host mapUnicodeToLower c dst w2)
        = [EvCopyFile dst dst e]).
Proof.
  intros c src w w2 dst.
  destruct (ConvertToPDF_shape host mapUnicodeToLower c src w)
    as [stem [Hs Hstem]].
  fold dst in Hs.
  assert (Hext : ToLower (filepath.Ext dst) = ".pdf").
  { rewrite Hs.
    replace (workspace c ++ "/" ++ stem ++ ".pdf")%string
      with ((workspace c ++ "/" ++ stem) ++ String "." "pdf")%string
      by (rewrite !sapp_assoc; reflexivity).
    rewrite Ext_app by reflexivity. reflexivity. }
  assert (Hroute : ConvertToPDF host mapUnicodeToLower c dst
                   = PDFToPDF host c dst).
  { unfold ConvertToPDF. rewrite Hext. reflexivity. }
  rewrite Hroute. split; [reflexivity|].
  unfold PDFToPDF. run.
  destruct (h_CopyFile host dst (workspace c ++ "/dst.pdf") w2) as [e w3] eqn:E.
  split; [reflexivity|].
  intros Hin. apply Hstem in Hin. subst stem. cbn [append] in Hs.
  exists e. cbn [app]. rewrite <- Hs. reflexivity.
Qed.

End WorkspaceFiles.

Section PagePathProps.

Context {W : Type} (host : Host W).
Variable Sprintf : string -> Z -> string.

Local Abbreviation fromFormat fmt :=
  (fun p : Page => exists n, PagePath p = Sprintf fmt n).

Lemma mutoolLoop_paths : forall fuel fromPage toPage fmt i pages w ps e w' t,
  Forall (fromFormat fmt) pages ->
  mutoolLoop host Sprintf fuel fromPage toPage fmt i pages w
  = (Some (ps, e), w', t) ->
  Forall (fromFormat fmt) ps.
Proof.
  induction fuel as [|fuel IH];
    intros fromPage toPage fmt i pages w ps e w' t Hp H;
    cbn [mutoolLoop] in H; [discriminate H|].
  destruct (i <=? int_sub toPage fromPage).
  - run_in H.
    destruct (h_Stat host (pagePathOf Sprintf fmt i) w) as [e1|].
    + inversion H; subst. exact Hp.
    + destruct (mutoolLoop host Sprintf fuel fromPage toPage fmt (int_add i 1)
                  (pages ++ [mkPage (int_add fromPage i)
                               (pagePathOf Sprintf fmt i)]) w)
        as [[r w2] t2] eqn:Er.
      inversion H; subst.
      eapply IH; [|exact Er].
      apply Forall_app. split; [exact Hp|].
      constructor; [|constructor]. eexists. reflexivity.
  - run_in H. inversion H; subst. exact Hp.
Qed.

Lemma FallbackRun_paths : forall c src fromPage toPage fmt i pages t r,
  FallbackRun Sprintf c src fromPage toPage fmt i pages t r ->
  Forall (fromFormat fmt) pages ->
  Forall (fromFormat fmt) (fst r).
Proof.
  induction 1 as [i pages Hend | i pages ta t r Hle Ha _ IH
                  | i pages ta msg Hle Ha | i pages ta msg Hle Ha];
    intros Hp; cbn [fst]; try exact Hp.
  apply IH. apply Forall_app. split; [exact Hp|].
  constructor; [|constructor]. eexists. reflexivity.
Qed.

Lemma convertPDFToPage_paths :
  forall fuel c src fromPage toPage ext w pages err,
  result (convertPDFToPage host Sprintf fuel c src fromPage toPage ext w)
  = Some (pages, err) ->
  Forall (fromFormat (workspace c ++ "/%d" ++ ext)%string) pages.
Proof.
  intros fuel c src fromPage toPage ext w pages err H.
  unfold convertPDFToPage, convertPDFToPage_body, convertPDFToPageByInkscape
    in H.
  run_in H.
  destruct (h_ExecCommand host mutool (mutoolArgs c src fromPage toPage ext)
              [timeout c] w) as [[o [e|]] w1]; cbn [fst snd] in H.
  - destruct (inkscapeLoop host Sprintf fuel c src fromPage toPage _ 0 [] w1)
      as [[r w2] t2] eqn:Ei.
    cbn [fst] in H. subst r. apply inkscapeLoop_protocol in Ei.
    apply (FallbackRun_paths _ _ _ _ _ _ _ _ _ Ei). constructor.
  - destruct (mutoolLoop host Sprintf fuel fromPage toPage _ 0 [] w1)
      as [[[[ps [e|]]|] w2] t2] eqn:Em.
    + destruct (inkscapeLoop host Sprintf fuel c src fromPage toPage _ 0 [] w2)
        as [[r w3] t3] eqn:Ei.
      cbn [fst] in H. subst r. apply inkscapeLoop_protocol in Ei.
      apply (FallbackRun_paths _ _ _ _ _ _ _ _ _ Ei). constructor.
    + cbn [fst] in H. inversion H; subst.
      apply (mutoolLoop_paths _ _ _ _ _ _ _ _ _ _ _ (Forall_nil _) Em).
    + cbn [fst] in H. discriminate H.
Qed.

(** X20.  When the workspace is a path of plain names and formatting the
    page number puts no separator into the file name, every page
    [convertPDFToPage] returns, by whichever tool, is a file directly in
    the workspace. *)
Theorem convertPDFToPage_pages_in_workspace :
  forall fuel c src fromPage toPage ext w ns pages err,
  ns <> [] -> Forall (fun e => plainElem e = true) ns ->
  workspace c = String.concat "/" ns ->
  (forall n, exists name,
      allBytes notSep name = true
      /\ Sprintf (workspace c ++ "/%d" ++ ext) n
         = (workspace c ++ "/" ++ name)%string) ->
  result (convertPDFToPage host Sprintf fuel c src fromPage toPage ext w)
  = Some (pages, err) ->
  Forall (fun p => filepath.Dir (PagePath p) = workspace c) pages.
Proof.
  intros fuel c src fromPage toPage ext w ns pages err Hns Hall Hws Hfmt H.
  apply convertPDFToPage_paths in H.
  apply (Forall_impl _ (P := fromFormat (workspace c ++ "/%d" ++ ext)%string));
    [|exact H].
  intros p [n Hp]. rewrite Hp.
  destruct (Hfmt n) as (name & Hname & Hs). rewrite Hs, Hws.
  apply Dir_in_plain_dir; assumption.
Qed.

(** X21.  Under the same conditions, and when svgo is enabled and there is
    a page, svgo is run on the workspace directory itself, with ten
    times the timeout of the converter. *)
Theorem ConvertPDFToSVG_svgo_on_workspace :
  forall fuel c src fromPage toPage enableGZIP w ns page0 rest,
  ns <> [] -> Forall (fun e => plainElem e = true) ns ->
  workspace c = String.concat "/" ns ->
  (forall n, exists name,
      allBytes notSep name = true
      /\ Sprintf (workspace c ++ "/%d" ++ ".svg") n
         = (workspace c ++ "/" ++ name)%string) ->
  result (convertPDFToPage host Sprintf fuel c src fromPage toPage ".svg" w)
  = Some (page0 :: rest, None) ->
  exists out e,
    In (EvExec svgo ["-f"; workspace c] [int_mul (timeout c) 10] out e)
       (trace (ConvertPDFToSVG host Sprintf fuel c src fromPage toPage
                 true enableGZIP w)).
Proof.
  intros fuel c src fromPage toPage enableGZIP w ns page0 rest
         Hns Hall Hws Hfmt H.
  pose proof (convertPDFToPage_paths _ _ _ _ _ _ _ _ _ H) as Hp.
  inversion Hp as [|? ? [n Hn] _]; subst.
  assert (Hdir : filepath.Dir (PagePath page0) = workspace c).
  { rewrite Hn. destruct (Hfmt n) as (name & Hname & Hs). rewrite Hs, Hws.
    apply Dir_in_plain_dir; assumption. }
  unfold ConvertPDFToSVG, CompressSVGBySVGO. run_in H. run.
  destruct (convertPDFToPage host Sprintf fuel c src fromPage toPage ".svg" w)
    as [[r w1] t1].
  cbn [fst] in H. subst r. cbn [negb]. rewrite Hdir.
  destruct (h_ExecCommand host svgo ["-f"; workspace c]
              [int_mul (timeout c) 10] w1) as [[o e] w2].
  exists o, e.
  destruct (if enableGZIP
            then gzipEachPage host c (page0 :: rest)
            else fun w0 => (page0 :: rest, w0, [])) as [[ps w3] t3].
  apply in_or_app. right. left. reflexivity.
Qed.

End PagePathProps.

Section FreshWorkspace.

Context {W : Type} (host : Host W).

(** X23.  The workspace [NewConverter] allocates is made of six plain
    names joined by slashes: cache, convert, year, month, day and UUID.
    It is a clean path, and the directory of a file in it is the
    workspace itself: a converter made by [NewConverter] meets the
    condition of the statements on the files of the workspace. *)
Theorem NewConverter_workspace_plain : forall tmo w u w1 c w2 t,
  h_NewV1 host w = ((u, None), w1) ->
  isCanonicalUUID u = true ->
  NewConverter host tmo w = (Returned c, w2, t) ->
  exists y m d,
    workspace c = String.concat "/" ["cache"; "convert"; y; m; d; u]
    /\ Forall (fun e => plainElem e = true) ["cache"; "convert"; y; m; d; u]
    /\ filepath.Clean (workspace c) = workspace c
    /\ filepath.Dir (workspace c ++ "/dst.pdf") = workspace c.
Proof.
  intros tmo w u w1 c w2 t Hu Hc H.
  unfold NewConverter in H.
  pose proof (makeWorkspace_fresh host
                (mkConverter "cache/convert"
                   match tmo with t :: _ => t | [] => int_mul 1 time.Hour end
                   "") w u w1 eq_refl Hu Hc) as Hm.
  cbn [cachePath timeout] in Hm.
  change (dirPrefix "cache/convert") with "cache/convert/" in Hm.
  run_in H. rewrite Hm in H. cbn [cachePath timeout workspace] in H.
  destruct (h_MkdirAll host "cache/convert" w1) as [e1 w2'].
  destruct (h_MkdirAll host _ w2') as [e2 w3].
  assert (Hwc : workspace c
                = ("cache/convert/" ++ datedName (h_Now host w1) u)%string)
    by (inversion H; reflexivity).
  set (y := time.appendInt (time.Year (h_Now host w1)) 4).
  set (m := time.appendInt (time.Month (h_Now host w1)) 2).
  set (d := time.appendInt (time.Day (h_Now host w1)) 2).
  assert (Hplain : Forall (fun e => plainElem e = true)
                     ["cache"; "convert"; y; m; d; u]).
  { repeat constructor; try apply appendInt_plain.
    apply canonicalUUID_plain, Hc. }
  assert (Hws : ("cache/convert/" ++ datedName (h_Now host w1) u)%string
                = String.concat "/" ["cache"; "convert"; y; m; d; u]).
  { unfold datedName. fold y m d. reflexivity. }
  exists y, m, d. rewrite Hwc, Hws.
  split; [reflexivity|]. split; [exact Hplain|].
  split; [apply Clean_plain_names; [discriminate | exact Hplain]|].
  apply (Dir_in_plain_dir _ "dst.pdf"); [discriminate | exact Hplain|].
  reflexivity.
Qed.

End FreshWorkspace.

(** ** Output without a line that counts *)

Section NoCountingLine.

Context {W : Type} (host : Host W).
Variable mapUnicodeToLower : string -> string.
Variable trimFuncIsSpace : string -> string.
Variable trimRightFuncIsSpace : string -> string.

Local Abbreviation ToLower := (strings.ToLower mapUnicodeToLower).
Local Abbreviation TrimSpace :=
  (strings.TrimSpace trimFuncIsSpace trimRightFuncIsSpace).
Local Abbreviation scan :=
  (scanLines mapUnicodeToLower trimFuncIsSpace trimRightFuncIsSpace).
Local Abbreviation parseLine :=
  (parsePageLine trimFuncIsSpace trimRightFuncIsSpace).
Local Abbreviation CountPages :=
  (CountPDFPages host mapUnicodeToLower trimFuncIsSpace trimRightFuncIsSpace).
Local Abbreviation positiveLine :=
  (positivePageLine mapUnicodeToLower trimFuncIsSpace trimRightFuncIsSpace).
Local Abbreviation isPageLine :=
  (fun l => strings.HasPrefix (TrimSpace (ToLower l)) "page").

Lemma scanLines_app : forall xs ys p,
  (forall x, In x xs -> ~ positiveLine x) ->
  scan (xs ++ ys) p = scan ys (scan xs p).
Proof.
  induction xs as [|x xs IH]; intros ys p Hxs; cbn [app scanLines];
    [reflexivity|].
  assert (Hx : ~ positiveLine x) by (apply Hxs; left; reflexivity).
  assert (Hxs' : forall y, In y xs -> ~ positiveLine y)
    by (intros y Hy; apply Hxs; right; exact Hy).
  destruct (strings.HasPrefix (TrimSpace (ToLower x)) "page") eqn:Ep;
    [|apply IH; assumption].
  destruct (0 <? parseLine (TrimSpace (ToLower x))) eqn:En;
    [|apply IH; assumption].
  exfalso. apply Hx. split; [exact Ep | apply Z.ltb_lt; exact En].
Qed.

Lemma scanLines_first_page_line : forall ls,
  (forall x, In x ls -> ~ positiveLine x) ->
  scan (rev ls) 0
  = match find isPageLine ls with
    | Some l => parseLine (TrimSpace (ToLower l))
    | None => 0
    end.
Proof.
  induction ls as [|l ls IH]; intros Hls; [reflexivity|].
  assert (Hl : ~ positiveLine l) by (apply Hls; left; reflexivity).
  assert (Hls' : forall y, In y ls -> ~ positiveLine y)
    by (intros y Hy; apply Hls; right; exact Hy).
  cbn [rev find]. rewrite scanLines_app
    by (intros x Hx; apply Hls'; apply in_rev; exact Hx).
  rewrite IH by exact Hls'. cbn [scanLines].
  destruct (strings.HasPrefix (TrimSpace (ToLower l)) "page") eqn:Ep;
    [|reflexivity].
  destruct (0 <? parseLine (TrimSpace (ToLower l))) eqn:En; [|reflexivity].
  reflexivity.
Qed.

(** X22.  When mutool succeeds and no line of its output counts,
    [CountPDFPages] returns a nil error and the number of the first line
    that starts with "page" (zero, negative, or zero for a number that
    cannot be read), or zero when there is no such line: the count
    returned is not positive and can be negative. *)
Theorem CountPDFPages_without_counting_line : forall c file w out w1,
  h_ExecCommand host mutool ["show"; file; "pages"] [timeout c] w
  = ((out, None), w1) ->
  (forall x, In x (strings.Split out newline) -> ~ positiveLine x) ->
  let n := match find isPageLine (strings.Split out newline) with
           | Some l => parseLine (TrimSpace (ToLower l))
           | None => 0
           end in
  CountPages c file w
  = ((n, None), w1,
     [EvExec mutool ["show"; file; "pages"] [timeout c] out None])
  /\ n <= 0.
Proof.
  intros c file w out w1 Hx Hno n. split.
  - unfold CountPDFPages. run. rewrite Hx. cbn [fst snd].
    rewrite scanLines_first_page_line by exact Hno. reflexivity.
  - subst n.
    destruct (find isPageLine (strings.Split out newline)) as [l|] eqn:Ef;
      [|lia].
    apply find_some in Ef. destruct Ef as [Hin Hp].
    destruct (Z.le_gt_cases (parseLine (TrimSpace (ToLower l))) 0) as [H|H];
      [exact H|].
    exfalso. apply (Hno l Hin). split; [exact Hp | lia].
Qed.

End NoCountingLine.

(** ** The end of the page loops *)

Lemma wrap64_range : forall z, inInt64 (wrap64 z).
Proof.
  intros z. unfold inInt64, wrap64, MinInt64, MaxInt64.
  pose proof (Z.mod_pos_bound (z + 2 ^ 63) (2 ^ 64) ltac:(lia)). lia.
Qed.

Section LoopEnd.

Context {W : Type} (host : Host W).
Variable Sprintf : string -> Z -> string.

(** X24.  For every extension, [ConvertPDFToPages] returns when the
    difference [toPage-fromPage], as an [int], is below the largest
    [int]: one loop step more than the range has pages is enough. *)
Theorem ConvertPDFToPages_returns :
  forall fuel c src fromPage toPage opt w,
  int_sub toPage fromPage < MaxInt64 ->
  (Z.to_nat (int_sub toPage fromPage + 1) < fuel)%nat ->
  exists pages err,
    result (ConvertPDFToPages host Sprintf fuel c src fromPage toPage opt w)
    = Some (pages, err).
Proof.
  intros fuel c src fromPage toPage opt w Hd Hfuel.
  assert (Hret : forall ext,
            exists pages err w1 t,
              convertPDFToPage host Sprintf fuel c src fromPage toPage ext w
              = (Some (pages, err), w1, t)).
  { intros ext.
    destruct (convertPDFToPage_returns host Sprintf fuel c src fromPage toPage
                ext w Hd Hfuel) as [[pages err] Hr].
    destruct (convertPDFToPage host Sprintf fuel c src fromPage toPage ext w)
      as [[r w1] t].
    cbn in Hr. subst r. eauto. }
  unfold ConvertPDFToPages, ConvertPDFToPNG, ConvertPDFToSVG.
  destruct (String.eqb (strings.TrimLeft (Extension opt) ".") "png").
  - destruct (Hret ".png") as (pages & err & w1 & t & Hr). rewrite Hr.
    exists pages, err. reflexivity.
  - destruct (String.eqb (strings.TrimLeft (Extension opt) ".") "jpg"
              || String.eqb (strings.TrimLeft (Extension opt) ".") "webp").
    + destruct (Hret ".png") as (pages & err & w1 & t & Hr). run. rewrite Hr.
      destruct (convertEachPage host c _ pages w1) as [[ps w2] t2].
      exists ps, err. reflexivity.
    + destruct (Hret ".svg") as (pages & err & w1 & t & Hr). run. rewrite Hr.
      destruct err as [e|]; cbn [negb].
      * exists pages, (Some e). reflexivity.
      * destruct pages as [|page0 rest]; [exists [], None; reflexivity|].
        destruct ((if EnableSVGO opt
                   then CompressSVGBySVGO host c
                          (filepath.Dir (PagePath page0))
                   else fun w0 => (None, w0, [])) w1) as [[e w2] t2].
        destruct ((if EnableGZIP opt
                   then gzipEachPage host c (page0 :: rest)
                   else fun w0 => (page0 :: rest, w0, [])) w2)
          as [[ps w3] t3].
        exists ps, None. reflexivity.
Qed.

Lemma mutoolLoop_endless : forall fuel fromPage toPage fmt i pages w,
  int_sub toPage fromPage = MaxInt64 ->
  inInt64 i ->
  (forall path, h_Stat host path w = None) ->
  result (mutoolLoop host Sprintf fuel fromPage toPage fmt i pages w) = None.
Proof.
  induction fuel as [|fuel IH]; intros fromPage toPage fmt i pages w HD Hi Hs;
    cbn [mutoolLoop]; [reflexivity|].
  rewrite HD.
  replace (i <=? MaxInt64) with true
    by (symmetry; apply Z.leb_le; apply Hi).
  run. rewrite Hs.
  specialize (IH fromPage toPage fmt (int_add i 1)
                (pages ++ [mkPage (int_add fromPage i)
                             (pagePathOf Sprintf fmt i)]) w HD
                (wrap64_range _) Hs).
  run_in IH.
  destruct (mutoolLoop host Sprintf fuel fromPage toPage fmt (int_add i 1) _ w)
    as [[r w2] t2].
  exact IH.
Qed.

(** X25.  When the difference [toPage-fromPage] is the largest [int], the
    condition of the page loop never fails: as long as mutool succeeds
    and every file asked for exists, [convertPDFToPage] has not returned
    after any number of steps. *)
Theorem convertPDFToPage_endless_range :
  forall fuel c src fromPage toPage ext w out w1,
  int_sub toPage fromPage = MaxInt64 ->
  h_ExecCommand host mutool (mutoolArgs c src fromPage toPage ext)
    [timeout c] w = ((out, None), w1) ->
  (forall path, h_Stat host path w1 = None) ->
  result (convertPDFToPage host Sprintf fuel c src fromPage toPage ext w)
  = None.
Proof.
  intros fuel c src fromPage toPage ext w out w1 HD Hx Hs.
  unfold convertPDFToPage, convertPDFToPage_body. run. rewrite Hx.
  cbn [fst snd].
  pose proof (mutoolLoop_endless fuel fromPage toPage
                (workspace c ++ "/%d" ++ ext) 0 [] w1 HD
                ltac:(unfold inInt64, MinInt64, MaxInt64; lia) Hs) as Hm.
  run_in Hm.
  destruct (mutoolLoop host Sprintf fuel fromPage toPage _ 0 [] w1)
    as [[r w2] t2].
  cbn in Hm. subst r. reflexivity.
Qed.

End LoopEnd.

(** ** The further properties on the small host

    The statements above that have a condition, each applied to a run of
    the small host on which its conditions hold. *)

Lemma NewConverter_allocates_witness :
  result (NewConverter simHost [] worldTwoUUIDs)
  = Returned
      (mkConverter "cache/convert" time.Hour
         "cache/convert/2024/02/29/6ba7b810-9dad-11d1-80b4-00c04fd430c8").
Proof.
  rewrite (proj1 (NewConverter_allocates simHost [] worldTwoUUIDs)
             uuidA _ eq_refl eq_refl).
  reflexivity.
Defined.

Lemma ConvertPDFToPages_routing_witness :
  ConvertPDFToPages simHost simSprintf 3 simConverter "in.pdf" 1 2
    (mkOption true true "..png")
  = ConvertPDFToPNG simHost simSprintf 3 simConverter "in.pdf" 1 2.
Proof.
  apply (proj1 (ConvertPDFToPages_routing simHost simSprintf 3 simConverter
                  "in.pdf" 1 2 (mkOption true true "..png") 2 "png"
                  eq_refl eq_refl)).
  reflexivity.
Defined.


Lemma CompressSVGByGZIP_stream_unterminated_witness :
  exists e,
    trace (CompressSVGByGZIP simHost simConverter "ws/1.svg" worldSvg)
    = [EvReadFile "ws/1.svg" None;
       EvWriteFile (gzipName "ws/1.svg")
         [gzip.Header; gzip.Deflated (escapeDataText svgSample);
          gzip.SyncMarker] e]
    /\ result (CompressSVGByGZIP simHost simConverter "ws/1.svg" worldSvg)
       = (gzipName "ws/1.svg", e)
    /\ gzip.ReadAll
         [gzip.Header; gzip.Deflated (escapeDataText svgSample);
          gzip.SyncMarker]
       = (escapeDataText svgSample, Some "unexpected EOF").
Proof.
  apply (CompressSVGByGZIP_stream_unterminated simHost simConverter "ws/1.svg"
           worldSvg svgSample).
  reflexivity.
Defined.

Lemma convertPDFToPage_complete_or_error_witness :
  exists k,
    [mkPage 1 "ws/1.png"; mkPage 2 "ws/2.png"]
    = pagesOf simSprintf 1 (workspace simConverter ++ "/%d" ++ ".png") 0 k
    /\ (k <= Z.to_nat (2 - 1 + 1))%nat
    /\ (@None string = None <-> k = Z.to_nat (2 - 1 + 1)).
Proof.
  apply (convertPDFToPage_complete_or_error simHost simSprintf 3 simConverter
           "in.pdf" 1 2 ".png" worldBothPages).
  - unfold inInt64, MinInt64, MaxInt64. lia.
  - unfold inInt64, MinInt64, MaxInt64. lia.
  - unfold MinInt64, MaxInt64. lia.
  - reflexivity.
Defined.

Lemma countPDFPagesV2_cases_witness :
  countPDFPagesV2 simHost "scan.pdf" worldDamagedPdf
  = ((2, None), worldDamagedPdf,
     [EvPdfRead "scan.pdf" (PdfPanic "malformed PDF: reading at offset 0");
      EvReadFile "scan.pdf" None]).
Proof.
  rewrite (proj2 (proj2 (countPDFPagesV2_cases simHost "scan.pdf"
                           worldDamagedPdf))
             "malformed PDF: reading at offset 0"
             "trailer << /Root 1 0 R /Info 2 0 R >>" eq_refl eq_refl);
    [reflexivity|].
  unfold MaxInt64. cbn. lia.
Defined.

Lemma CountPDFPages_last_page_line_witness :
  CountPDFPages simHost simSlow simSlow simSlow simConverter "in.pdf"
    worldListing
  = ((2, None), worldListing,
     [EvExec mutool ["show"; "in.pdf"; "pages"] [timeout simConverter]
        (sim_stdout worldListing) None]).
Proof.
  rewrite (CountPDFPages_last_page_line simHost simSlow simSlow simSlow
             simConverter "in.pdf" worldListing (sim_stdout worldListing)
             worldListing ["page 1 = 4 0 R"] "page 2 = 7 0 R" [""]).
  - reflexivity.
  - reflexivity.
  - reflexivity.
  - split; [reflexivity | vm_compute; reflexivity].
  - intros x [<- | []] [H _]. discriminate H.
Defined.

Lemma CountPDFPages_mutool_listing_witness :
  CountPDFPages simHost simSlow simSlow simSlow simConverter "in.pdf"
    worldListing
  = ((2, None), worldListing,
     [EvExec mutool ["show"; "in.pdf"; "pages"] [timeout simConverter]
        (("page 1 = 4 0 R" ++ newline) ++ pageLine 2 "7 0 R" ++ newline) None]).
Proof.
  apply (CountPDFPages_mutool_listing simHost simSlow simSlow simSlow
           simConverter "in.pdf" worldListing ("page 1 = 4 0 R" ++ newline)
           2 "7 0 R" newline worldListing).
  - reflexivity.
  - right. reflexivity.
  - right. reflexivity.
  - lia.
  - reflexivity.
  - reflexivity.
Defined.

Lemma ConvertToPDF_destination_witness :
  fst (result (ConvertToPDF simHost simSlow simConverter "books/Novel.EPUB"
                 worldBothPages))
  = "ws/dst.pdf".
Proof.
  apply (proj2 (proj2 (ConvertToPDF_destination simHost simSlow simConverter
                         "books/Novel.EPUB" worldBothPages))).
  vm_compute. auto.
Defined.

Lemma CountPDFPages_error_iff_witness :
  exists e,
    snd (result (CountPDFPages simHost simSlow simSlow simSlow simConverter
                   "gone.pdf" worldDamagedPdf))
    = Some e.
Proof.
  assert (H : snd (result (CountPDFPages simHost simSlow simSlow simSlow
                             simConverter "gone.pdf" worldDamagedPdf))
              <> None).
  { apply (proj2 (CountPDFPages_error_iff simHost simSlow simSlow simSlow
                    simConverter "gone.pdf" worldDamagedPdf)).
    exists EmptyString, "exit status 1", worldDamagedPdf,
      "malformed PDF: reading at offset 0", EmptyString,
      "open gone.pdf: no such file or directory".
    repeat split; reflexivity. }
  destruct (snd (result (CountPDFPages simHost simSlow simSlow simSlow
                           simConverter "gone.pdf" worldDamagedPdf)))
    as [e|]; [exists e; reflexivity | congruence].
Defined.

(** [simSprintf] on the formats of the workspace "ws". *)
Lemma simSprintf_in_ws : forall ext n,
  allBytes notSep ext = true ->
  exists name,
    allBytes notSep name = true
    /\ simSprintf ("ws" ++ "/%d" ++ ext) n = ("ws" ++ "/" ++ name)%string.
Proof.
  intros ext n Hext. exists (strconv.Itoa n ++ ext)%string. split.
  - rewrite allBytes_app, Itoa_notSep, Hext. reflexivity.
  - unfold simSprintf. set (d := strconv.Itoa n).
    cbn [append bytes_.replaceLoop strings.Index].
    destruct (String.prefix "%d" (String "w" (String "s" (String "/"
                (String "%" (String "d" ext)))))) eqn:E1; [discriminate E1|].
    destruct (String.prefix "%d" (String "s" (String "/"
                (String "%" (String "d" ext))))) eqn:E2; [discriminate E2|].
    destruct (String.prefix "%d" (String "/" (String "%" (String "d" ext))))
      eqn:E3; [discriminate E3|].
    rewrite (prefix_app "%d" ext : String.prefix "%d"
               (String "%" (String "d" ext)) = true).
    reflexivity.
Qed.

Lemma convertToPDFByCalibre_prepares_workspace_witness :
  exists out err,
    trace (convertToPDFByCalibre simHost simConverter "book.epub"
             worldBothPages)
    = [EvMkdirAll (workspace simConverter);
       EvExec ebookConvert
         ["book.epub"; (workspace simConverter ++ "/dst.pdf")%string;
          "--paper-size"; "a4";
          "--pdf-page-margin-bottom"; "36"; "--pdf-page-margin-left"; "36";
          "--pdf-page-margin-right"; "36"; "--pdf-page-margin-top"; "36"]
         [timeout simConverter] out err]
    /\ result (convertToPDFByCalibre simHost simConverter "book.epub"
                 worldBothPages)
       = ((workspace simConverter ++ "/dst.pdf")%string, err).
Proof.
  apply (convertToPDFByCalibre_prepares_workspace simHost simConverter
           "book.epub" worldBothPages ["ws"]).
  - discriminate.
  - repeat constructor.
  - reflexivity.
Defined.

Lemma ConvertToPDF_second_pass_witness :
  exists e,
    trace (ConvertToPDF simHost simSlow simConverter "ws/dst.pdf"
             worldBothPages)
    = [EvCopyFile "ws/dst.pdf" "ws/dst.pdf" e].
Proof.
  apply (proj2 (proj2 (ConvertToPDF_second_pass simHost simSlow simConverter
                         "in.pdf" worldNoPageLine worldBothPages))).
  vm_compute. auto.
Defined.

Lemma convertPDFToPage_pages_in_workspace_witness :
  Forall (fun p => filepath.Dir (PagePath p) = workspace simConverter)
    [mkPage 1 "ws/1.png"; mkPage 2 "ws/2.png"].
Proof.
  apply (convertPDFToPage_pages_in_workspace simHost simSprintf 3 simConverter
           "in.pdf" 1 2 ".png" worldBothPages ["ws"] _ None).
  - discriminate.
  - repeat constructor.
  - reflexivity.
  - intros n. apply simSprintf_in_ws. reflexivity.
  - reflexivity.
Defined.

Lemma ConvertPDFToSVG_svgo_on_workspace_witness :
  exists out e,
    In (EvExec svgo ["-f"; workspace simConverter]
          [int_mul (timeout simConverter) 10] out e)
       (trace (ConvertPDFToSVG simHost simSprintf 3 simConverter "in.pdf" 1 1
                 true true worldSvg)).
Proof.
  apply (ConvertPDFToSVG_svgo_on_workspace simHost simSprintf 3 simConverter
           "in.pdf" 1 1 true worldSvg ["ws"] (mkPage 1 "ws/1.svg") []).
  - discriminate.
  - repeat constructor.
  - reflexivity.
  - intros n. apply simSprintf_in_ws. reflexivity.
  - reflexivity.
Defined.

Lemma CountPDFPages_without_counting_line_witness :
  CountPDFPages simHost simSlow simSlow simSlow simConverter "in.pdf"
    worldNegativeLine
  = ((-5, None), worldNegativeLine,
     [EvExec mutool ["show"; "in.pdf"; "pages"] [timeout simConverter]
        (sim_stdout worldNegativeLine) None]).
Proof.
  assert (Hno : forall x,
            In x (strings.Split (sim_stdout worldNegativeLine) newline) ->
            ~ positivePageLine simSlow simSlow simSlow x).
  { intros x [<- | [<- | []]] [_ H]; vm_compute in H; discriminate H. }
  exact (proj1 (CountPDFPages_without_counting_line simHost simSlow simSlow
                  simSlow simConverter "in.pdf" worldNegativeLine
                  (sim_stdout worldNegativeLine) worldNegativeLine eq_refl
                  Hno)).
Defined.

Lemma NewConverter_workspace_plain_witness :
  exists y m d,
    "cache/convert/2024/02/29/6ba7b810-9dad-11d1-80b4-00c04fd430c8"
    = String.concat "/" ["cache"; "convert"; y; m; d; uuidA]
    /\ Forall (fun e => plainElem e = true)
         ["cache"; "convert"; y; m; d; uuidA]
    /\ filepath.Clean
         "cache/convert/2024/02/29/6ba7b810-9dad-11d1-80b4-00c04fd430c8"
       = "cache/convert/2024/02/29/6ba7b810-9dad-11d1-80b4-00c04fd430c8"
    /\ filepath.Dir
         ("cache/convert/2024/02/29/6ba7b810-9dad-11d1-80b4-00c04fd430c8"
            ++ "/dst.pdf")
       = "cache/convert/2024/02/29/6ba7b810-9dad-11d1-80b4-00c04fd430c8".
Proof.
  apply (NewConverter_workspace_plain simHost [] worldTwoUUIDs uuidA _
           (mkConverter "cache/convert" time.Hour
              "cache/convert/2024/02/29/6ba7b810-9dad-11d1-80b4-00c04fd430c8")
           _ _ eq_refl eq_refl eq_refl).
Defined.

Lemma ConvertPDFToPages_returns_witness :
  exists pages err,
    result (ConvertPDFToPages simHost simSprintf 3 simConverter "in.pdf" 1 2
              (mkOption true true "svg") worldBothPages)
    = Some (pages, err).
Proof.
  apply (ConvertPDFToPages_returns simHost simSprintf 3 simConverter "in.pdf"
           1 2 (mkOption true true "svg") worldBothPages).
  - vm_compute. reflexivity.
  - vm_compute. lia.
Defined.

Lemma convertPDFToPage_endless_range_witness :
  result (convertPDFToPage everythingThere simSprintf 1000 simConverter
            "in.pdf" 0 MaxInt64 ".png" tt)
  = None.
Proof.
  apply (convertPDFToPage_endless_range everythingThere simSprintf 1000
           simConverter "in.pdf" 0 MaxInt64 ".png" tt EmptyString tt).
  - vm_compute. reflexivity.
  - reflexivity.
  - reflexivity.
Defined.
